(** * telegram-bot-muxer: a shallow embedding of [client.go] and [config.go]

    The development follows the two source files of the proxy:

    - [config.go]: the [Config] structures and [Load];
    - [client.go]: the [Client] structure, the long-poll loop
      [StartPolling], the request forwarder [ForwardRequest], the retry
      controller ([sleepUntilRetry], [resetRetry]), the three echo
      processors and the rate governor ([updateRateLimit]).

    Everything the Go code obtains from outside the two files (the clock,
    the upstream HTTP server, the downstream writer, the [Database]) is an
    explicit input of the model; every effect the code performs on the
    outside (log lines, sleeps, storage calls, HTTP traffic) is recorded, in
    program order, in a trace.

    The libraries the two files call are modelled as far as the files use
    them:
    - [time]: durations are [int64] nanoseconds with wrap-around; instants
      are points of an unbounded line (no saturation of [Sub]);
    - [gjson]: documents are trees whose numbers are integer literals;
      [Get] takes paths of plain member names; [ForEach] visits the
      elements of an array, the members of an object, a scalar itself;
    - [strconv.ParseInt] in base 10 on 64 bits;
    - the [Database] and its [Tx]: every call returns [nil] or an error,
      as an oracle in the world decides; the calls and their outcomes are
      kept in the trace;
    - [net/url], [encoding/json], [strings]: parameters of [Load]. *)

From Stdlib Require Import Ascii.
From stdpp Require Import gmap strings list pretty.

Local Open Scope string_scope.
Local Open Scope Z_scope.
Set Warnings "-register-all".

(* ===================================================================== *)
(** ** Machine integers *)
(* ===================================================================== *)

(** [uint64] and [int64] are carried by [Z]; the wrap-around of Go's
    arithmetic is applied wherever the source computes on them. *)

Definition wrap_u64 (z : Z) : Z := z mod 2 ^ 64.

Definition wrap_i64 (z : Z) : Z := (z + 2 ^ 63) mod 2 ^ 64 - 2 ^ 63.

Definition MaxInt64 : Z := 2 ^ 63 - 1.
Definition MinInt64 : Z := - 2 ^ 63.

(** Decimal digits, shared by [strconv.ParseInt] and gjson's own parsers. *)

Definition digit_of (c : ascii) : option Z :=
  let n := Z.of_N (N_of_ascii c) in
  if (48 <=? n) && (n <=? 57) then Some (n - 48) else None.

Fixpoint digits_from (acc : Z) (s : string) : option Z :=
  match s with
  | EmptyString => Some acc
  | String c s' =>
      match digit_of c with
      | Some d => digits_from (acc * 10 + d) s'
      | None => None
      end
  end.

(** A non-empty run of decimal digits. *)
Definition digits (s : string) : option Z :=
  match s with
  | EmptyString => None
  | _ => digits_from 0 s
  end.

(* ===================================================================== *)
(** ** package time *)
(* ===================================================================== *)

Module time.

  (** [time.Duration] is an [int64] count of nanoseconds. *)
Definition Duration := Z.

Definition Nanosecond : Duration := 1.
Definition Second : Duration := 1000000000.

  (** [time.Time]: an instant, as nanoseconds on the line whose origin is
      the zero [Time]. *)
Definition Time := Z.

Definition Add (t : Time) (d : Duration) : Time := t + d.
Definition After (t u : Time) : bool := u <? t.
Definition Sub (t u : Time) : Duration := t - u.

  (** [time.Duration(x)] applied to a [uint64]. *)
Definition Duration_of_uint64 (x : Z) : Duration := wrap_i64 x.

  (** Multiplication of two durations, in [int64]. *)
Definition mul (a b : Duration) : Duration := wrap_i64 (a * b).

End time.

(* ===================================================================== *)
(** ** package strconv *)
(* ===================================================================== *)

Module strconv.

  (** [strconv.ParseInt(s, 10, 64)]: an optional sign, then decimal digits.
      The result pairs the value with the "error is not nil" flag: on a
      syntax error the value is 0, on a range error it is the nearest
      [int64]. *)
Definition ParseInt (s : string) : Z * bool :=
    let '(neg, body) :=
      match s with
      | String "-"%char r => (true, r)
      | String "+"%char r => (false, r)
      | _ => (false, s)
      end in
    match digits body with
    | None => (0, true)
    | Some n =>
        let v := if neg then - n else n in
        if v <? MinInt64 then (MinInt64, true)
        else if MaxInt64 <? v then (MaxInt64, true)
        else (v, false)
    end.

End strconv.

(* ===================================================================== *)
(** ** package gjson (github.com/tidwall/gjson) *)
(* ===================================================================== *)

(** A parsed JSON document.  Numbers are integer literals, which is what
    the Bot API uses for every identifier read by the client. *)
Inductive json : Type :=
| JNull
| JFalse
| JTrue
| JNumber (n : Z)
| JString (s : string)
| JArray (items : list json)
| JObject (members : list (string * json)).

Module gjson.

Inductive Type_ : Set := Null | False_ | Number | String_ | True_ | JSON.

  (** A [gjson.Result]: [None] is the result that does not exist (its [Raw]
      is empty and its [Type] is [Null]); otherwise the value found, which
      also stands for its [Raw] text. *)
Definition Result := option json.

  (** [r.Type] *)
Definition TypeOf (r : Result) : Type_ :=
    match r with
    | None | Some JNull => Null
    | Some JFalse => False_
    | Some JTrue => True_
    | Some (JNumber _) => Number
    | Some (JString _) => String_
    | Some (JArray _) | Some (JObject _) => JSON
    end.

Definition is_True (r : Result) : bool :=
    match TypeOf r with True_ => true | _ => false end.

  (** Member lookup: the first member with that name, in an object only. *)
Fixpoint member (key : string) (ms : list (string * json)) : Result :=
    match ms with
    | [] => None
    | (k, v) :: ms' => if String.eqb k key then Some v else member key ms'
    end.

Definition field (key : string) (r : Result) : Result :=
    match r with
    | Some (JObject ms) => member key ms
    | _ => None
    end.

  (** [r.Get(path)] for a path made of plain member names separated by
      dots, given here already split: [Get ["chat"; "id"]] is
      [Get("chat.id")]. *)
Definition Get (path : list string) (r : Result) : Result :=
    fold_left (fun acc key => field key acc) path r.

  (** gjson's [parseInt] and [parseUint] keep no overflow check: the value
      wraps. *)
Definition parseInt (s : string) : Z :=
    match s with
    | String "-"%char r =>
        match digits r with Some n => wrap_i64 (- n) | None => 0 end
    | _ => match digits s with Some n => wrap_i64 n | None => 0 end
    end.

Definition parseUint (s : string) : Z :=
    match digits s with Some n => wrap_u64 n | None => 0 end.

Definition Int (r : Result) : Z :=
    match r with
    | Some JTrue => 1
    | Some (JString s) => parseInt s
    | Some (JNumber n) => wrap_i64 n
    | _ => 0
    end.

Definition Uint (r : Result) : Z :=
    match r with
    | Some JTrue => 1
    | Some (JString s) => parseUint s
    | Some (JNumber n) => wrap_u64 n
    | _ => 0
    end.

  (** The key handed to a [ForEach] iterator: a member name in an object,
      the position in an array, the empty [Result] otherwise. *)
Inductive Key : Type :=
  | KeyNone
  | KeyIndex (i : nat)
  | KeyName (s : string).

  (** [key.Str] *)
Definition Str (k : Key) : string :=
    match k with KeyName s => s | _ => EmptyString end.

  (** [key.String()] *)
Definition String (k : Key) : string :=
    match k with
    | KeyName s => s
    | KeyIndex i => pretty i
    | KeyNone => EmptyString
    end.

  (** The pairs a [ForEach] visits, in order: nothing for a result that
      does not exist, the value itself for a scalar, the elements of an
      array, the members of an object. *)
Definition entries (r : Result) : list (Key * json) :=
    match r with
    | None => []
    | Some (JArray items) => imap (fun i v => (KeyIndex i, v)) items
    | Some (JObject ms) => map (fun kv => (KeyName (fst kv), snd kv)) ms
    | Some v => [(KeyNone, v)]
    end.

End gjson.

(* ===================================================================== *)
(** ** config.go *)
(* ===================================================================== *)

(** The errors the two files build or pass on. *)
Inductive error : Type :=
| errConfigFieldIsEmpty (field : string)
| errConfigDurationIsTooShort (field : string)
| errLoadConfigFile                          (* "failed to load config file: %v" *)
| errConfigFieldIsInvalid (field : string)   (* "invalid config file: %s is invalid: %v" *)
| errSendRequest                             (* "failed to send HTTP request: %v" *)
| errHTTPStatus (status : Z)                 (* "HTTP error: %s" *)
| errUpstreamRequest                         (* "upstream HTTP request error: %v" *)
| Canceled                                   (* context.Canceled *)
| StorageFailure.                            (* whatever a Database method returns *)

(** [Error()] of the two error types that [config.go] declares. *)
Definition Error_errConfigFieldIsEmpty (field : string) : string :=
  "invalid config file: " ++ field ++ " is empty".

Definition Error_errConfigDurationIsTooShort (field : string) : string :=
  "invalid config file: " ++ field ++ " is too short".

Module ConfigUpstream.
Record t : Type := mk {
    ApiUrl : string;
    FileUrl : string;
    AuthToken : string;
    PollingTimeout : Z;              (* uint64 *)
    MaxRetryInterval : Z;            (* uint64 *)
    FilterUpdateTypes : list string;
    ApiPrefix : string;
    FilePrefix : string;
    FilterUpdateTypesStr : string;
  }.
End ConfigUpstream.

Module ConfigDownstream.
Record t : Type := mk {
    ListenAddr : string;
    ApiPath : string;
    FilePath : string;
    AuthToken : string;
    ApiPrefix : list string;
    FilePrefix : list string;
  }.
End ConfigDownstream.

Module Config.
Record t : Type := mk {
    DB : string;
    Upstream : ConfigUpstream.t;
    Downstream : ConfigDownstream.t;
  }.
End Config.

(** The keys a TOML document may set; a key that is absent leaves the
    field of the structure it is decoded into untouched. *)
Record TomlDoc : Type := mkTomlDoc {
  toml_db : option string;
  toml_upstream_api_url : option string;
  toml_upstream_file_url : option string;
  toml_upstream_auth_token : option string;
  toml_upstream_polling_timeout : option Z;
  toml_upstream_max_retry_interval : option Z;
  toml_upstream_filter_update_types : option (list string);
  toml_downstream_listen_addr : option string;
  toml_downstream_api_path : option string;
  toml_downstream_file_path : option string;
  toml_downstream_auth_token : option string;
}.

(** What [os.Open] and the TOML decoder make of the path given to [Load]. *)
Inductive ConfigFile : Type :=
| Unreadable                 (* os.Open fails *)
| Malformed                  (* d.Decode fails *)
| Document (doc : TomlDoc).

(** The functions of [net/url], [encoding/json] and [strings] that [Load]
    calls after validation. *)
Class Codec : Type := {
  PathEscape : string -> string;
  PathUnescape : string -> option string;
  QueryEscape : string -> string;
  Marshal : list string -> option string;
  (** [url.ParseRequestURI(s)] followed by [EscapedPath()] *)
  ParseRequestURI : string -> option string;
  (** [strings.Split(s, "/")] *)
  Split : string -> list string;
}.

(** The structure [Load] builds before it decodes the file. *)
Definition defaultConfig : Config.t :=
  Config.mk
    "tbmux.db"
    (ConfigUpstream.mk
       "https://api.telegram.org/bot"
       "https://api.telegram.org/file/bot"
       ""
       60
       600
       []
       "" "" "")
    (ConfigDownstream.mk "" "/bot" "/file/bot" "" [] []).

(** [d.Decode(conf)]: every key present in the document overwrites its
    field. *)
Definition Decode (doc : TomlDoc) (conf : Config.t) : Config.t :=
  let u := Config.Upstream conf in
  let d := Config.Downstream conf in
  Config.mk
    (default (Config.DB conf) (toml_db doc))
    (ConfigUpstream.mk
       (default (ConfigUpstream.ApiUrl u) (toml_upstream_api_url doc))
       (default (ConfigUpstream.FileUrl u) (toml_upstream_file_url doc))
       (default (ConfigUpstream.AuthToken u) (toml_upstream_auth_token doc))
       (default (ConfigUpstream.PollingTimeout u) (toml_upstream_polling_timeout doc))
       (default (ConfigUpstream.MaxRetryInterval u) (toml_upstream_max_retry_interval doc))
       (default (ConfigUpstream.FilterUpdateTypes u) (toml_upstream_filter_update_types doc))
       (ConfigUpstream.ApiPrefix u)
       (ConfigUpstream.FilePrefix u)
       (ConfigUpstream.FilterUpdateTypesStr u))
    (ConfigDownstream.mk
       (default (ConfigDownstream.ListenAddr d) (toml_downstream_listen_addr doc))
       (default (ConfigDownstream.ApiPath d) (toml_downstream_api_path doc))
       (default (ConfigDownstream.FilePath d) (toml_downstream_file_path doc))
       (default (ConfigDownstream.AuthToken d) (toml_downstream_auth_token doc))
       (ConfigDownstream.ApiPrefix d)
       (ConfigDownstream.FilePrefix d)).

(** [len(s) == 0] *)
Definition is_empty (s : string) : bool :=
  match s with EmptyString => true | _ => false end.

(** The block "Check for errors" of [Load], in source order: the first
    check that fails gives the error. *)
Definition checkConfig (conf : Config.t) : option error :=
  let u := Config.Upstream conf in
  let d := Config.Downstream conf in
  if is_empty (Config.DB conf) then Some (errConfigFieldIsEmpty "db")
  else if is_empty (ConfigUpstream.ApiUrl u) then Some (errConfigFieldIsEmpty "upstream.api_url")
  else if is_empty (ConfigUpstream.FileUrl u) then Some (errConfigFieldIsEmpty "upstream.file_url")
  else if is_empty (ConfigUpstream.AuthToken u) then Some (errConfigFieldIsEmpty "upstream.auth_token")
  else if ConfigUpstream.PollingTimeout u <? 10 then Some (errConfigDurationIsTooShort "upstream.polling_timeout")
  else if ConfigUpstream.MaxRetryInterval u <? 60 then Some (errConfigDurationIsTooShort "upstream.max_retry_interval")
  else if is_empty (ConfigDownstream.ListenAddr d) then Some (errConfigFieldIsEmpty "downstream.listen_addr")
  else if is_empty (ConfigDownstream.ApiPath d) then Some (errConfigFieldIsEmpty "downstream.api_path")
  else if is_empty (ConfigDownstream.FilePath d) then Some (errConfigFieldIsEmpty "downstream.file_path")
  else if is_empty (ConfigDownstream.AuthToken d) then Some (errConfigFieldIsEmpty "downstream.auth_token")
  else None.

(** The loop [for i := range prefix { prefix[i], err = url.PathUnescape(prefix[i]) ... }]:
    the segments unescaped, or nothing at the first one that fails. *)
Fixpoint unescapeAll `{Codec} (segments : list string) : option (list string) :=
  match segments with
  | [] => Some []
  | x :: rest =>
      match PathUnescape x with
      | None => None
      | Some y =>
          match unescapeAll rest with
          | None => None
          | Some ys => Some (y :: ys)
          end
      end
  end.

(** "Split prefixes": parse, split the escaped path at the slashes,
    unescape every segment. *)
Definition splitPrefix `{Codec} (field path : string) : error + list string :=
  match ParseRequestURI path with
  | None => inl (errConfigFieldIsInvalid field)
  | Some escaped =>
      match unescapeAll (Split escaped) with
      | None => inl (errConfigFieldIsInvalid field)
      | Some segments => inr segments
      end
  end.

(** "Join prefixes", "Convert FilterUpdateTypes to string" and "Split
    prefixes": the derived fields of a configuration that passed the
    checks. *)
Definition derive `{Codec} (conf : Config.t) : error + Config.t :=
  let u := Config.Upstream conf in
  let d := Config.Downstream conf in
  let apiPrefix := ConfigUpstream.ApiUrl u ++ PathEscape (ConfigUpstream.AuthToken u) in
  let filePrefix := ConfigUpstream.FileUrl u ++ PathEscape (ConfigUpstream.AuthToken u) in
  match Marshal (ConfigUpstream.FilterUpdateTypes u) with
  | None => inl (errConfigFieldIsInvalid "upstream.filter_update_types")
  | Some buf =>
      match splitPrefix "downstream.api_path" (ConfigDownstream.ApiPath d) with
      | inl e => inl e
      | inr apiSegments =>
          match splitPrefix "downstream.file_path" (ConfigDownstream.FilePath d) with
          | inl e => inl e
          | inr fileSegments =>
              inr (Config.mk
                     (Config.DB conf)
                     (ConfigUpstream.mk
                        (ConfigUpstream.ApiUrl u) (ConfigUpstream.FileUrl u)
                        (ConfigUpstream.AuthToken u)
                        (ConfigUpstream.PollingTimeout u)
                        (ConfigUpstream.MaxRetryInterval u)
                        (ConfigUpstream.FilterUpdateTypes u)
                        apiPrefix filePrefix (QueryEscape buf))
                     (ConfigDownstream.mk
                        (ConfigDownstream.ListenAddr d) (ConfigDownstream.ApiPath d)
                        (ConfigDownstream.FilePath d) (ConfigDownstream.AuthToken d)
                        apiSegments fileSegments))
          end
      end
  end.

Definition Load `{Codec} (file : ConfigFile) : error + Config.t :=
  match file with
  | Unreadable => inl errLoadConfigFile
  | Malformed => inl errLoadConfigFile
  | Document doc =>
      let conf := Decode doc defaultConfig in
      match checkConfig conf with
      | Some e => inl e
      | None => derive conf
      end
  end.

(* ===================================================================== *)
(** ** client.go: the state and the outside world *)
(* ===================================================================== *)

Definition UserAgent : string :=
  "Mozilla/5.0 Telegram-bot-muxer/1.0 (+https://github.com/m13253/telegram-bot-muxer)".

(** The fields of [Client] that are assigned after [NewClient].  The two
    tables [typesNeedCaching] and [echoProcessor] are filled once by
    [NewClient] and only read afterwards; they are the constants below. *)
Record Client : Type := mkClient {
  conf : Config.t;
  nextRetryInterval : time.Duration;
  globalCooldown : time.Time;
  chatCooldown : gmap Z time.Time;           (* map[int64]time.Time *)
}.

Definition typesNeedCaching : gset string :=
  list_to_set
    ["message"; "edited_message"; "channel_post"; "edited_channel_post";
     "business_message"; "edited_business_message"].

Inductive EchoProcessor : Set :=
| EchoMessage          (* c.processEchoMessage *)
| EchoMessageEdit      (* c.processEchoMessageEdit *)
| EchoMessageArray.    (* c.processEchoMessageArray *)

Definition echoProcessor : gmap string EchoProcessor :=
  list_to_map
    [("sendMessage", EchoMessage);
     ("forwardMessage", EchoMessage);
     ("copyMessage", EchoMessage);
     ("sendPhoto", EchoMessage);
     ("sendAudio", EchoMessage);
     ("sendDocument", EchoMessage);
     ("sendVideo", EchoMessage);
     ("sendAnimation", EchoMessage);
     ("sendVoice", EchoMessage);
     ("sendVideoNote", EchoMessage);
     ("sendPaidMedia", EchoMessage);
     ("sendMediaGroup", EchoMessageArray);
     ("sendLocation", EchoMessage);
     ("sendVenue", EchoMessage);
     ("sendContact", EchoMessage);
     ("sendPoll", EchoMessage);
     ("sendDice", EchoMessage);
     ("editMessageText", EchoMessageEdit);
     ("editMessageCaption", EchoMessageEdit);
     ("editMessageMedia", EchoMessageEdit);
     ("editMessageLiveLocation", EchoMessageEdit);
     ("stopMessageLiveLocation", EchoMessageEdit);
     ("editMessageReplyMarkup", EchoMessageEdit)].

(** The lines the code writes with [log.Println]. *)
Inductive LogLine : Type :=
| LogRequest (method url : string)
| LogUpstreamHTTPRequestError                   (* "Upstream HTTP request error:" *)
| LogUpstreamServerReturnedError (status : Z)   (* "Upstream server returned error:" *)
| LogHTTPReadError                              (* "HTTP read error:" *)
| LogUpstreamError (errorCode errorDesc : gjson.Result)   (* "Upstream error:" *)
| LogFailedToStoreUpdates (err : error)         (* "Failed to store updates:" *)
| LogHTTPError.                                 (* debug.PrintStack(); "HTTP error:" *)

Definition Header := list (string * list string).

(** What the code does to the outside, in program order. *)
Inductive Event : Type :=
| Log (line : LogLine)
| Sleep (d : time.Duration)                      (* time.Sleep(d), or the timer of time.After(d) firing *)
| Do (at_ : time.Time) (method url : string) (header : Header)   (* http.DefaultClient.Do(req) *)
| BeginTx (err : option error)                   (* c.db.BeginTx() *)
| InsertMessage (message : gjson.Result) (err : option error)
| InsertUpdate (upstreamID : Z) (updateType : string) (raw : gjson.Result) (err : option error)
| InsertLocalUpdate (updateType : string) (raw : gjson.Result) (err : option error)
| Commit (err : option error)
| NotifyUpdates                                  (* c.db.NotifyUpdates() *)
| WriteHeader (status : Z) (header : Header)     (* w.WriteHeader, with the headers set before it *)
| Copy (err : bool).                             (* io.Copy(w, ...) *)

(** The outside world: the clock, how the storage calls still to come will
    end ([true]: the call returns a storage failure; past the end of the
    list every call succeeds), and the trace so far. *)
Record World : Type := mkWorld {
  now : time.Time;
  faults : list bool;
  trace : list Event;
}.

Record State : Type := mkState {
  client : Client;
  world : World;
}.

(** *** The state monad of the embedding *)

Definition M (A : Type) : Type := State -> A * State.

Definition ret {A} (a : A) : M A := fun s => (a, s).

Definition bind {A B} (m : M A) (k : A -> M B) : M B :=
  fun s => let '(a, s') := m s in k a s'.

Notation "x <- m ;; k" := (bind m (fun x => k))
  (at level 100, m at next level, right associativity).
Notation "m ;; k" := (bind m (fun _ => k))
  (at level 100, right associativity).

Definition getClient : M Client := fun s => (client s, s).

Definition putClient (c : Client) : M unit :=
  fun s => (tt, mkState c (world s)).

Definition emit (e : Event) : M unit :=
  fun s =>
    let w := world s in
    (tt, mkState (client s) (mkWorld (now w) (faults w) (trace w ++ [e]))).

Definition log_Println (line : LogLine) : M unit := emit (Log line).

(** [time.Now()] *)
Definition time_Now : M time.Time := fun s => (now (world s), s).

(** The caller is suspended for [d]; a duration that is not positive
    returns at once. *)
Definition time_Sleep (d : time.Duration) : M unit :=
  fun s =>
    let w := world s in
    (tt, mkState (client s)
           (mkWorld (now w + Z.max d 0) (faults w) (trace w ++ [Sleep d]))).

(** A call into the [Database]: its outcome is the next entry of [faults]. *)
Definition storage (record : option error -> Event) : M (option error) :=
  fun s =>
    let w := world s in
    let err := match faults w with
               | true :: _ => Some StorageFailure
               | _ => None
               end in
    (err, mkState (client s) (mkWorld (now w) (tail (faults w)) (trace w ++ [record err]))).

Module Database.
Definition BeginTx : M (option error) := storage BeginTx.
Definition NotifyUpdates : M unit := emit NotifyUpdates.
End Database.

Module Tx.
Definition InsertMessage (message : gjson.Result) : M (option error) :=
    storage (InsertMessage message).
Definition InsertUpdate (upstreamID : Z) (updateType : string) (raw : gjson.Result)
    : M (option error) :=
    storage (InsertUpdate upstreamID updateType raw).
Definition InsertLocalUpdate (updateType : string) (raw : gjson.Result)
    : M (option error) :=
    storage (InsertLocalUpdate updateType raw).
Definition Commit : M (option error) := storage Commit.
End Tx.

(** [ForEach] with the variables the iterator captures and assigns threaded
    through: the iterator returns their new values and its [bool]. *)
Fixpoint iterate {V : Type} (iterator : gjson.Key -> json -> V -> M (V * bool))
    (l : list (gjson.Key * json)) (vars : V) : M V :=
  match l with
  | [] => ret vars
  | (key, value) :: rest =>
      r <- iterator key value vars ;;
      if snd r then iterate iterator rest (fst r) else ret (fst r)
  end.

Definition ForEach {V : Type} (r : gjson.Result)
    (iterator : gjson.Key -> json -> V -> M (V * bool)) (vars : V) : M V :=
  iterate iterator (gjson.entries r) vars.

(** *** NewClient *)

Definition NewClient (conf : Config.t) (now : time.Time) : Client :=
  mkClient conf time.Second now ∅.

(** *** The retry controller *)

Definition sleepUntilRetry : M unit :=
  c <- getClient ;;
  time_Sleep (nextRetryInterval c) ;;
  putClient
    (mkClient (conf c)
       (Z.min (time.mul (nextRetryInterval c) 2)
          (time.mul
             (time.Duration_of_uint64
                (ConfigUpstream.MaxRetryInterval (Config.Upstream (conf c))))
             time.Second))
       (globalCooldown c) (chatCooldown c)).

Definition resetRetry : M unit :=
  c <- getClient ;;
  putClient (mkClient (conf c) time.Second (globalCooldown c) (chatCooldown c)).

(** *** The rate governor *)

(** [message.Get("chat.type").String() == "private"]: only a JSON string
    reads as the text [private]. *)
Definition chatTypeIsPrivate (message : gjson.Result) : bool :=
  match gjson.Get ["chat"; "type"] message with
  | Some (JString chatType) => String.eqb chatType "private"
  | _ => false
  end.

Definition updateRateLimit (message : gjson.Result) : M unit :=
  now <- time_Now ;;
  c <- getClient ;;
  let globalCooldown' := time.Add now (time.Second / 30 + 1) in
  putClient (mkClient (conf c) (nextRetryInterval c) globalCooldown' (chatCooldown c)) ;;
  let chatID := gjson.Int (gjson.Get ["chat"; "id"] message) in
  if chatID =? 0 then ret tt
  else if chatTypeIsPrivate message then
    putClient (mkClient (conf c) (nextRetryInterval c) globalCooldown'
                 (<[chatID := time.Add now time.Second]> (chatCooldown c)))
  else
    putClient (mkClient (conf c) (nextRetryInterval c) globalCooldown'
                 (<[chatID := time.Add now (3 * time.Second)]> (chatCooldown c))).

(** *** The echo processors *)

(** A response body is carried as the document [gjson.ParseBytes] reads
    from it. *)
Definition Body := gjson.Result.

(** The opening of the three processors: a body whose [ok] is not [true]
    is logged. *)
Definition logUpstreamError (bodyJson : gjson.Result) : M unit :=
  let errorCode := gjson.Get ["error_code"] bodyJson in
  let errorDesc := gjson.Get ["description"] bodyJson in
  log_Println (LogUpstreamError errorCode errorDesc).

(** [if err != nil { log.Println("Failed to store updates:", err) }] *)
Definition logIfFailed (err : option error) : M unit :=
  match err with
  | Some e => log_Println (LogFailedToStoreUpdates e)
  | None => ret tt
  end.

Definition processEchoMessage (body : Body) : M unit :=
  let bodyJson := body in
  if negb (gjson.is_True (gjson.Get ["ok"] bodyJson)) then
    logUpstreamError bodyJson
  else
    let message := gjson.Get ["result"] bodyJson in
    updateRateLimit message ;;
    err <- Database.BeginTx ;;
    logIfFailed err ;;
    err <- Tx.InsertMessage message ;;
    logIfFailed err ;;
    err <- Tx.InsertLocalUpdate "message" message ;;
    logIfFailed err ;;
    err <- Tx.Commit ;;
    logIfFailed err ;;
    Database.NotifyUpdates.

Definition processEchoMessageEdit (body : Body) : M unit :=
  let bodyJson := body in
  if negb (gjson.is_True (gjson.Get ["ok"] bodyJson)) then
    logUpstreamError bodyJson
  else
    let message := gjson.Get ["result"] bodyJson in
    if gjson.is_True message then ret tt
    else
      err <- Database.BeginTx ;;
      logIfFailed err ;;
      err <- Tx.InsertMessage message ;;
      logIfFailed err ;;
      err <- Tx.InsertLocalUpdate "edited_message" message ;;
      logIfFailed err ;;
      err <- Tx.Commit ;;
      logIfFailed err ;;
      Database.NotifyUpdates.

(** The iterator of [processEchoMessageArray]; it captures nothing that it
    assigns (its [err] is its own) and always returns [true]. *)
Definition echoArrayItem (_ : gjson.Key) (message : json) (_ : unit) : M (unit * bool) :=
  updateRateLimit (Some message) ;;
  err <- Tx.InsertMessage (Some message) ;;
  logIfFailed err ;;
  err <- Tx.InsertLocalUpdate "message" (Some message) ;;
  logIfFailed err ;;
  ret (tt, true).

Definition processEchoMessageArray (body : Body) : M unit :=
  let bodyJson := body in
  if negb (gjson.is_True (gjson.Get ["ok"] bodyJson)) then
    logUpstreamError bodyJson
  else
    err <- Database.BeginTx ;;
    logIfFailed err ;;
    ForEach (gjson.Get ["result"] bodyJson) echoArrayItem tt ;;
    err <- Tx.Commit ;;
    logIfFailed err ;;
    Database.NotifyUpdates.

Definition runEcho (p : EchoProcessor) : Body -> M unit :=
  match p with
  | EchoMessage => processEchoMessage
  | EchoMessageEdit => processEchoMessageEdit
  | EchoMessageArray => processEchoMessageArray
  end.

(** *** StartPolling *)

(** What the upstream makes of one [getUpdates] request. *)
Inductive Reply : Type :=
| RequestNotBuilt                 (* http.NewRequestWithContext returns an error *)
| NoResponse                      (* http.DefaultClient.Do returns an error *)
| Response (StatusCode : Z) (body : option Body).   (* [None]: io.ReadAll fails *)

Definition getUpdatesURL (conf : Config.t) (offset : Z) : string :=
  let u := Config.Upstream conf in
  if offset =? 0 then
    ConfigUpstream.ApiPrefix u ++ "/getUpdates?timeout="
      ++ pretty (ConfigUpstream.PollingTimeout u)
      ++ "&allowed_updates=" ++ ConfigUpstream.FilterUpdateTypesStr u
  else
    ConfigUpstream.ApiPrefix u ++ "/getUpdates?offset=" ++ pretty offset
      ++ "&timeout=" ++ pretty (ConfigUpstream.PollingTimeout u)
      ++ "&allowed_updates=" ++ ConfigUpstream.FilterUpdateTypesStr u.

Definition is_nil (err : option error) : bool :=
  match err with None => true | Some _ => false end.

(** The inner iterator (over the members of one update).  It captures and
    assigns [err]. *)
Definition storeMember (upstreamID : Z) (updateType : gjson.Key) (updateValue : json)
    (err : option error) : M (option error * bool) :=
  if String.eqb (gjson.Str updateType) "update_id" then ret (err, true)
  else if bool_decide (gjson.Str updateType ∈ typesNeedCaching) then
    err <- Tx.InsertMessage (Some updateValue) ;;
    if negb (is_nil err) then ret (err, false)
    else
      err <- Tx.InsertUpdate upstreamID (gjson.String updateType) (Some updateValue) ;;
      ret (err, is_nil err)
  else
    err <- Tx.InsertUpdate upstreamID (gjson.String updateType) (Some updateValue) ;;
    ret (err, is_nil err).

(** The outer iterator (over the elements of [result]).  It captures and
    assigns [offset] and [err]. *)
Definition storeUpdate (_ : gjson.Key) (update : json) (vars : Z * option error)
    : M ((Z * option error) * bool) :=
  let upstreamID := gjson.Uint (gjson.Get ["update_id"] (Some update)) in
  let offset := Z.max (fst vars) (wrap_u64 (upstreamID + 1)) in
  err <- ForEach (Some update) (storeMember upstreamID) (snd vars) ;;
  ret ((offset, err), is_nil err).

(** How one turn of the [for] loop ends. *)
Inductive Flow : Type :=
| Continue (offset : Z)           (* next turn, with this value of [offset] *)
| Return (err : error).           (* [StartPolling] returns *)

(** Lines 137-176 of [StartPolling]: the transaction that stores the
    updates of a body whose [ok] is [true], up to the end of the turn. *)
Definition storeUpdates (offset : Z) (bodyJson : gjson.Result) : M Flow :=
  err <- Database.BeginTx ;;
  match err with
  | Some e =>
      log_Println (LogFailedToStoreUpdates e) ;;
      sleepUntilRetry ;;
      ret (Continue offset)
  | None =>
      vars <- ForEach (gjson.Get ["result"] bodyJson) storeUpdate (offset, err) ;;
      let offset := fst vars in
      match snd vars with
      | Some e =>
          Tx.Commit ;;
          Database.NotifyUpdates ;;
          log_Println (LogFailedToStoreUpdates e) ;;
          sleepUntilRetry ;;
          ret (Continue offset)
      | None =>
          err <- Tx.Commit ;;
          Database.NotifyUpdates ;;
          match err with
          | Some e =>
              log_Println (LogFailedToStoreUpdates e) ;;
              sleepUntilRetry ;;
              ret (Continue offset)
          | None =>
              resetRetry ;;
              ret (Continue offset)
          end
      end
  end.

(** One turn of the loop of [StartPolling]. *)
Definition poll (offset : Z) (reply : Reply) : M Flow :=
  c <- getClient ;;
  let requestURL := getUpdatesURL (conf c) offset in
  log_Println (LogRequest "GET" requestURL) ;;
  match reply with
  | RequestNotBuilt => ret (Return errSendRequest)
  | NoResponse =>
      t <- time_Now ;;
      emit (Do t "GET" requestURL [("User-Agent", [UserAgent])]) ;;
      log_Println LogUpstreamHTTPRequestError ;;
      sleepUntilRetry ;;
      ret (Continue offset)
  | Response StatusCode body =>
      t <- time_Now ;;
      emit (Do t "GET" requestURL [("User-Agent", [UserAgent])]) ;;
      let requestSucceed := (200 <=? StatusCode) && (StatusCode <? 300) in
      let failureIsFatal := (400 <=? StatusCode) && (StatusCode <? 500) in
      (if negb requestSucceed
       then log_Println (LogUpstreamServerReturnedError StatusCode)
       else ret tt) ;;
      if failureIsFatal then ret (Return (errHTTPStatus StatusCode))
      else if negb requestSucceed then
        sleepUntilRetry ;; ret (Continue offset)
      else
        match body with
        | None =>
            log_Println LogHTTPReadError ;;
            sleepUntilRetry ;;
            ret (Continue offset)
        | Some bodyJson =>
            if negb (gjson.is_True (gjson.Get ["ok"] bodyJson)) then
              logUpstreamError bodyJson ;;
              sleepUntilRetry ;;
              ret (Continue offset)
            else storeUpdates offset bodyJson
        end
  end.

(** The loop, over the replies the upstream gives to the successive
    requests.  [inr e]: [StartPolling] returned [e]; [inl offset]: the
    replies are used up and the loop is about to send the next request
    with this [offset]. *)
Fixpoint polling (offset : Z) (replies : list Reply) : M (Z + error) :=
  match replies with
  | [] => ret (inl offset)
  | reply :: rest =>
      flow <- poll offset reply ;;
      match flow with
      | Continue offset' => polling offset' rest
      | Return err => ret (inr err)
      end
  end.

Definition StartPolling (replies : list Reply) : M (Z + error) :=
  polling 0 replies.

(** *** ForwardRequest *)

(** The downstream request, as far as [ForwardRequest] reads it. *)
Record Request : Type := mkRequest {
  Method : string;
  RawQuery : string;                 (* r.URL.RawQuery *)
  FormValue_chat_id : string;        (* r.FormValue("chat_id") *)
  RequestHeader : Header;            (* r.Header *)
}.

(** The upstream response: [resp.StatusCode], [resp.Header], [resp.Body]. *)
Record UpstreamResponse : Type := mkUpstreamResponse {
  StatusCode : Z;
  ResponseHeader : Header;
  ResponseBody : Body;
}.

(** What the outside does during one forwarded request. *)
Record Exchange : Type := mkExchange {
  ctxDone : bool;                    (* [<-ctx.Done()] is taken by the [select] *)
  requestBuilt : bool;               (* http.NewRequestWithContext succeeds *)
  response : option UpstreamResponse;   (* [None]: http.DefaultClient.Do returns an error *)
  copyFails : bool;                  (* io.Copy returns an error *)
}.

Definition member_of (k : string) (l : list string) : bool :=
  existsb (String.eqb k) l.

Definition requestHeader (h : Header) : Header :=
  (List.filter (fun kv => negb (member_of (fst kv)
            ["Accept-Encoding"; "Content-Encoding"; "Connection"; "Host";
             "Proxy-Connection"; "User-Agent"])) h
   ++ [("User-Agent", [UserAgent])])%list.

Definition responseHeader (h : Header) : Header :=
  List.filter (fun kv => negb (member_of (fst kv)
            ["Accept-Encoding"; "Content-Encoding"; "Connection";
             "Proxy-Connection"])) h.

(** The cooldown read under the read lock (lines 192-197). *)
Definition cooldownFor (c : Client) (chatID : Z) : time.Time :=
  let cooldown := globalCooldown c in
  match chatCooldown c !! chatID with
  | Some cd => if time.After cd cooldown then cd else cooldown
  | None => cooldown
  end.

(** Lines 189-207: the wait on the rate governor.  The result tells
    whether the function returns [context.Canceled]. *)
Definition rateWait (r : Request) (isFile : bool) (x : Exchange) : M bool :=
  if negb isFile then
    let chatID := fst (strconv.ParseInt (FormValue_chat_id r)) in
    if negb (chatID =? 0) then
      c <- getClient ;;
      let cooldown := cooldownFor c chatID in
      t <- time_Now ;;
      let sleep := time.Sub cooldown t in      (* time.Until(cooldown) *)
      if 0 <? sleep then
        if ctxDone x then ret true
        else time_Sleep sleep ;; ret false
      else ret false
    else ret false
  else ret false.

(** The two ways the body is streamed to the downstream writer. *)
Definition copyThrough (x : Exchange) : M (option error) :=
  emit (Copy (copyFails x)) ;;
  (if copyFails x then log_Println LogHTTPError else ret tt) ;;
  ret None.

Definition copyAndEcho (p : EchoProcessor) (resp : UpstreamResponse) (x : Exchange)
    : M (option error) :=
  emit (Copy (copyFails x)) ;;
  if copyFails x then
    log_Println LogHTTPError ;;
    ret None
  else
    runEcho p (ResponseBody resp) ;;
    ret None.

Definition ForwardRequest (r : Request) (prefix suffix : string) (isFile : bool)
    (x : Exchange) : M (option error) :=
  let requestURL :=
    if is_empty (RawQuery r) then prefix ++ "/" ++ suffix
    else prefix ++ "/" ++ suffix ++ "?" ++ RawQuery r in
  log_Println (LogRequest (Method r) requestURL) ;;
  cancelled <- rateWait r isFile x ;;
  if cancelled then ret (Some Canceled)
  else if negb (requestBuilt x) then ret (Some errSendRequest)
  else
    t <- time_Now ;;
    emit (Do t (Method r) requestURL (requestHeader (RequestHeader r))) ;;
    match response x with
    | None => ret (Some errUpstreamRequest)
    | Some resp =>
        emit (WriteHeader (StatusCode resp) (responseHeader (ResponseHeader resp))) ;;
        let echo := if negb isFile then echoProcessor !! suffix else None in
        match echo with
        | None => copyThrough x
        | Some p =>
            if (StatusCode resp <? 200) || (300 <=? StatusCode resp)
            then copyThrough x
            else copyAndEcho p resp x
        end
    end.

(* ===================================================================== *)
(** ** Vocabulary of the statements *)
(* ===================================================================== *)

(** [n] successive calls of [sleepUntilRetry]. *)
Fixpoint sleepUntilRetryTimes (n : nat) : M unit :=
  match n with
  | O => ret tt
  | S n' => sleepUntilRetry ;; sleepUntilRetryTimes n'
  end.

(** The log line that follows a storage call in the echo processors. *)
Definition failureLine (err : option error) : list Event :=
  match err with
  | Some e => [Log (LogFailedToStoreUpdates e)]
  | None => []
  end.

(** The outcome of the [i]-th storage call to come. *)
Definition outcome (fl : list bool) (i : nat) : option error :=
  if nth i fl false then Some StorageFailure else None.

(** The events of the transaction of [processEchoMessage] and
    [processEchoMessageEdit] when the storage calls to come end as [fl]
    says: the four calls in order, each followed by its log line when it
    failed, then the notification. *)
Definition echoTransaction (fl : list bool) (updateType : string)
    (message : gjson.Result) : list Event :=
  (BeginTx (outcome fl 0) :: failureLine (outcome fl 0) ++
   InsertMessage message (outcome fl 1) :: failureLine (outcome fl 1) ++
   InsertLocalUpdate updateType message (outcome fl 2) :: failureLine (outcome fl 2) ++
   Commit (outcome fl 3) :: failureLine (outcome fl 3) ++
   [NotifyUpdates])%list.

(** The error a storage call ended with, for the events that are storage
    calls. *)
Definition storageError (e : Event) : option error :=
  match e with
  | BeginTx err | InsertMessage _ err | InsertUpdate _ _ _ err
  | InsertLocalUpdate _ _ err | Commit err => err
  | _ => None
  end.

Definition isStorageCall (e : Event) : bool :=
  match e with
  | BeginTx _ | InsertMessage _ _ | InsertUpdate _ _ _ _
  | InsertLocalUpdate _ _ _ | Commit _ => true
  | _ => false
  end.

Definition isInsert (e : Event) : bool :=
  match e with
  | InsertMessage _ _ | InsertUpdate _ _ _ _ => true
  | _ => false
  end.

Definition isNotify (e : Event) : bool :=
  match e with NotifyUpdates => true | _ => false end.

Definition isFailure (e : Event) : bool := negb (is_nil (storageError e)).

(** Every failed storage call is immediately followed by its
    "Failed to store updates:" line. *)
Fixpoint failuresLogged (evs : list Event) : bool :=
  match evs with
  | [] => true
  | e :: rest =>
      match storageError e with
      | None => failuresLogged rest
      | Some _ =>
          match rest with
          | Log (LogFailedToStoreUpdates _) :: _ => failuresLogged rest
          | _ => false
          end
      end
  end.

(** The elements of [result] that the Ingestor iterates over. *)
Definition updatesOf (bodyJson : gjson.Result) : list json :=
  map snd (gjson.entries (gjson.Get ["result"] bodyJson)).

Definition upstreamIDOf (update : json) : Z :=
  gjson.Uint (gjson.Get ["update_id"] (Some update)).

(** [offset] after the updates in [updates] have been visited. *)
Definition offsetAfter (offset : Z) (updates : list json) : Z :=
  fold_left (fun o update => Z.max o (wrap_u64 (upstreamIDOf update + 1))) updates offset.

(** The number of storage calls one update makes when none fails. *)
Definition callsOfMember (kv : gjson.Key * json) : nat :=
  if String.eqb (gjson.Str (fst kv)) "update_id" then 0%nat
  else if bool_decide (gjson.Str (fst kv) ∈ typesNeedCaching) then 2%nat
  else 1%nat.

Definition callsOfUpdate (update : json) : nat :=
  list_sum (map callsOfMember (gjson.entries (Some update))).

Definition callsOfBatch (updates : list json) : nat :=
  list_sum (map callsOfUpdate updates).

(** The storage calls one member of an update makes when none fails. *)
Definition rowsOfMember (upstreamID : Z) (kv : gjson.Key * json) : list Event :=
  if String.eqb (gjson.Str (fst kv)) "update_id" then []
  else if bool_decide (gjson.Str (fst kv) ∈ typesNeedCaching) then
    [InsertMessage (Some (snd kv)) None;
     InsertUpdate upstreamID (gjson.String (fst kv)) (Some (snd kv)) None]
  else [InsertUpdate upstreamID (gjson.String (fst kv)) (Some (snd kv)) None].

Definition rowsOfUpdate (update : json) : list Event :=
  flat_map (rowsOfMember (upstreamIDOf update)) (gjson.entries (Some update)).

(** A row of the batch: an insert that has not failed. *)
Definition isRow (e : Event) : bool := isInsert e && is_nil (storageError e).

(** The insert [row], ended with [err]. *)
Definition withOutcome (err : option error) (row : Event) : Event :=
  match row with
  | InsertMessage message _ => InsertMessage message err
  | InsertUpdate upstreamID updateType raw _ => InsertUpdate upstreamID updateType raw err
  | _ => row
  end.

(** The inserts the storing loop makes for [rows] when the storage calls
    to come end as [fl] says: the rows in order, up to and including the
    first one that fails. *)
Fixpoint attempted (fl : list bool) (rows : list Event) : list Event :=
  match rows with
  | [] => []
  | row :: rest =>
      match fl with
      | true :: _ => [withOutcome (Some StorageFailure) row]
      | _ => row :: attempted (tail fl) rest
      end
  end.

(** The value [sleepUntilRetry] leaves in [nextRetryInterval]. *)
Definition nextInterval (c : Client) : time.Duration :=
  Z.min (time.mul (nextRetryInterval c) 2)
    (time.mul
       (time.Duration_of_uint64
          (ConfigUpstream.MaxRetryInterval (Config.Upstream (conf c))))
       time.Second).

(** "Logged backoff-and-retry": the turn logs [line], sleeps the current
    interval, stretches it, and leaves [offset] as it was. *)
Definition backsOff (s : State) (line : LogLine) (offset : Z) (r : Flow * State) : Prop :=
  fst r = Continue offset /\
  (exists pre,
     trace (world (snd r)) =
       (trace (world s) ++ pre ++
          [Log line; Sleep (nextRetryInterval (client s))])%list /\
     forallb (fun e => negb (isStorageCall e)) pre = true) /\
  nextRetryInterval (client (snd r)) = nextInterval (client s).

(** The interval of the [k]-th retry after a reset, in nanoseconds, for a
    cap of [maxRetry] seconds. *)
Definition interval (maxRetry : Z) (k : nat) : time.Duration :=
  Z.min (2 ^ Z.of_nat k) maxRetry * time.Second.

(** The fields [Load] checks, in the order in which it checks them, each
    with the outcome of its check ([true]: the check fails). *)
Definition checkedFields (conf : Config.t) : list (string * bool) :=
  let u := Config.Upstream conf in
  let d := Config.Downstream conf in
  [("db", is_empty (Config.DB conf));
   ("upstream.api_url", is_empty (ConfigUpstream.ApiUrl u));
   ("upstream.file_url", is_empty (ConfigUpstream.FileUrl u));
   ("upstream.auth_token", is_empty (ConfigUpstream.AuthToken u));
   ("upstream.polling_timeout", ConfigUpstream.PollingTimeout u <? 10);
   ("upstream.max_retry_interval", ConfigUpstream.MaxRetryInterval u <? 60);
   ("downstream.listen_addr", is_empty (ConfigDownstream.ListenAddr d));
   ("downstream.api_path", is_empty (ConfigDownstream.ApiPath d));
   ("downstream.file_path", is_empty (ConfigDownstream.FilePath d));
   ("downstream.auth_token", is_empty (ConfigDownstream.AuthToken d))].

Definition isDuration (field : string) : bool :=
  String.eqb field "upstream.polling_timeout"
  || String.eqb field "upstream.max_retry_interval".

(** [field] fails its check and no field checked before it does. *)
Definition firstFailure (checks : list (string * bool)) (field : string) : Prop :=
  exists pre post,
    checks = (pre ++ (field, true) :: post)%list /\
    Forall (fun c => snd c = false) pre.

Fixpoint firstFailing (checks : list (string * bool)) : option string :=
  match checks with
  | [] => None
  | (field, fails) :: rest => if fails then Some field else firstFailing rest
  end.

Definition validationError (field : string) : error :=
  if isDuration field then errConfigDurationIsTooShort field
  else errConfigFieldIsEmpty field.

(** A document that sets [db] to the empty string and the polling timeout
    to 5 seconds. *)
Definition emptyDbShortTimeoutDoc : TomlDoc :=
  mkTomlDoc (Some "") None None (Some "TOKEN") (Some 5) None None
    (Some ":8080") None None (Some "SECRET").

(** A message whose chat identifier is the number 0. *)
Definition zeroChatMessage : json :=
  JObject [("message_id", JNumber 5);
           ("chat", JObject [("id", JNumber 0); ("type", JString "private")])].

(** A computation only ever adds events at the end of the trace. *)
Definition appends {A : Type} (m : M A) : Prop :=
  forall s, exists evs, trace (world (snd (m s))) = (trace (world s) ++ evs)%list.

(** The URL [ForwardRequest] sends the request to. *)
Definition forwardURL (r : Request) (prefix suffix : string) : string :=
  if is_empty (RawQuery r) then prefix ++ "/" ++ suffix
  else prefix ++ "/" ++ suffix ++ "?" ++ RawQuery r.

(** [s] with the events [evs] added to its trace. *)
Definition withEvents (s : State) (evs : list Event) : State :=
  mkState (client s)
    (mkWorld (now (world s)) (faults (world s)) (trace (world s) ++ evs)).

(** What [ForwardRequest] does once the upstream request is sent: the
    lines from [resp, err := http.DefaultClient.Do(req)] on. *)
Definition respond (suffix : string) (isFile : bool) (x : Exchange) (s : State)
    : option error * State :=
  match response x with
  | None => (Some errUpstreamRequest, s)
  | Some resp =>
      let s' := withEvents s
                  [WriteHeader (StatusCode resp)
                     (responseHeader (ResponseHeader resp))] in
      match (if negb isFile then echoProcessor !! suffix else None) with
      | None => copyThrough x s'
      | Some p =>
          if (StatusCode resp <? 200) || (300 <=? StatusCode resp)
          then copyThrough x s'
          else copyAndEcho p resp x s'
      end
  end.

(** An event that is neither a storage call nor a notification. *)
Definition quiet (e : Event) : bool := negb (isStorageCall e || isNotify e).

(** The state after the events [evs] and a call of [sleepUntilRetry]. *)
Definition backoff (s : State) (evs : list Event) : State :=
  snd (sleepUntilRetry (withEvents s evs)).

(** A computation of the storing loop: it leaves the client and the clock
    alone, its events are inserts, and when it ends without error none of
    them failed. *)
Definition inserts {V : Type} (errOf : V -> option error) (m : M V) : Prop :=
  forall s, exists evs,
    client (snd (m s)) = client s /\
    now (world (snd (m s))) = now (world s) /\
    trace (world (snd (m s))) = (trace (world s) ++ evs)%list /\
    forallb isInsert evs = true /\
    (errOf (fst (m s)) = None -> existsb isFailure evs = false) /\
    (errOf (fst (m s)) <> None -> errOf (fst (m s)) = Some StorageFailure).

(** The URLs of the requests sent, in order. *)
Definition requestsOf (evs : list Event) : list string :=
  omap (fun e => match e with Do _ _ url _ => Some url | _ => None end) evs.

(** *** Sample data *)

Definition sampleConfig : Config.t :=
  Config.mk "tbmux.db"
    (ConfigUpstream.mk
       "https://api.telegram.org/bot" "https://api.telegram.org/file/bot" "TOKEN"
       60 600 []
       "https://api.telegram.org/botTOKEN" "https://api.telegram.org/file/botTOKEN"
       "%5B%5D")
    (ConfigDownstream.mk ":8080" "/bot" "/file/bot" "SECRET"
       [""; "bot"] [""; "file"; "bot"]).

(** A client built at instant 1000, in a world whose storage calls end as
    [fl] says. *)
Definition sampleState (fl : list bool) : State :=
  mkState (NewClient sampleConfig 1000) (mkWorld 1000 fl []).

Definition sampleMessage : json :=
  JObject [("message_id", JNumber 5);
           ("chat", JObject [("id", JNumber 100); ("type", JString "private")]);
           ("text", JString "hi")].

Definition sampleUpdate40 : json :=
  JObject [("update_id", JNumber 40); ("message", sampleMessage)].

Definition sampleUpdate41 : json :=
  JObject [("update_id", JNumber 41);
           ("callback_query", JObject [("id", JString "q")])].

Definition okBody (result : json) : Body :=
  Some (JObject [("ok", JTrue); ("result", result)]).

(** A [Codec] for the samples: nothing to escape, paths start with a
    slash. *)
Fixpoint splitSlash (acc s : string) : list string :=
  match s with
  | EmptyString => [acc]
  | String c rest =>
      if Ascii.eqb c "/"%char then acc :: splitSlash EmptyString rest
      else splitSlash (acc ++ String c EmptyString) rest
  end.

Definition quoted (s : string) : string :=
  String (ascii_of_nat 34) (s ++ String (ascii_of_nat 34) EmptyString).

#[local] Instance plainCodec : Codec := {|
  PathEscape := fun s => s;
  PathUnescape := fun s => Some s;
  QueryEscape := fun s => s;
  Marshal := fun l => Some ("[" ++ String.concat "," (map quoted l) ++ "]");
  ParseRequestURI := fun s =>
    match s with
    | String "/"%char _ => Some s
    | _ => None
    end;
  Split := splitSlash EmptyString;
|}.

(** The smallest document [Load] accepts: the three keys without default. *)
Definition minimalDoc : TomlDoc :=
  mkTomlDoc None None None (Some "TOKEN") None None None
    (Some ":8080") None None (Some "SECRET").

(** [minimalDoc] with a maximal retry interval of 9223372037 seconds. *)
Definition longRetryDoc : TomlDoc :=
  mkTomlDoc None None None (Some "TOKEN") None (Some 9223372037) None
    (Some ":8080") None None (Some "SECRET").

(** A client whose global cooldown ends at instant 5000, seen at instant
    1000. *)
Definition coolingState : State :=
  mkState (mkClient sampleConfig time.Second 5000 ∅) (mkWorld 1000 [] []).

Definition sampleRequest (chat_id : string) : Request :=
  mkRequest "POST" "" chat_id [("Content-Type", ["application/json"])].

Definition sampleExchange (body : Body) (copyFails : bool) : Exchange :=
  mkExchange false true (Some (mkUpstreamResponse 200 [] body)) copyFails.

(* ===================================================================== *)
(** ** Vocabulary of the further properties *)
(* ===================================================================== *)

(** The header names [ForwardRequest] does not copy to the upstream
    request, and those it does not copy to the downstream response. *)
Definition requestDenied : list string :=
  ["Accept-Encoding"; "Content-Encoding"; "Connection"; "Host";
   "Proxy-Connection"; "User-Agent"].

Definition responseDenied : list string :=
  ["Accept-Encoding"; "Content-Encoding"; "Connection"; "Proxy-Connection"].

(** An event on the downstream writer. *)
Definition isDownstream (e : Event) : bool :=
  match e with
  | WriteHeader _ _ | Copy _ => true
  | _ => false
  end.

(** The events of the iteration of [processEchoMessageArray] over
    [messages], when the first of its storage calls is the [i]-th to
    come. *)
Fixpoint echoItemsEvents (fl : list bool) (i : nat) (messages : list json)
    : list Event :=
  match messages with
  | [] => []
  | m :: rest =>
      (InsertMessage (Some m) (outcome fl i) :: failureLine (outcome fl i) ++
       InsertLocalUpdate "message" (Some m) (outcome fl (S i))
         :: failureLine (outcome fl (S i)) ++
       echoItemsEvents fl (S (S i)) rest)%list
  end.

(** A reply that makes [StartPolling] return. *)
Definition isFatal (reply : Reply) : bool :=
  match reply with
  | RequestNotBuilt => true
  | NoResponse => false
  | Response status _ => (400 <=? status) && (status <? 500)
  end.

(** The storing loop stops at the first storage call that fails: either
    it ends without error and no call failed, or it ends with an error and
    the call that failed is its last one. *)
Definition stopsAtFailure {V : Type} (errOf : V -> option error) (m : M V) : Prop :=
  forall s, exists evs,
    trace (world (snd (m s))) = (trace (world s) ++ evs)%list /\
    ((errOf (fst (m s)) = None /\ existsb isFailure evs = false) \/
     (errOf (fst (m s)) <> None /\
      exists good bad,
        evs = (good ++ [bad])%list /\
        existsb isFailure good = false /\ isFailure bad = true)).

(** The error [StartPolling] returns on a fatal reply. *)
Definition fatalError (reply : Reply) : error :=
  match reply with
  | Response status _ => errHTTPStatus status
  | _ => errSendRequest
  end.

(** A request for chat 100 and a group message, for the samples. *)
Definition sampleGroupMessage : json :=
  JObject [("message_id", JNumber 6);
           ("chat", JObject [("id", JNumber (-200)); ("type", JString "group")])].

(* ===================================================================== *)
(** ** Machine arithmetic *)
(* ===================================================================== *)

Lemma wrap_i64_id (z : Z) : - 2 ^ 63 <= z < 2 ^ 63 -> wrap_i64 z = z.
Proof.
  intros Hz. unfold wrap_i64.
  rewrite Z.mod_small; lia.
Qed.

(* ===================================================================== *)
(** ** The retry controller *)
(* ===================================================================== *)

Section Retry.

  (** [max_retry_interval], in seconds.  Below 1 the first interval would
      already exceed the cap; above 4611686018 the doubling of a capped
      interval leaves [int64]. *)
Variable maxRetry : Z.
Hypothesis maxRetry_range : 1 <= maxRetry <= 4611686018.

Lemma interval_0 : interval maxRetry 0 = time.Second.
  Proof. unfold interval, time.Second. simpl. lia. Qed.

Lemma interval_step (k : nat) :
    Z.min (time.mul (interval maxRetry k) 2)
      (time.mul (time.Duration_of_uint64 maxRetry) time.Second)
    = interval maxRetry (S k).
  Proof.
    unfold interval, time.mul, time.Duration_of_uint64, time.Second.
    rewrite Nat2Z.inj_succ, Z.pow_succ_r by lia.
    assert (Hp : 0 < 2 ^ Z.of_nat k) by (apply Z.pow_pos_nonneg; lia).
    rewrite (wrap_i64_id maxRetry) by lia.
    rewrite (wrap_i64_id (maxRetry * 1000000000)) by lia.
    rewrite wrap_i64_id by lia.
    lia.
  Qed.

End Retry.

Lemma sleepUntilRetry_run (s : State) :
  sleepUntilRetry s =
    (tt,
     mkState
       (mkClient (conf (client s)) (nextInterval (client s))
          (globalCooldown (client s)) (chatCooldown (client s)))
       (mkWorld (now (world s) + Z.max (nextRetryInterval (client s)) 0)
          (faults (world s))
          (trace (world s) ++ [Sleep (nextRetryInterval (client s))]))).
Proof. reflexivity. Qed.

Lemma resetRetry_run (s : State) :
  resetRetry s =
    (tt,
     mkState
       (mkClient (conf (client s)) time.Second
          (globalCooldown (client s)) (chatCooldown (client s)))
       (world s)).
Proof. reflexivity. Qed.

Lemma sleepUntilRetryTimes_run (maxRetry : Z) (n : nat) :
  1 <= maxRetry <= 4611686018 ->
  forall (k : nat) (s : State),
    ConfigUpstream.MaxRetryInterval (Config.Upstream (conf (client s))) = maxRetry ->
    nextRetryInterval (client s) = interval maxRetry k ->
    let s' := snd (sleepUntilRetryTimes n s) in
    trace (world s') =
      (trace (world s) ++ map (fun i => Sleep (interval maxRetry i)) (seq k n))%list /\
    nextRetryInterval (client s') = interval maxRetry (k + n) /\
    conf (client s') = conf (client s).
Proof.
  intros Hrange. induction n as [|n IH]; intros k s Hconf Hnext.
  - simpl. rewrite app_nil_r, Nat.add_0_r. auto.
  - change (sleepUntilRetryTimes (S n) s)
      with (sleepUntilRetryTimes n (snd (sleepUntilRetry s))).
    rewrite sleepUntilRetry_run. cbn [snd].
    match goal with |- context [sleepUntilRetryTimes n ?st] => set (s1 := st) end.
    destruct (IH (S k) s1) as (Htrace & Hnext' & Hconf').
    + exact Hconf.
    + subst s1. cbn [client nextRetryInterval]. unfold nextInterval.
      rewrite Hconf, Hnext. apply interval_step. exact Hrange.
    + cbn zeta. rewrite Htrace, Hnext', Hconf'. subst s1. cbn [world trace client conf].
      rewrite Hnext, <- app_assoc. cbn [seq map app].
      replace (k + S n)%nat with (S k + n)%nat by lia. auto.
Qed.

(** C8, as the code has it.  For [max_retry_interval] between 1 and
    4611686018 seconds, where the [int64] arithmetic of the doubling and
    of the cap does not overflow: starting from a reset, the successive
    calls of [sleepUntilRetry] sleep 1 s, 2 s, 4 s, 8 s, ...: the [k]-th
    one (from 0) sleeps [min (2^k) max_retry_interval] seconds, each
    interval being the double of the previous one capped at
    [max_retry_interval] seconds; and [resetRetry] puts the next interval
    back to 1 s. *)
Theorem retry_intervals_double_up_to_cap (s : State) (n : nat) :
  let maxRetry := ConfigUpstream.MaxRetryInterval (Config.Upstream (conf (client s))) in
  1 <= maxRetry <= 4611686018 ->
  let s0 := snd (resetRetry s) in
  let s' := snd (sleepUntilRetryTimes n s0) in
  nextRetryInterval (client s0) = 1 * time.Second /\
  trace (world s') =
    (trace (world s) ++
       map (fun k => Sleep (Z.min (2 ^ Z.of_nat k) maxRetry * time.Second)) (seq 0 n))%list /\
  nextRetryInterval (client s') = Z.min (2 ^ Z.of_nat n) maxRetry * time.Second /\
  nextRetryInterval (client (snd (resetRetry s'))) = 1 * time.Second.
Proof.
  intros maxRetry Hrange s0 s'.
  destruct (sleepUntilRetryTimes_run maxRetry n Hrange 0 s0) as (Htrace & Hnext & _).
  - reflexivity.
  - subst s0. rewrite resetRetry_run. cbn [snd client nextRetryInterval].
    symmetry. apply interval_0. exact Hrange.
  - repeat split.
    + exact Htrace.
    + exact Hnext.
Qed.

Lemma retry_intervals_double_up_to_cap_witness :
  let s' := snd (sleepUntilRetryTimes 12 (snd (resetRetry (sampleState [])))) in
  trace (world s') =
    map (fun seconds => Sleep (seconds * time.Second))
      [1; 2; 4; 8; 16; 32; 64; 128; 256; 512; 600; 600] /\
  nextRetryInterval (client s') = 600 * time.Second.
Proof.
  pose proof (retry_intervals_double_up_to_cap (sampleState []) 12) as H.
  cbn zeta in H.
  destruct H as (_ & Htrace & Hnext & _).
  - vm_compute. split; discriminate.
  - split.
    + rewrite Htrace. reflexivity.
    + rewrite Hnext. reflexivity.
Defined.

(** C8 as stated fails when [max_retry_interval] exceeds 4611686018.
    [Load] accepts 9223372037 seconds (it only rejects values below 60);
    the cap [9223372037 * time.Second] leaves [int64] and wraps to a
    negative duration, so that after a reset the successive calls sleep
    1 s and then -9223372036709551616 ns instead of 1 s and 2 s. *)
Example retry_interval_overflow :
  exists conf,
    Load (Document longRetryDoc) = inr conf /\
    ConfigUpstream.MaxRetryInterval (Config.Upstream conf) = 9223372037 /\
    let s := mkState (NewClient conf 1000) (mkWorld 1000 [] []) in
    trace (world (snd (sleepUntilRetryTimes 2 (snd (resetRetry s))))) =
      [Sleep (1 * time.Second); Sleep (-9223372036709551616)].
Proof.
  eexists. split; [vm_compute; reflexivity|]. split; reflexivity.
Qed.

(* ===================================================================== *)
(** ** The rate governor: [updateRateLimit] *)
(* ===================================================================== *)

Lemma updateRateLimit_run (message : gjson.Result) (s : State) :
  let c := client s in
  let t := now (world s) in
  let chatID := gjson.Int (gjson.Get ["chat"; "id"] message) in
  updateRateLimit message s =
    (tt,
     mkState
       (mkClient (conf c) (nextRetryInterval c)
          (time.Add t (time.Second / 30 + 1))
          (if chatID =? 0 then chatCooldown c
           else <[chatID :=
                    time.Add t (if chatTypeIsPrivate message
                                then time.Second else 3 * time.Second)]>
                  (chatCooldown c)))
       (world s)).
Proof.
  destruct s as [c w]. unfold updateRateLimit, bind, time_Now, getClient, putClient, ret.
  cbn [client world fst snd].
  destruct (gjson.Int (gjson.Get ["chat"; "id"] message) =? 0); [reflexivity|].
  destruct (chatTypeIsPrivate message); reflexivity.
Qed.

(** C5, as the code has it.  For every message observed by
    [updateRateLimit] at instant [t]: the global cooldown becomes
    [t + 1/30 s + 1 ns] (33333334 ns); when [chat.id] reads as a non-zero
    integer, the per-chat cooldown of that chat becomes [t + 1 s] if
    [chat.type] is ["private"] and [t + 3 s] otherwise, and no other entry
    changes; when [chat.id] is absent, or reads as 0, only the global
    cooldown is updated and the per-chat map is unchanged. *)
Theorem updateRateLimit_cooldowns (message : gjson.Result) (s : State) :
  let t := now (world s) in
  let chatID := gjson.Int (gjson.Get ["chat"; "id"] message) in
  let s' := snd (updateRateLimit message s) in
  globalCooldown (client s') = t + (time.Second / 30 + 1 * time.Nanosecond) /\
  globalCooldown (client s') = t + 33333334 /\
  (chatID <> 0 ->
     chatCooldown (client s') =
       <[chatID := if chatTypeIsPrivate message
                   then t + 1 * time.Second else t + 3 * time.Second]>
         (chatCooldown (client s))) /\
  (chatID = 0 -> chatCooldown (client s') = chatCooldown (client s)) /\
  (gjson.Get ["chat"; "id"] message = None ->
     chatCooldown (client s') = chatCooldown (client s)) /\
  world s' = world s /\
  nextRetryInterval (client s') = nextRetryInterval (client s).
Proof.
  intros t chatID s'. subst s'. rewrite updateRateLimit_run.
  cbn [snd client world globalCooldown chatCooldown nextRetryInterval].
  fold chatID. fold t. unfold time.Add.
  repeat split.
  - intros Hne. apply Z.eqb_neq in Hne. rewrite Hne.
    destruct (chatTypeIsPrivate message); reflexivity.
  - intros Heq. apply Z.eqb_eq in Heq. rewrite Heq. reflexivity.
  - intros Habsent. unfold chatID. rewrite Habsent. reflexivity.
Qed.

Lemma updateRateLimit_cooldowns_witness :
  let s' := snd (updateRateLimit (Some sampleMessage) (sampleState [])) in
  globalCooldown (client s') = 1000 + 33333334 /\
  chatCooldown (client s') = {[ 100 := 1000 + 1000000000 ]}.
Proof.
  pose proof (updateRateLimit_cooldowns (Some sampleMessage) (sampleState [])) as H.
  cbn zeta in H. destruct H as (_ & Hglobal & Hchat & _).
  split.
  - exact Hglobal.
  - rewrite Hchat by (vm_compute; discriminate). reflexivity.
Defined.

(** C5 as stated fails when [chat.id] is present and is 0: the message is
    observed, its [chat.type] is ["private"], and the per-chat cooldown of
    chat 0 is not set to [now + 1 s]. *)
Lemma updateRateLimit_chat_id_zero_not_recorded :
  let s := sampleState [] in
  let s' := snd (updateRateLimit (Some zeroChatMessage) s) in
  gjson.Get ["chat"; "id"] (Some zeroChatMessage) = Some (JNumber 0) /\
  chatTypeIsPrivate (Some zeroChatMessage) = true /\
  chatCooldown (client s') !! 0 = None /\
  chatCooldown (client s') !! 0 <> Some (now (world s) + 1 * time.Second).
Proof. vm_compute. repeat split; discriminate. Qed.

(* ===================================================================== *)
(** ** [Load] *)
(* ===================================================================== *)

Lemma firstFailing_spec (checks : list (string * bool)) (field : string) :
  firstFailing checks = Some field <-> firstFailure checks field.
Proof.
  induction checks as [|[f b] rest IH]; cbn [firstFailing].
  - split; [discriminate|]. intros (pre & post & Heq & _).
    destruct pre; discriminate.
  - destruct b.
    + split.
      * intros [= ->]. exists [], rest. split; [reflexivity | constructor].
      * intros (pre & post & Heq & Hpre). destruct pre as [|[f' b'] pre].
        -- cbn in Heq. congruence.
        -- cbn in Heq. inversion Heq; subst.
           inversion Hpre as [|c l Hc Hl]. cbn in Hc. discriminate.
    + rewrite IH. split.
      * intros (pre & post & -> & Hpre). exists ((f, false) :: pre), post.
        split; [reflexivity | constructor; [reflexivity | exact Hpre]].
      * intros (pre & post & Heq & Hpre). destruct pre as [|[f' b'] pre].
        -- cbn in Heq. congruence.
        -- cbn in Heq. inversion Heq; subst.
           exists pre, post. split; [reflexivity | inversion Hpre; assumption].
Qed.

(** The chain of [if]s of [Load] reports the first check that fails. *)
Lemma checkConfig_firstFailing (conf : Config.t) :
  checkConfig conf = validationError <$> firstFailing (checkedFields conf).
Proof.
  unfold checkConfig, checkedFields. cbn [firstFailing].
  repeat match goal with
         | |- context [if ?b then Some _ else _] => destruct b; [reflexivity|]
         end.
  reflexivity.
Qed.

Lemma validationError_inj (f g : string) :
  validationError f = validationError g -> f = g.
Proof.
  unfold validationError. destruct (isDuration f), (isDuration g); congruence.
Qed.

Lemma splitPrefix_error `{Codec} (field path : string) (e : error) :
  splitPrefix field path = inl e -> e = errConfigFieldIsInvalid field.
Proof.
  unfold splitPrefix.
  destruct (ParseRequestURI path) as [escaped|]; [|congruence].
  destruct (unescapeAll (Split escaped)); congruence.
Qed.

Lemma derive_error `{Codec} (conf : Config.t) (e : error) :
  derive conf = inl e -> exists field, e = errConfigFieldIsInvalid field.
Proof.
  unfold derive.
  destruct (Marshal _) as [buf|]; [|intros [= <-]; eauto].
  destruct (splitPrefix "downstream.api_path" _) as [e1|api] eqn:Hapi.
  { intros [= <-]. apply splitPrefix_error in Hapi. eauto. }
  destruct (splitPrefix "downstream.file_path" _) as [e2|file] eqn:Hfile.
  { intros [= <-]. apply splitPrefix_error in Hfile. eauto. }
  discriminate.
Qed.

Lemma Load_validation `{Codec} (doc : TomlDoc) (field : string) :
  Load (Document doc) = inl (validationError field)
  <-> firstFailure (checkedFields (Decode doc defaultConfig)) field.
Proof.
  rewrite <- firstFailing_spec. cbn [Load]. rewrite checkConfig_firstFailing.
  destruct (firstFailing _) as [g|]; cbn [fmap option_fmap option_map].
  - split.
    + intros [= Heq]. apply validationError_inj in Heq. congruence.
    + intros [= ->]. reflexivity.
  - split; [|discriminate]. intros Hd. apply derive_error in Hd as [f Hf].
    unfold validationError in Hf. destruct (isDuration field); discriminate.
Qed.

Lemma Load_error `{Codec} (doc : TomlDoc) (e : error) :
  Load (Document doc) = inl e ->
  (exists field, e = errConfigFieldIsInvalid field) \/
  (exists field, e = validationError field /\
                 firstFailure (checkedFields (Decode doc defaultConfig)) field).
Proof.
  cbn [Load]. rewrite checkConfig_firstFailing.
  destruct (firstFailing _) as [g|] eqn:Hg; cbn [fmap option_fmap option_map].
  - intros [= <-]. right. exists g. split; [reflexivity|].
    apply firstFailing_spec. exact Hg.
  - intros Hd. left. eapply derive_error. exact Hd.
Qed.

Lemma validationError_empty (g field : string) :
  validationError g = errConfigFieldIsEmpty field -> g = field /\ isDuration field = false.
Proof.
  unfold validationError. destruct (isDuration g) eqn:Hg; [discriminate|].
  intros [= <-]. auto.
Qed.

Lemma validationError_short (g field : string) :
  validationError g = errConfigDurationIsTooShort field -> g = field /\ isDuration field = true.
Proof.
  unfold validationError. destruct (isDuration g) eqn:Hg; [|discriminate].
  intros [= <-]. auto.
Qed.

Lemma isDuration_true (field : string) :
  isDuration field = true ->
  field = "upstream.polling_timeout" \/ field = "upstream.max_retry_interval".
Proof.
  unfold isDuration. intros Hd. apply orb_true_iff in Hd as [Hd|Hd];
    apply String.eqb_eq in Hd; auto.
Qed.

Lemma firstFailure_In (checks : list (string * bool)) (field : string) :
  firstFailure checks field -> In (field, true) checks.
Proof.
  intros (pre & post & -> & _). apply in_or_app. right. left. reflexivity.
Qed.

Lemma Load_keeps_decoded_fields `{Codec} (doc : TomlDoc) (conf' : Config.t) :
  Load (Document doc) = inr conf' ->
  let conf := Decode doc defaultConfig in
  Config.DB conf' = Config.DB conf /\
  ConfigUpstream.ApiUrl (Config.Upstream conf') =
    ConfigUpstream.ApiUrl (Config.Upstream conf) /\
  ConfigUpstream.FileUrl (Config.Upstream conf') =
    ConfigUpstream.FileUrl (Config.Upstream conf) /\
  ConfigUpstream.PollingTimeout (Config.Upstream conf') =
    ConfigUpstream.PollingTimeout (Config.Upstream conf) /\
  ConfigUpstream.MaxRetryInterval (Config.Upstream conf') =
    ConfigUpstream.MaxRetryInterval (Config.Upstream conf) /\
  ConfigDownstream.ApiPath (Config.Downstream conf') =
    ConfigDownstream.ApiPath (Config.Downstream conf) /\
  ConfigDownstream.FilePath (Config.Downstream conf') =
    ConfigDownstream.FilePath (Config.Downstream conf).
Proof.
  cbn [Load]. destruct (checkConfig _); [discriminate|].
  unfold derive. destruct (Marshal _); [|discriminate].
  destruct (splitPrefix "downstream.api_path" _); [discriminate|].
  destruct (splitPrefix "downstream.file_path" _); [discriminate|].
  intros [= <-]. cbn. repeat split.
Qed.

(** C9, as the code has it.  [Load] fills in the documented defaults for
    the keys the file leaves out, and returns them unchanged when it
    succeeds.  It checks the fields in the fixed order
    db, upstream.api_url, upstream.file_url, upstream.auth_token,
    upstream.polling_timeout (at least 10), upstream.max_retry_interval
    (at least 60), downstream.listen_addr, downstream.api_path,
    downstream.file_path, downstream.auth_token, and returns the error of
    the first check that fails: "X is empty" exactly when the string field
    X is empty and every field checked before it passes, "X is too short"
    exactly when the duration X is below its bound and every field checked
    before it passes. *)
Theorem Load_defaults_and_first_failing_check `{Codec} (doc : TomlDoc) :
  let conf := Decode doc defaultConfig in
  let u := Config.Upstream conf in
  let d := Config.Downstream conf in
  (Config.DB conf = default "tbmux.db" (toml_db doc) /\
   ConfigUpstream.ApiUrl u =
     default "https://api.telegram.org/bot" (toml_upstream_api_url doc) /\
   ConfigUpstream.FileUrl u =
     default "https://api.telegram.org/file/bot" (toml_upstream_file_url doc) /\
   ConfigUpstream.PollingTimeout u = default 60 (toml_upstream_polling_timeout doc) /\
   ConfigUpstream.MaxRetryInterval u =
     default 600 (toml_upstream_max_retry_interval doc) /\
   ConfigDownstream.ApiPath d = default "/bot" (toml_downstream_api_path doc) /\
   ConfigDownstream.FilePath d = default "/file/bot" (toml_downstream_file_path doc)) /\
  (forall conf',
     Load (Document doc) = inr conf' ->
     Config.DB conf' = Config.DB conf /\
     ConfigUpstream.ApiUrl (Config.Upstream conf') = ConfigUpstream.ApiUrl u /\
     ConfigUpstream.FileUrl (Config.Upstream conf') = ConfigUpstream.FileUrl u /\
     ConfigUpstream.PollingTimeout (Config.Upstream conf') =
       ConfigUpstream.PollingTimeout u /\
     ConfigUpstream.MaxRetryInterval (Config.Upstream conf') =
       ConfigUpstream.MaxRetryInterval u /\
     ConfigDownstream.ApiPath (Config.Downstream conf') = ConfigDownstream.ApiPath d /\
     ConfigDownstream.FilePath (Config.Downstream conf') = ConfigDownstream.FilePath d) /\
  (forall X,
     Load (Document doc) = inl (errConfigFieldIsEmpty X) <->
     isDuration X = false /\ firstFailure (checkedFields conf) X) /\
  (forall X,
     Load (Document doc) = inl (errConfigDurationIsTooShort X) <->
     isDuration X = true /\ firstFailure (checkedFields conf) X) /\
  (forall X,
     Load (Document doc) = inl (errConfigDurationIsTooShort X) ->
     X = "upstream.polling_timeout" /\ ConfigUpstream.PollingTimeout u < 10 \/
     X = "upstream.max_retry_interval" /\ ConfigUpstream.MaxRetryInterval u < 60) /\
  (forall X,
     Error_errConfigFieldIsEmpty X = "invalid config file: " ++ X ++ " is empty" /\
     Error_errConfigDurationIsTooShort X = "invalid config file: " ++ X ++ " is too short").
Proof.
  intros conf u d.
  assert (Hempty : forall X,
    Load (Document doc) = inl (errConfigFieldIsEmpty X) <->
    isDuration X = false /\ firstFailure (checkedFields conf) X).
  { intros X. split.
    - intros HL. destruct (Load_error doc _ HL) as [[f Hf]|(g & Hg & Hfirst)];
        [discriminate|].
      symmetry in Hg. apply validationError_empty in Hg as [-> HX]. auto.
    - intros [HX Hfirst]. apply Load_validation in Hfirst.
      unfold validationError in Hfirst. rewrite HX in Hfirst. exact Hfirst. }
  assert (Hshort : forall X,
    Load (Document doc) = inl (errConfigDurationIsTooShort X) <->
    isDuration X = true /\ firstFailure (checkedFields conf) X).
  { intros X. split.
    - intros HL. destruct (Load_error doc _ HL) as [[f Hf]|(g & Hg & Hfirst)];
        [discriminate|].
      symmetry in Hg. apply validationError_short in Hg as [-> HX]. auto.
    - intros [HX Hfirst]. apply Load_validation in Hfirst.
      unfold validationError in Hfirst. rewrite HX in Hfirst. exact Hfirst. }
  split; [repeat split|].
  split; [intros conf' HL; exact (Load_keeps_decoded_fields doc conf' HL)|].
  split; [exact Hempty|]. split; [exact Hshort|]. split; [|intros X; split; reflexivity].
  intros X HL. apply Hshort in HL as [HX Hfirst].
  apply firstFailure_In in Hfirst. apply isDuration_true in HX.
  unfold checkedFields in Hfirst. cbn [In] in Hfirst.
  destruct HX as [-> | ->]; [left | right]; (split; [reflexivity|]);
    repeat (destruct Hfirst as [Hin | Hfirst];
            [first [ discriminate Hin
                   | injection Hin as Hin; apply Z.ltb_lt in Hin; exact Hin ]
            |]);
    contradiction.
Qed.

(** C9 as stated fails: with [db] set to the empty string and a polling
    timeout of 5 seconds, [polling_timeout < 10] and yet the error is not
    "too short" but "db is empty". *)
Lemma Load_too_short_not_reported :
  ~ (forall doc : TomlDoc,
       (exists X, Load (Document doc) = inl (errConfigDurationIsTooShort X))
       <-> (ConfigUpstream.PollingTimeout (Config.Upstream (Decode doc defaultConfig)) < 10
            \/ ConfigUpstream.MaxRetryInterval (Config.Upstream (Decode doc defaultConfig)) < 60)).
Proof.
  intros Hclaim. destruct (Hclaim emptyDbShortTimeoutDoc) as [_ Hback].
  destruct Hback as [X HX].
  - left. vm_compute. reflexivity.
  - vm_compute in HX. discriminate HX.
Qed.

Example Load_minimalDoc :
  Load (Document minimalDoc) =
    inr (Config.mk "tbmux.db"
           (ConfigUpstream.mk
              "https://api.telegram.org/bot" "https://api.telegram.org/file/bot"
              "TOKEN" 60 600 []
              "https://api.telegram.org/botTOKEN"
              "https://api.telegram.org/file/botTOKEN" "[]")
           (ConfigDownstream.mk ":8080" "/bot" "/file/bot" "SECRET"
              [""; "bot"] [""; "file"; "bot"])).
Proof. reflexivity. Qed.

(* ===================================================================== *)
(** ** Storage calls and the echo processors *)
(* ===================================================================== *)

Lemma storage_run (record : option error -> Event) (s : State) :
  storage record s =
    (outcome (faults (world s)) 0,
     mkState (client s)
       (mkWorld (now (world s)) (tail (faults (world s)))
          (trace (world s) ++ [record (outcome (faults (world s)) 0)]))).
Proof.
  unfold storage, outcome. destruct (faults (world s)) as [|[] fl]; reflexivity.
Qed.

Lemma logIfFailed_run (err : option error) (s : State) :
  logIfFailed err s =
    (tt,
     mkState (client s)
       (mkWorld (now (world s)) (faults (world s))
          (trace (world s) ++ failureLine err))).
Proof.
  destruct s as [c [t fl tr]]. destruct err; cbn; [reflexivity|].
  rewrite app_nil_r. reflexivity.
Qed.

(** The transaction of [processEchoMessage] and [processEchoMessageEdit]:
    four storage calls, each followed by its log line when it failed, then
    the notification. *)
Lemma echo_transaction_run (updateType : string) (message : gjson.Result) (s : State) :
  let fl := faults (world s) in
  (err <- Database.BeginTx ;;
   logIfFailed err ;;
   err <- Tx.InsertMessage message ;;
   logIfFailed err ;;
   err <- Tx.InsertLocalUpdate updateType message ;;
   logIfFailed err ;;
   err <- Tx.Commit ;;
   logIfFailed err ;;
   Database.NotifyUpdates) s =
    (tt,
     mkState (client s)
       (mkWorld (now (world s)) (drop 4 fl)
          (trace (world s) ++
             BeginTx (outcome fl 0) :: failureLine (outcome fl 0) ++
             InsertMessage message (outcome fl 1) :: failureLine (outcome fl 1) ++
             InsertLocalUpdate updateType message (outcome fl 2)
               :: failureLine (outcome fl 2) ++
             Commit (outcome fl 3) :: failureLine (outcome fl 3) ++
             [NotifyUpdates]))).
Proof.
  destruct s as [c [t fl tr]]. cbn [world faults].
  unfold Database.BeginTx, Database.NotifyUpdates, Tx.InsertMessage,
    Tx.InsertLocalUpdate, Tx.Commit, logIfFailed, log_Println, storage, emit,
    bind, ret.
  destruct fl as [|[] [|[] [|[] [|[] fl]]]];
    cbn; rewrite <- ?app_assoc; reflexivity.
Qed.

Lemma is_True_iff (r : gjson.Result) : gjson.is_True r = true <-> r = Some JTrue.
Proof.
  split; [|intros ->; reflexivity].
  destruct r as [[]|]; cbn; congruence.
Qed.

(** C6.  For an edit endpoint and a body whose [ok] is [true]: if [result]
    is the JSON value [true], nothing at all happens (no storage call, no
    notification, the state is the one before); otherwise one transaction
    is opened, [InsertMessage(result)] and
    [InsertLocalUpdate("edited_message", result)] are performed in it, it
    is committed and [NotifyUpdates] is called.  In no case (whatever the
    body) does an edit echo touch the cooldowns. *)
Theorem processEchoMessageEdit_effects (body : Body) (s : State) :
  let message := gjson.Get ["result"] body in
  let fl := faults (world s) in
  let s' := snd (processEchoMessageEdit body s) in
  (forall suffix,
     In suffix ["editMessageText"; "editMessageCaption"; "editMessageMedia";
                "editMessageLiveLocation"; "stopMessageLiveLocation";
                "editMessageReplyMarkup"] ->
     runEcho <$> (echoProcessor !! suffix) = Some processEchoMessageEdit) /\
  (gjson.Get ["ok"] body = Some JTrue ->
     (message = Some JTrue -> s' = s) /\
     (message <> Some JTrue ->
        trace (world s') =
          (trace (world s) ++
             BeginTx (outcome fl 0) :: failureLine (outcome fl 0) ++
             InsertMessage message (outcome fl 1) :: failureLine (outcome fl 1) ++
             InsertLocalUpdate "edited_message" message (outcome fl 2)
               :: failureLine (outcome fl 2) ++
             Commit (outcome fl 3) :: failureLine (outcome fl 3) ++
             [NotifyUpdates])%list)) /\
  globalCooldown (client s') = globalCooldown (client s) /\
  chatCooldown (client s') = chatCooldown (client s).
Proof.
  intros message fl s'. split; [|split].
  - intros suffix Hin. cbn [In] in Hin.
    repeat (destruct Hin as [<- | Hin]; [reflexivity|]). contradiction.
  - intros Hok. subst s'. unfold processEchoMessageEdit. rewrite Hok. cbn [gjson.is_True gjson.TypeOf negb].
    fold message. split.
    + intros ->. destruct s as [c w]. reflexivity.
    + intros Hne. destruct (gjson.is_True message) eqn:Htrue.
      { apply is_True_iff in Htrue. contradiction. }
      rewrite echo_transaction_run. reflexivity.
  - subst s'. unfold processEchoMessageEdit.
    destruct (negb (gjson.is_True (gjson.Get ["ok"] body))).
    { split; reflexivity. }
    destruct (gjson.is_True (gjson.Get ["result"] body)).
    { split; reflexivity. }
    rewrite echo_transaction_run. split; reflexivity.
Qed.

Lemma processEchoMessageEdit_effects_witness :
  let s := sampleState [] in
  snd (processEchoMessageEdit (okBody JTrue) s) = s /\
  trace (world (snd (processEchoMessageEdit (okBody sampleMessage) s))) =
    [BeginTx None;
     InsertMessage (Some sampleMessage) None;
     InsertLocalUpdate "edited_message" (Some sampleMessage) None;
     Commit None;
     NotifyUpdates].
Proof.
  split.
  - pose proof (processEchoMessageEdit_effects (okBody JTrue) (sampleState [])) as H.
    cbn zeta in H. destruct H as (_ & H & _).
    destruct H as [Htrue _]; [reflexivity|]. apply Htrue. reflexivity.
  - pose proof (processEchoMessageEdit_effects (okBody sampleMessage) (sampleState [])) as H.
    cbn zeta in H. destruct H as (_ & H & _).
    destruct H as [_ Hmsg]; [reflexivity|]. rewrite Hmsg by discriminate. reflexivity.
Defined.

(* ===================================================================== *)
(** ** Computations only append to the trace *)
(* ===================================================================== *)

Create HintDb appends.

Lemma appends_ret {A : Type} (a : A) : appends (ret a).
Proof. intros s. exists []. cbn. rewrite app_nil_r. reflexivity. Qed.

Lemma appends_bind {A B : Type} (m : M A) (k : A -> M B) :
  appends m -> (forall a, appends (k a)) -> appends (bind m k).
Proof.
  intros Hm Hk s. unfold bind. destruct (Hm s) as [e1 H1].
  destruct (m s) as [a s1]. cbn [snd] in H1.
  destruct (Hk a s1) as [e2 H2]. exists (e1 ++ e2)%list.
  rewrite H2, H1, app_assoc. reflexivity.
Qed.

Lemma appends_getClient : appends getClient.
Proof. intros s. exists []. cbn. rewrite app_nil_r. reflexivity. Qed.

Lemma appends_putClient (c : Client) : appends (putClient c).
Proof. intros s. exists []. cbn. rewrite app_nil_r. reflexivity. Qed.

Lemma appends_time_Now : appends time_Now.
Proof. intros s. exists []. cbn. rewrite app_nil_r. reflexivity. Qed.

Lemma appends_emit (e : Event) : appends (emit e).
Proof. intros s. exists [e]. reflexivity. Qed.

Lemma appends_time_Sleep (d : time.Duration) : appends (time_Sleep d).
Proof. intros s. exists [Sleep d]. reflexivity. Qed.

Lemma appends_storage (record : option error -> Event) : appends (storage record).
Proof. intros s. rewrite storage_run. eexists. reflexivity. Qed.

Lemma appends_if {A : Type} (b : bool) (m1 m2 : M A) :
  appends m1 -> appends m2 -> appends (if b then m1 else m2).
Proof. destruct b; auto. Qed.

Lemma appends_iterate {V : Type} (iterator : gjson.Key -> json -> V -> M (V * bool))
    (l : list (gjson.Key * json)) :
  (forall key value vars, appends (iterator key value vars)) ->
  forall vars, appends (iterate iterator l vars).
Proof.
  intros Hit. induction l as [|[key value] rest IH]; intros vars; cbn [iterate].
  - apply appends_ret.
  - apply appends_bind; [apply Hit|]. intros r.
    apply appends_if; [apply IH | apply appends_ret].
Qed.

#[local] Hint Resolve appends_ret appends_getClient appends_putClient appends_time_Now
  appends_emit appends_time_Sleep appends_storage appends_iterate : appends.

Ltac appends_step :=
  first
    [ apply appends_bind; [|intros ?]
    | apply appends_if
    | apply appends_iterate; intros ? ? ?
    | solve [auto with appends]
    | match goal with
      | |- appends (match ?x with _ => _ end) => destruct x
      | |- appends (let _ := _ in _) => cbv zeta
      end ].

Ltac appends_tac := repeat appends_step.

Lemma appends_logIfFailed (err : option error) : appends (logIfFailed err).
Proof. unfold logIfFailed, log_Println. appends_tac. Qed.

Lemma appends_updateRateLimit (message : gjson.Result) : appends (updateRateLimit message).
Proof. unfold updateRateLimit. appends_tac. Qed.

Lemma appends_sleepUntilRetry : appends sleepUntilRetry.
Proof. unfold sleepUntilRetry. appends_tac. Qed.

#[local] Hint Resolve appends_logIfFailed appends_updateRateLimit
  appends_sleepUntilRetry : appends.

Lemma appends_runEcho (p : EchoProcessor) (body : Body) : appends (runEcho p body).
Proof.
  destruct p; cbn [runEcho];
    unfold processEchoMessage, processEchoMessageEdit, processEchoMessageArray,
      ForEach, echoArrayItem, logUpstreamError, log_Println,
      Database.BeginTx, Database.NotifyUpdates, Tx.InsertMessage,
      Tx.InsertLocalUpdate, Tx.Commit;
    appends_tac.
Qed.

(* ===================================================================== *)
(** ** [ForwardRequest] *)
(* ===================================================================== *)

Lemma withEvents_withEvents (s : State) (a b : list Event) :
  withEvents (withEvents s a) b = withEvents s (a ++ b).
Proof. unfold withEvents. cbn. rewrite app_assoc. reflexivity. Qed.

Lemma emit_run (e : Event) (s : State) : emit e s = (tt, withEvents s [e]).
Proof. reflexivity. Qed.

(** The wait on the rate governor, for a request of the API route. *)
Lemma rateWait_run (r : Request) (x : Exchange) (s : State) :
  let chatID := fst (strconv.ParseInt (FormValue_chat_id r)) in
  let sleep := time.Sub (cooldownFor (client s) chatID) (now (world s)) in
  rateWait r false x s =
    if (chatID =? 0) || negb (0 <? sleep) then (false, s)
    else if ctxDone x then (true, s)
    else (false,
          mkState (client s)
            (mkWorld (now (world s) + Z.max sleep 0) (faults (world s))
               (trace (world s) ++ [Sleep sleep]))).
Proof.
  cbn zeta. unfold rateWait. cbn [negb].
  destruct (fst (strconv.ParseInt (FormValue_chat_id r)) =? 0); [reflexivity|].
  cbn [negb orb]. unfold bind, getClient, time_Now.
  destruct (0 <? _); [|reflexivity].
  destruct (ctxDone x); reflexivity.
Qed.

(** A request of the file route never waits. *)
Lemma rateWait_file (r : Request) (x : Exchange) (s : State) :
  rateWait r true x s = (false, s).
Proof. reflexivity. Qed.

Lemma cooldownFor_max (c : Client) (chatID : Z) :
  0 <= globalCooldown c ->
  cooldownFor c chatID = Z.max (globalCooldown c) (default 0 (chatCooldown c !! chatID)).
Proof.
  intros Hpos. unfold cooldownFor, time.After.
  destruct (chatCooldown c !! chatID) as [cd|]; cbn.
  - destruct (Z.ltb_spec (globalCooldown c) cd); lia.
  - lia.
Qed.

Lemma copyThrough_run (x : Exchange) (s : State) :
  copyThrough x s =
    (None,
     withEvents s (Copy (copyFails x)
                     :: if copyFails x then [Log LogHTTPError] else [])).
Proof.
  unfold copyThrough, bind, log_Println, ret. rewrite emit_run.
  destruct (copyFails x).
  - rewrite emit_run, withEvents_withEvents. reflexivity.
  - reflexivity.
Qed.

Lemma copyAndEcho_run (p : EchoProcessor) (resp : UpstreamResponse) (x : Exchange)
    (s : State) :
  copyAndEcho p resp x s =
    if copyFails x then (None, withEvents s [Copy true; Log LogHTTPError])
    else (None, snd (runEcho p (ResponseBody resp) (withEvents s [Copy false]))).
Proof.
  unfold copyAndEcho, bind, log_Println, ret. rewrite emit_run.
  destruct (copyFails x).
  - rewrite emit_run, withEvents_withEvents. reflexivity.
  - destruct (runEcho _ _ _). reflexivity.
Qed.

(** [ForwardRequest], step by step. *)
Lemma ForwardRequest_run (r : Request) (prefix suffix : string) (isFile : bool)
    (x : Exchange) (s : State) :
  let requestURL := forwardURL r prefix suffix in
  let s0 := withEvents s [Log (LogRequest (Method r) requestURL)] in
  let s1 := snd (rateWait r isFile x s0) in
  let s2 := withEvents s1
              [Do (now (world s1)) (Method r) requestURL
                 (requestHeader (RequestHeader r))] in
  ForwardRequest r prefix suffix isFile x s =
    if fst (rateWait r isFile x s0) then (Some Canceled, s1)
    else if negb (requestBuilt x) then (Some errSendRequest, s1)
    else respond suffix isFile x s2.
Proof.
  cbn zeta. unfold ForwardRequest, bind, log_Println, time_Now, ret.
  rewrite emit_run. fold (forwardURL r prefix suffix).
  destruct (rateWait r isFile x _) as [cancelled s1]. cbn [fst snd].
  destruct cancelled; [reflexivity|].
  destruct (negb (requestBuilt x)); [reflexivity|].
  rewrite emit_run. unfold respond.
  destruct (response x) as [resp|]; [|reflexivity].
  rewrite emit_run.
  destruct (if negb isFile then echoProcessor !! suffix else None) as [p|];
    [destruct ((StatusCode resp <? 200) || (300 <=? StatusCode resp))|];
    reflexivity.
Qed.

Lemma respond_appends (suffix : string) (isFile : bool) (x : Exchange) (s : State) :
  exists rest,
    trace (world (snd (respond suffix isFile x s))) = (trace (world s) ++ rest)%list.
Proof.
  unfold respond. destruct (response x) as [resp|].
  2:{ exists []. cbn. rewrite app_nil_r. reflexivity. }
  cbv zeta.
  destruct (if negb isFile then echoProcessor !! suffix else None) as [p|];
    [destruct ((StatusCode resp <? 200) || (300 <=? StatusCode resp))|];
    rewrite ?copyThrough_run, ?copyAndEcho_run, ?withEvents_withEvents;
    try (eexists; reflexivity).
  destruct (copyFails x).
  - rewrite ?withEvents_withEvents. eexists. reflexivity.
  - match goal with
    | |- context [runEcho p ?b ?st] =>
        destruct (appends_runEcho p b st) as [post Hpost]
    end.
    cbn [snd]. rewrite Hpost. cbn [withEvents world trace].
    rewrite <- ?app_assoc. eexists. reflexivity.
Qed.

(** The wait of a request of the API route whose [chat_id] reads as a
    non-zero integer. *)
Lemma rateWait_deadline (r : Request) (x : Exchange) (s : State) :
  let chatID := fst (strconv.ParseInt (FormValue_chat_id r)) in
  let t := now (world s) in
  let deadline :=
    Z.max (globalCooldown (client s)) (default 0 (chatCooldown (client s) !! chatID)) in
  0 <= globalCooldown (client s) ->
  chatID <> 0 ->
  rateWait r false x s =
    if t <? deadline then
      if ctxDone x then (true, s)
      else (false,
            mkState (client s)
              (mkWorld deadline (faults (world s))
                 (trace (world s) ++ [Sleep (deadline - t)])))
    else (false, s).
Proof.
  intros chatID t deadline Hpos Hne. rewrite rateWait_run. fold chatID.
  rewrite (cooldownFor_max _ chatID Hpos). fold deadline. fold t. unfold time.Sub.
  apply Z.eqb_neq in Hne. rewrite Hne. cbn [orb].
  destruct (Z.ltb_spec t deadline) as [Hlt|Hge].
  - replace (0 <? deadline - t) with true by (symmetry; apply Z.ltb_lt; lia).
    cbn [negb]. replace (t + Z.max (deadline - t) 0) with deadline by lia.
    reflexivity.
  - replace (0 <? deadline - t) with false by (symmetry; apply Z.ltb_ge; lia).
    reflexivity.
Qed.

(** C3, as the code has it.  On the API route, a request whose [chat_id]
    form field reads as a non-zero integer waits until
    [deadline = max(global cooldown, per-chat cooldown or 0)] before the
    upstream request is issued, and returns [context.Canceled], without
    issuing it, when the context is cancelled during that wait; once the
    deadline has passed the request is issued at once.  A request of the
    API route whose [chat_id] reads as 0 (absent, not a number, or the
    number 0) does not wait, whatever the cooldowns: it is issued at the
    instant it arrives and is never cancelled by the rate governor.  A
    request of the file route never waits and is never cancelled by the
    rate governor either. *)
Theorem ForwardRequest_rate_wait (r : Request) (prefix suffix : string)
    (x : Exchange) (s : State) :
  let chatID := fst (strconv.ParseInt (FormValue_chat_id r)) in
  let c := client s in
  let t := now (world s) in
  let deadline := Z.max (globalCooldown c) (default 0 (chatCooldown c !! chatID)) in
  let requestURL := forwardURL r prefix suffix in
  let logged := Log (LogRequest (Method r) requestURL) in
  let header := requestHeader (RequestHeader r) in
  let api := ForwardRequest r prefix suffix false x s in
  let file := ForwardRequest r prefix suffix true x s in
  (0 <= globalCooldown c -> chatID <> 0 ->
     (t < deadline -> ctxDone x = true ->
        api = (Some Canceled, withEvents s [logged])) /\
     (t < deadline -> ctxDone x = false -> requestBuilt x = true ->
        exists rest,
          trace (world (snd api)) =
            (trace (world s) ++
               [logged; Sleep (deadline - t);
                Do deadline (Method r) requestURL header] ++ rest)%list) /\
     (deadline <= t -> requestBuilt x = true ->
        exists rest,
          trace (world (snd api)) =
            (trace (world s) ++
               [logged; Do t (Method r) requestURL header] ++ rest)%list)) /\
  (chatID = 0 ->
     fst api <> Some Canceled /\
     (requestBuilt x = true ->
        exists rest,
          trace (world (snd api)) =
            (trace (world s) ++
               [logged; Do t (Method r) requestURL header] ++ rest)%list) /\
     (requestBuilt x = false -> api = (Some errSendRequest, withEvents s [logged]))) /\
  (fst file <> Some Canceled /\
   (requestBuilt x = true ->
      exists rest,
        trace (world (snd file)) =
          (trace (world s) ++
             [logged; Do t (Method r) requestURL header] ++ rest)%list) /\
   (requestBuilt x = false -> file = (Some errSendRequest, withEvents s [logged]))).
Proof.
  intros chatID c t deadline requestURL logged header api file.
  assert (Hpass : forall isFile,
            rateWait r isFile x (withEvents s [logged]) = (false, withEvents s [logged]) ->
            let out := ForwardRequest r prefix suffix isFile x s in
            fst out <> Some Canceled /\
            (requestBuilt x = true ->
               exists rest,
                 trace (world (snd out)) =
                   (trace (world s) ++
                      [logged; Do t (Method r) requestURL header] ++ rest)%list) /\
            (requestBuilt x = false -> out = (Some errSendRequest, withEvents s [logged]))).
  { intros isFile Hwait out. subst out. rewrite ForwardRequest_run.
    fold requestURL. fold logged. cbv zeta. rewrite Hwait. cbn [fst snd].
    split; [|split].
    - destruct (negb (requestBuilt x)); [discriminate|].
      unfold respond. destruct (response x) as [resp|]; [|discriminate]. cbv zeta.
      destruct (if negb isFile then echoProcessor !! suffix else None) as [p|];
        [destruct ((StatusCode resp <? 200) || (300 <=? StatusCode resp))|];
        rewrite ?copyThrough_run, ?copyAndEcho_run; try discriminate.
      destruct (copyFails x); discriminate.
    - intros Hbuilt. rewrite Hbuilt. cbn [negb].
      match goal with
      | |- context [respond suffix isFile x ?s2] =>
          destruct (respond_appends suffix isFile x s2) as [rest Hrest]
      end.
      exists rest. rewrite Hrest. cbn [withEvents world trace now].
      rewrite <- !app_assoc. reflexivity.
    - intros Hbuilt. rewrite Hbuilt. reflexivity. }
  split; [|split].
  - intros Hpos Hne. subst api. rewrite ForwardRequest_run.
    fold requestURL. fold logged. cbv zeta.
    pose proof (rateWait_deadline r x (withEvents s [logged]) Hpos Hne) as Hwait.
    cbn zeta in Hwait. cbn [withEvents client world now faults trace] in Hwait.
    fold chatID c t deadline in Hwait. rewrite Hwait. clear Hwait.
    split; [|split].
    + intros Hlt Hdone. apply Z.ltb_lt in Hlt. rewrite Hlt, Hdone. reflexivity.
    + intros Hlt Hdone Hbuilt. apply Z.ltb_lt in Hlt. rewrite Hlt, Hdone, Hbuilt.
      cbn [fst snd negb].
      match goal with
      | |- context [respond suffix false x ?s2] =>
          destruct (respond_appends suffix false x s2) as [rest Hrest]
      end.
      exists rest. rewrite Hrest. cbn [withEvents world trace now].
      rewrite <- !app_assoc. reflexivity.
    + intros Hge Hbuilt. apply Z.ltb_ge in Hge. rewrite Hge, Hbuilt.
      cbn [fst snd negb].
      match goal with
      | |- context [respond suffix false x ?s2] =>
          destruct (respond_appends suffix false x s2) as [rest Hrest]
      end.
      exists rest. rewrite Hrest. cbn [withEvents world trace now].
      rewrite <- !app_assoc. reflexivity.
  - intros Hzero. apply (Hpass false).
    rewrite rateWait_run. cbv zeta. fold chatID. rewrite Hzero. reflexivity.
  - apply (Hpass true). apply rateWait_file.
Qed.

Lemma ForwardRequest_rate_wait_witness :
  (* chat 100 during the global cooldown, the context being cancelled *)
  ForwardRequest (sampleRequest "100") "https://api.telegram.org/botTOKEN" "getMe"
    false (mkExchange true true None false) coolingState
  = (Some Canceled,
     withEvents coolingState
       [Log (LogRequest "POST" "https://api.telegram.org/botTOKEN/getMe")]) /\
  (* chat_id 0 during the same cooldown, the context being cancelled *)
  fst (ForwardRequest (sampleRequest "0") "https://api.telegram.org/botTOKEN" "getMe"
         false (mkExchange true true None false) coolingState)
  <> Some Canceled.
Proof.
  split.
  - pose proof (ForwardRequest_rate_wait (sampleRequest "100")
                  "https://api.telegram.org/botTOKEN" "getMe"
                  (mkExchange true true None false) coolingState) as H.
    cbn zeta in H. destruct H as [H _].
    destruct H as (Hcancel & _ & _).
    + vm_compute. discriminate.
    + vm_compute. discriminate.
    + apply Hcancel; vm_compute; reflexivity.
  - pose proof (ForwardRequest_rate_wait (sampleRequest "0")
                  "https://api.telegram.org/botTOKEN" "getMe"
                  (mkExchange true true None false) coolingState) as H.
    cbn zeta in H. destruct H as (_ & H & _).
    destruct H as (Hnot & _ & _).
    + reflexivity.
    + exact Hnot.
Defined.

(** C3 as stated fails for [chat_id=0]: the field parses as an [int64],
    the global cooldown (instant 5000) lies after the current instant
    (1000), and the upstream request is issued at instant 1000 without any
    wait. *)
Lemma ForwardRequest_chat_id_zero_does_not_wait :
  let r := sampleRequest "0" in
  let s := coolingState in
  let out := ForwardRequest r "https://api.telegram.org/botTOKEN" "getMe" false
               (sampleExchange None false) s in
  strconv.ParseInt (FormValue_chat_id r) = (0, false) /\
  now (world s) <
    Z.max (globalCooldown (client s)) (default 0 (chatCooldown (client s) !! 0)) /\
  trace (world (snd out)) =
    [Log (LogRequest "POST" "https://api.telegram.org/botTOKEN/getMe");
     Do 1000 "POST" "https://api.telegram.org/botTOKEN/getMe"
       [("Content-Type", ["application/json"]); ("User-Agent", [UserAgent])];
     WriteHeader 200 [];
     Copy false].
Proof. vm_compute. repeat split; reflexivity. Qed.

Lemma rateWait_state (r : Request) (isFile : bool) (x : Exchange) (s : State) :
  let s1 := snd (rateWait r isFile x s) in
  client s1 = client s /\
  faults (world s1) = faults (world s) /\
  exists w, trace (world s1) = (trace (world s) ++ w)%list /\ forallb quiet w = true.
Proof.
  destruct isFile.
  - rewrite rateWait_file. cbn. repeat split. exists []. rewrite app_nil_r. auto.
  - rewrite rateWait_run. cbv zeta.
    destruct (_ || _); [|destruct (ctxDone x)]; cbn [snd client world faults trace].
    1,2: repeat split; exists []; rewrite app_nil_r; auto.
    repeat split. eexists. split; [reflexivity|]. reflexivity.
Qed.

(** C10.  For a request of the API route whose method has an echo
    processor and whose upstream status is 2xx: the echo processor runs
    only after the whole body has been copied to the downstream writer
    without error, on the state reached once that copy is over.  When the
    copy fails (or the response is never reached) the processor is not
    invoked: the run makes no storage call and no notification, and leaves
    the client (its cooldowns included) as it was. *)
Theorem ForwardRequest_echo_only_after_copy (r : Request) (prefix suffix : string)
    (x : Exchange) (s : State) (p : EchoProcessor) (resp : UpstreamResponse) :
  echoProcessor !! suffix = Some p ->
  response x = Some resp ->
  200 <= StatusCode resp < 300 ->
  let out := ForwardRequest r prefix suffix false x s in
  exists pre,
    forallb quiet pre = true /\
    (fst out <> None \/ copyFails x = true ->
       trace (world (snd out)) = (trace (world s) ++ pre)%list /\
       client (snd out) = client s /\
       faults (world (snd out)) = faults (world s)) /\
    (fst out = None -> copyFails x = true ->
       exists pre', pre = (pre' ++ [Copy true; Log LogHTTPError])%list) /\
    (fst out = None -> copyFails x = false ->
       exists pre' s1 post,
         pre = (pre' ++ [Copy false])%list /\
         trace (world s1) = (trace (world s) ++ pre)%list /\
         client s1 = client s /\
         faults (world s1) = faults (world s) /\
         snd out = snd (runEcho p (ResponseBody resp) s1) /\
         trace (world (snd out)) = (trace (world s) ++ pre ++ post)%list).
Proof.
  intros Hecho Hresp Hstatus out. subst out. rewrite ForwardRequest_run. cbv zeta.
  set (logged := Log (LogRequest (Method r) (forwardURL r prefix suffix))).
  set (s0 := withEvents s [logged]).
  destruct (rateWait_state r false x s0) as (Hclient & Hfaults & w & Htrace & Hquiet).
  destruct (rateWait r false x s0) as [cancelled s1]. cbn [fst snd] in *.
  subst s0. cbn [withEvents client world faults trace] in Hclient, Hfaults, Htrace.
  destruct cancelled.
  { exists (logged :: w). cbn [fst snd]. split; [exact Hquiet|].
    split; [|split; intros; discriminate].
    intros _. rewrite Htrace, <- app_assoc. auto. }
  destruct (requestBuilt x); cbn [negb].
  2:{ exists (logged :: w). cbn [fst snd]. split; [exact Hquiet|].
      split; [|split; intros; discriminate].
      intros _. rewrite Htrace, <- app_assoc. auto. }
  unfold respond. rewrite Hresp. cbn [negb]. rewrite Hecho.
  replace ((StatusCode resp <? 200) || (300 <=? StatusCode resp)) with false
    by (symmetry; apply orb_false_iff; split; [apply Z.ltb_ge | apply Z.leb_gt]; lia).
  rewrite copyAndEcho_run, !withEvents_withEvents.
  set (sent := [Do (now (world s1)) (Method r) (forwardURL r prefix suffix)
                  (requestHeader (RequestHeader r));
                WriteHeader (StatusCode resp) (responseHeader (ResponseHeader resp))]).
  destruct (copyFails x).
  - exists (logged :: w ++ sent ++ [Copy true; Log LogHTTPError])%list.
    cbn [fst snd]. split.
    { cbn [forallb]. rewrite !forallb_app, Hquiet. reflexivity. }
    split; [|split].
    + intros _. rewrite ?withEvents_withEvents.
      cbn [withEvents client world faults trace app].
      rewrite Htrace, <- !app_assoc. auto.
    + intros _ _. exists (logged :: w ++ sent)%list.
      cbn [app]. rewrite <- !app_assoc. reflexivity.
    + intros _ Hcopy. discriminate Hcopy.
  - exists (logged :: w ++ sent ++ [Copy false])%list. split.
    { cbn [forallb]. rewrite !forallb_app, Hquiet. reflexivity. }
    cbn [fst]. split; [|split].
    + intros [Hne | Hcopy]; [contradiction | discriminate].
    + intros _ Hcopy. discriminate Hcopy.
    + intros _ _.
      match goal with
      | |- context [runEcho p ?b ?st] =>
          destruct (appends_runEcho p b st) as [post Hpost]; set (s1' := st) in *
      end.
      exists (logged :: w ++ sent)%list, s1', post.
      assert (Hs1' : trace (world s1') =
                (trace (world s) ++ logged :: w ++ sent ++ [Copy false])%list).
      { subst s1'. cbn [withEvents world trace]. rewrite Htrace, <- !app_assoc.
        reflexivity. }
      repeat split.
      * cbn [app]. rewrite <- !app_assoc. reflexivity.
      * exact Hs1'.
      * exact Hclient.
      * exact Hfaults.
      * cbn [snd]. rewrite Hpost, Hs1', <- !app_assoc. reflexivity.
Qed.

Lemma ForwardRequest_echo_only_after_copy_witness :
  let run := fun copyFails =>
    snd (ForwardRequest (sampleRequest "") "https://api.telegram.org/botTOKEN"
           "sendMessage" false (sampleExchange (okBody sampleMessage) copyFails)
           (sampleState [])) in
  (exists pre, trace (world (run true)) = pre /\ forallb quiet pre = true) /\
  client (run true) = client (sampleState []) /\
  last (trace (world (run false))) = Some NotifyUpdates.
Proof.
  pose proof (fun copyFails =>
    ForwardRequest_echo_only_after_copy (sampleRequest "")
      "https://api.telegram.org/botTOKEN" "sendMessage"
      (sampleExchange (okBody sampleMessage) copyFails) (sampleState [])
      EchoMessage (mkUpstreamResponse 200 [] (okBody sampleMessage))
      eq_refl eq_refl ltac:(cbn; lia)) as H.
  cbn zeta in H. split; [|split].
  - destruct (H true) as (pre & Hquiet & Hfail & _).
    destruct Hfail as (Htrace & _); [right; reflexivity|].
    exists pre. split; [exact Htrace | exact Hquiet].
  - destruct (H true) as (pre & _ & Hfail & _).
    destruct Hfail as (_ & Hclient & _); [right; reflexivity|]. exact Hclient.
  - vm_compute. reflexivity.
Defined.

(* ===================================================================== *)
(** ** [StartPolling]: the storing loop *)
(* ===================================================================== *)

Lemma inserts_ret {V : Type} (errOf : V -> option error) (vars : V) :
  errOf vars = None -> inserts errOf (ret vars).
Proof.
  intros Hnil s. exists []. cbn. rewrite app_nil_r.
  repeat split; try reflexivity. intros Hne. contradiction.
Qed.

Lemma inserts_iterate {V : Type} (errOf : V -> option error)
    (iterator : gjson.Key -> json -> V -> M (V * bool))
    (l : list (gjson.Key * json)) :
  (forall key value vars, errOf vars = None ->
     inserts (fun r => errOf (fst r)) (iterator key value vars)) ->
  (forall key value vars s, errOf vars = None ->
     snd (fst (iterator key value vars s)) = true ->
     errOf (fst (fst (iterator key value vars s))) = None) ->
  forall vars, errOf vars = None -> inserts errOf (iterate iterator l vars).
Proof.
  intros Hit Hcont. induction l as [|[key value] rest IH]; intros vars Hnil.
  - apply inserts_ret. exact Hnil.
  - intros s. cbn [iterate]. unfold bind.
    destruct (Hit key value vars Hnil s) as (e1 & Hc1 & Hn1 & Ht1 & Hi1 & Hf1 & Hs1).
    specialize (Hcont key value vars s Hnil).
    destruct (iterator key value vars s) as [[vars' continue] s1].
    cbn [fst snd] in *. destruct continue.
    + specialize (Hcont eq_refl).
      destruct (IH vars' Hcont s1) as (e2 & Hc2 & Hn2 & Ht2 & Hi2 & Hf2 & Hs2).
      exists (e1 ++ e2)%list. repeat split.
      * congruence.
      * congruence.
      * rewrite Ht2, Ht1, app_assoc. reflexivity.
      * rewrite forallb_app, Hi1, Hi2. reflexivity.
      * intros Hend. rewrite existsb_app, (Hf1 Hcont), (Hf2 Hend). reflexivity.
      * exact Hs2.
    + exists e1. cbn [ret fst snd]. repeat split; assumption.
Qed.

Lemma inserts_storeMember (upstreamID : Z) (updateType : gjson.Key) (updateValue : json) :
  inserts (fun r => fst r) (storeMember upstreamID updateType updateValue None).
Proof.
  intros s. unfold storeMember.
  destruct (String.eqb _ _).
  { exists []. cbn. rewrite app_nil_r. repeat split; try reflexivity.
    intros Hne. contradiction. }
  destruct s as [c [t fl tr]].
  unfold Tx.InsertMessage, Tx.InsertUpdate, storage, bind, ret.
  destruct (bool_decide _); destruct fl as [|[] [|[] fl]];
    cbn; eexists; (repeat split; try reflexivity);
    try (rewrite <- ?app_assoc; reflexivity);
    try discriminate; try (intros Hne; contradiction).
Qed.

Lemma storeMember_continue (upstreamID : Z) (updateType : gjson.Key)
    (updateValue : json) (s : State) :
  snd (fst (storeMember upstreamID updateType updateValue None s)) = true ->
  fst (fst (storeMember upstreamID updateType updateValue None s)) = None.
Proof.
  unfold storeMember. destruct (String.eqb _ _); [reflexivity|].
  destruct s as [c [t fl tr]].
  unfold Tx.InsertMessage, Tx.InsertUpdate, storage, bind, ret.
  destruct (bool_decide _); destruct fl as [|[] [|[] fl]]; cbn; congruence.
Qed.

Lemma inserts_storeUpdate (key : gjson.Key) (update : json) (vars : Z * option error) :
  snd vars = None ->
  inserts (fun r => snd (fst r)) (storeUpdate key update vars).
Proof.
  intros Hnil s. unfold storeUpdate, ForEach, bind. rewrite Hnil.
  destruct (inserts_iterate (fun err => err)
              (storeMember (gjson.Uint (gjson.Get ["update_id"] (Some update))))
              (gjson.entries (Some update))
              (fun key value vars Hv =>
                 eq_ind_r (fun v => inserts _ (storeMember _ key value v))
                   (inserts_storeMember _ key value) Hv)
              (fun key value vars s Hv =>
                 eq_ind_r (fun v =>
                   snd (fst (storeMember _ key value v s)) = true ->
                   fst (fst (storeMember _ key value v s)) = None)
                   (storeMember_continue _ key value s) Hv)
              None eq_refl s) as (evs & H).
  destruct (iterate _ _ _ s) as [err s1]. exists evs. exact H.
Qed.

Lemma storeUpdate_continue (key : gjson.Key) (update : json)
    (vars : Z * option error) (s : State) :
  snd (fst (storeUpdate key update vars s)) = true ->
  snd (fst (fst (storeUpdate key update vars s))) = None.
Proof.
  unfold storeUpdate, bind. destruct (ForEach _ _ _ s) as [err s1].
  cbn. destruct err; [discriminate | reflexivity].
Qed.

(** The whole batch: whatever the storage does, the loop over [result]
    only inserts. *)
Lemma inserts_batch (result : gjson.Result) (offset : Z) :
  inserts snd (ForEach result storeUpdate (offset, None)).
Proof.
  unfold ForEach. apply inserts_iterate.
  - intros key value vars Hnil. apply inserts_storeUpdate. exact Hnil.
  - intros key value vars s _. apply storeUpdate_continue.
  - reflexivity.
Qed.

(** The offset moves when an update is visited, whatever happens to the
    rows of that update. *)
Lemma storeUpdate_offset (key : gjson.Key) (update : json)
    (vars : Z * option error) (s : State) :
  fst (fst (fst (storeUpdate key update vars s))) =
    Z.max (fst vars) (wrap_u64 (upstreamIDOf update + 1)).
Proof.
  unfold storeUpdate, bind. destruct (ForEach _ _ _ s) as [err s1]. reflexivity.
Qed.

Lemma backoff_run (s : State) (evs : list Event) :
  backoff s evs =
    mkState
      (mkClient (conf (client s)) (nextInterval (client s))
         (globalCooldown (client s)) (chatCooldown (client s)))
      (mkWorld (now (world s) + Z.max (nextRetryInterval (client s)) 0)
         (faults (world s))
         (trace (world s) ++ evs ++ [Sleep (nextRetryInterval (client s))])).
Proof.
  unfold backoff. rewrite sleepUntilRetry_run. cbn. rewrite <- app_assoc. reflexivity.
Qed.

Lemma bind_run {A B : Type} (m : M A) (k : A -> M B) (s : State) :
  bind m k s = k (fst (m s)) (snd (m s)).
Proof. unfold bind. destruct (m s). reflexivity. Qed.

Lemma sleep_then_continue (offset : Z) (s : State) :
  (sleepUntilRetry ;; ret (Continue offset)) s = (Continue offset, backoff s []).
Proof.
  unfold bind, ret. rewrite sleepUntilRetry_run, backoff_run.
  cbn [app]. reflexivity.
Qed.

Lemma log_sleep_then_continue (line : LogLine) (offset : Z) (s : State) :
  (log_Println line ;; sleepUntilRetry ;; ret (Continue offset)) s
  = (Continue offset, backoff s [Log line]).
Proof. reflexivity. Qed.

(** The transaction cannot be opened: one log line, the backoff, and
    nothing else. *)
Lemma storeUpdates_not_opened (offset : Z) (bodyJson : gjson.Result) (s : State) :
  outcome (faults (world s)) 0 <> None ->
  storeUpdates offset bodyJson s =
    (Continue offset,
     backoff
       (mkState (client s)
          (mkWorld (now (world s)) (tail (faults (world s))) (trace (world s))))
       [BeginTx (Some StorageFailure);
        Log (LogFailedToStoreUpdates StorageFailure)]).
Proof.
  intros Hfail. unfold storeUpdates, Database.BeginTx.
  rewrite bind_run, storage_run. cbn [fst snd]. unfold outcome in *.
  destruct (nth 0 (faults (world s)) false); [|contradiction].
  rewrite log_sleep_then_continue, !backoff_run. cbn.
  rewrite <- !app_assoc. reflexivity.
Qed.

(** The transaction is opened: inserts, then [Commit], then
    [NotifyUpdates]; then either the reset of the retry interval (nothing
    failed) or one log line and the backoff. *)
Lemma storeUpdates_opened (offset : Z) (bodyJson : gjson.Result) (s : State) :
  outcome (faults (world s)) 0 = None ->
  exists ins commitErr post offset',
    let r := storeUpdates offset bodyJson s in
    fst r = Continue offset' /\
    trace (world (snd r)) =
      (trace (world s) ++
         BeginTx None :: ins ++ Commit commitErr :: NotifyUpdates :: post)%list /\
    forallb isInsert ins = true /\
    conf (client (snd r)) = conf (client s) /\
    globalCooldown (client (snd r)) = globalCooldown (client s) /\
    chatCooldown (client (snd r)) = chatCooldown (client s) /\
    ((existsb isFailure ins = false /\ commitErr = None /\ post = [] /\
      nextRetryInterval (client (snd r)) = time.Second)
     \/
     (post = [Log (LogFailedToStoreUpdates StorageFailure);
              Sleep (nextRetryInterval (client s))] /\
      nextRetryInterval (client (snd r)) = nextInterval (client s))).
Proof.
  intros Hopen. unfold storeUpdates, Database.BeginTx.
  rewrite bind_run, storage_run, Hopen. cbn [fst snd]. rewrite bind_run.
  match goal with
  | |- context [ForEach ?res storeUpdate (offset, None) ?st] =>
      destruct (inserts_batch res offset st) as (ins & Hc & Hn & Ht & Hi & Hf & Hs);
      destruct (ForEach res storeUpdate (offset, None) st) as [[offset' err] s2]
  end.
  cbn [fst snd client world now trace faults] in *.
  exists ins. destruct err as [e|].
  - assert (e = StorageFailure) as -> by (specialize (Hs ltac:(discriminate)); congruence).
    unfold Tx.Commit, Database.NotifyUpdates.
    rewrite bind_run, storage_run. cbn [fst snd].
    rewrite bind_run, emit_run. cbn [fst snd].
    rewrite log_sleep_then_continue, backoff_run.
    eexists; eexists; exists offset'. cbn [fst snd withEvents client world trace conf
      globalCooldown chatCooldown nextRetryInterval now faults].
    rewrite Ht, Hc. repeat split.
    + rewrite <- !app_assoc. cbn [app]. reflexivity.
    + exact Hi.
    + right. split; reflexivity.
  - unfold Tx.Commit, Database.NotifyUpdates.
    rewrite bind_run, storage_run. cbn [fst snd].
    rewrite bind_run, emit_run. cbn [fst snd].
    destruct (outcome (faults (world s2)) 0) as [e|] eqn:Hcommit.
    + assert (e = StorageFailure) as ->.
      { unfold outcome in Hcommit. destruct (nth 0 _ false); congruence. }
      rewrite log_sleep_then_continue, backoff_run.
      eexists; eexists; exists offset'. cbn [fst snd withEvents client world trace conf
        globalCooldown chatCooldown nextRetryInterval now faults].
      rewrite Ht, Hc. repeat split.
      * rewrite <- !app_assoc. cbn [app]. reflexivity.
      * exact Hi.
      * right. split; reflexivity.
    + exists None, [], offset'. rewrite bind_run, resetRetry_run.
      cbn [fst snd withEvents client world trace conf
        globalCooldown chatCooldown nextRetryInterval now faults ret].
      rewrite Ht, Hc. repeat split.
      * rewrite <- !app_assoc. cbn [app]. reflexivity.
      * exact Hi.
      * left. auto.
Qed.

(** *** Batches whose inserts all succeed *)

Lemma outcome_drop (fl : list bool) (n i : nat) :
  outcome (drop n fl) i = outcome fl (n + i).
Proof.
  unfold outcome. f_equal.
  revert fl. induction n as [|n IH]; intros fl; [reflexivity|].
  destruct fl as [|b fl]; cbn [drop].
  - destruct i; reflexivity.
  - rewrite IH. reflexivity.
Qed.

Lemma list_sum_cons (x : nat) (l : list nat) :
  list_sum (x :: l) = (x + list_sum l)%nat.
Proof. reflexivity. Qed.

Lemma storeMember_ok (upstreamID : Z) (kv : gjson.Key * json) (s : State) :
  (forall i, (i < callsOfMember kv)%nat -> outcome (faults (world s)) i = None) ->
  let r := storeMember upstreamID (fst kv) (snd kv) None s in
  fst r = (None, true) /\
  faults (world (snd r)) = drop (callsOfMember kv) (faults (world s)).
Proof.
  cbv zeta. unfold storeMember, callsOfMember.
  destruct (String.eqb _ _); [split; reflexivity|].
  destruct s as [c [t fl tr]]. cbn [world faults].
  unfold Tx.InsertMessage, Tx.InsertUpdate, storage, bind, ret.
  destruct (bool_decide _); intros Hok.
  - assert (H0 : outcome fl 0 = None) by (apply Hok; lia).
    assert (H1 : outcome fl 1 = None) by (apply Hok; lia).
    destruct fl as [|[] [|[] fl]]; try discriminate H0; try discriminate H1;
      split; reflexivity.
  - assert (H0 : outcome fl 0 = None) by (apply Hok; lia).
    destruct fl as [|[] fl]; try discriminate H0; split; reflexivity.
Qed.

Lemma members_ok (upstreamID : Z) (l : list (gjson.Key * json)) :
  forall s,
    (forall i, (i < list_sum (map callsOfMember l))%nat ->
               outcome (faults (world s)) i = None) ->
    let r := iterate (storeMember upstreamID) l None s in
    fst r = None /\
    faults (world (snd r)) = drop (list_sum (map callsOfMember l)) (faults (world s)).
Proof.
  induction l as [|[key value] rest IH]; intros s Hok; cbv zeta.
  - split; reflexivity.
  - cbn [iterate map] in *. rewrite list_sum_cons in *. rewrite bind_run.
    destruct (storeMember_ok upstreamID (key, value) s) as [Hr Hfl].
    { intros i Hi. apply Hok. lia. }
    cbn [fst snd] in Hr, Hfl. rewrite Hr. cbn [fst snd].
    destruct (IH (snd (storeMember upstreamID key value None s))) as [Hr' Hfl'].
    { intros i Hi. rewrite Hfl, outcome_drop. apply Hok. lia. }
    split; [exact Hr'|]. rewrite Hfl', Hfl, drop_drop. reflexivity.
Qed.

Lemma storeUpdate_ok (key : gjson.Key) (update : json) (offset : Z) (s : State) :
  (forall i, (i < callsOfUpdate update)%nat -> outcome (faults (world s)) i = None) ->
  let r := storeUpdate key update (offset, None) s in
  fst r = ((Z.max offset (wrap_u64 (upstreamIDOf update + 1)), None), true) /\
  faults (world (snd r)) = drop (callsOfUpdate update) (faults (world s)).
Proof.
  intros Hok. cbv zeta. unfold storeUpdate, ForEach. rewrite bind_run.
  destruct (members_ok (gjson.Uint (gjson.Get ["update_id"] (Some update)))
              (gjson.entries (Some update)) s Hok) as [Hr Hfl].
  cbn [fst snd] in *. rewrite Hr. split; [reflexivity | exact Hfl].
Qed.

Lemma batch_ok (l : list (gjson.Key * json)) :
  forall offset s,
    (forall i, (i < callsOfBatch (map snd l))%nat ->
               outcome (faults (world s)) i = None) ->
    let r := iterate storeUpdate l (offset, None) s in
    fst r = (offsetAfter offset (map snd l), None) /\
    faults (world (snd r)) = drop (callsOfBatch (map snd l)) (faults (world s)).
Proof.
  unfold callsOfBatch.
  induction l as [|[key update] rest IH]; intros offset s Hok; cbv zeta.
  - split; reflexivity.
  - cbn [iterate map snd] in *. rewrite list_sum_cons in *. rewrite bind_run.
    destruct (storeUpdate_ok key update offset s) as [Hr Hfl].
    { intros i Hi. apply Hok. lia. }
    cbn [fst snd] in Hr, Hfl. rewrite Hr. cbn [fst snd].
    match goal with
    | |- context [iterate storeUpdate rest (?o, None) ?st] =>
        destruct (IH o st) as [Hr' Hfl']
    end.
    { intros i Hi. rewrite Hfl, outcome_drop. apply Hok. lia. }
    split.
    + rewrite Hr'. reflexivity.
    + rewrite Hfl', Hfl, drop_drop. reflexivity.
Qed.

(** When the transaction opens and every insert succeeds, the turn ends on
    the offset advanced over the whole batch, whether [Commit] succeeds
    or fails. *)
Lemma storeUpdates_inserts_ok (offset : Z) (bodyJson : gjson.Result) (s : State) :
  let fl := faults (world s) in
  let calls := callsOfBatch (updatesOf bodyJson) in
  (forall i, (i < 1 + calls)%nat -> outcome fl i = None) ->
  exists ins,
    let r := storeUpdates offset bodyJson s in
    fst r = Continue (offsetAfter offset (updatesOf bodyJson)) /\
    forallb isInsert ins = true /\
    trace (world (snd r)) =
      (trace (world s) ++
         BeginTx None :: ins ++
         Commit (outcome fl (1 + calls)) :: NotifyUpdates ::
         match outcome fl (1 + calls) with
         | Some e => [Log (LogFailedToStoreUpdates e);
                      Sleep (nextRetryInterval (client s))]
         | None => []
         end)%list /\
    nextRetryInterval (client (snd r)) =
      match outcome fl (1 + calls) with
      | Some _ => nextInterval (client s)
      | None => time.Second
      end.
Proof.
  intros fl calls Hok. unfold storeUpdates, Database.BeginTx.
  rewrite bind_run, storage_run. fold fl.
  assert (H0 : outcome fl 0 = None) by (apply Hok; lia).
  rewrite H0. cbn [fst snd]. rewrite bind_run.
  unfold ForEach.
  match goal with
  | |- context [iterate storeUpdate ?l (offset, None) ?st] =>
      destruct (batch_ok l offset st) as [Hr Hfl];
      [ | destruct (inserts_batch (gjson.Get ["result"] bodyJson) offset st)
            as (ins & Hc & Hn & Ht & Hi & _ & _) ]
  end.
  { intros i Hi. cbn [world faults]. fold fl.
    change (tail fl) with (drop 1 fl). rewrite outcome_drop. apply Hok.
    fold (updatesOf bodyJson) in Hi. fold calls in Hi. lia. }
  unfold ForEach in *. fold (updatesOf bodyJson) in Hr, Hfl. fold calls in Hfl.
  cbn [world faults client trace now] in *.
  change (tail fl) with (drop 1 fl) in *. rewrite drop_drop in Hfl.
  exists ins. cbv zeta. rewrite Hr. cbn [fst snd].
  unfold Tx.Commit, Database.NotifyUpdates.
  rewrite bind_run, storage_run, Hfl, outcome_drop, Nat.add_0_r. cbn [fst snd].
  rewrite bind_run, emit_run. cbn [fst snd].
  destruct (outcome fl (1 + calls)) as [e|].
  - rewrite log_sleep_then_continue, backoff_run.
    cbn [fst snd withEvents client world trace nextRetryInterval].
    rewrite Ht, Hc. repeat split; [exact Hi|].
    rewrite <- !app_assoc. reflexivity.
  - rewrite bind_run, resetRetry_run.
    cbn [fst snd withEvents client world trace nextRetryInterval ret].
    rewrite Ht. repeat split; [exact Hi|].
    rewrite <- !app_assoc. reflexivity.
Qed.

(** *** The rows of a batch, whatever fails *)

Lemma isRow_not_failure (rows : list Event) :
  forallb isRow rows = true -> existsb isFailure rows = false.
Proof.
  induction rows as [|row rest IH]; [reflexivity|].
  cbn [forallb existsb]. intros H. apply andb_prop in H. destruct H as [Hrow Hrest].
  rewrite (IH Hrest), orb_false_r. unfold isRow in Hrow. unfold isFailure.
  apply andb_prop in Hrow. destruct Hrow as [_ Hnil]. rewrite Hnil. reflexivity.
Qed.

Lemma withOutcome_fails (row : Event) :
  isRow row = true -> isFailure (withOutcome (Some StorageFailure) row) = true.
Proof. destruct row; try discriminate; reflexivity. Qed.

Lemma attempted_app (a b : list Event) :
  forallb isRow a = true ->
  forall fl,
    attempted fl (a ++ b) =
      if existsb isFailure (attempted fl a) then attempted fl a
      else (attempted fl a ++ attempted (drop (length (attempted fl a)) fl) b)%list.
Proof.
  intros Ha. induction a as [|row rest IH]; intros fl; [reflexivity|].
  cbn [forallb] in Ha. apply andb_prop in Ha. destruct Ha as [Hrow Hrest].
  assert (Hcalm : isFailure row = false).
  { pose proof (isRow_not_failure [row]) as H. cbn [forallb existsb] in H.
    rewrite Hrow in H. specialize (H eq_refl). rewrite orb_false_r in H. exact H. }
  destruct fl as [|[] fl']; cbn [app attempted tail].
  - cbn [existsb length]. rewrite Hcalm. cbn [orb]. rewrite (IH Hrest []), !drop_nil.
    destruct (existsb isFailure (attempted [] rest)); reflexivity.
  - cbn [existsb]. rewrite (withOutcome_fails row Hrow). reflexivity.
  - cbn [existsb length skipn]. rewrite Hcalm. cbn [orb]. rewrite (IH Hrest fl').
    destruct (existsb isFailure (attempted fl' rest)); reflexivity.
Qed.

Lemma attempted_calm (rows : list Event) :
  forall fl, (forall i, outcome fl i = None) -> attempted fl rows = rows.
Proof.
  induction rows as [|row rest IH]; intros fl Hnone; [reflexivity|].
  destruct fl as [|[] fl']; cbn [attempted tail].
  - rewrite IH; [reflexivity|]. intros i. unfold outcome. destruct i; reflexivity.
  - specialize (Hnone 0%nat). discriminate Hnone.
  - rewrite IH; [reflexivity|]. intros i. exact (Hnone (S i)).
Qed.

Lemma rowsOfMember_isRow (upstreamID : Z) (kv : gjson.Key * json) :
  forallb isRow (rowsOfMember upstreamID kv) = true.
Proof.
  unfold rowsOfMember. destruct (String.eqb _ _); [reflexivity|].
  destruct (bool_decide _); reflexivity.
Qed.

Lemma flat_map_isRow {A : Type} (f : A -> list Event) (l : list A) :
  (forall a, forallb isRow (f a) = true) -> forallb isRow (flat_map f l) = true.
Proof.
  intros Hf. induction l as [|a rest IH]; [reflexivity|].
  cbn [flat_map]. rewrite forallb_app, Hf, IH. reflexivity.
Qed.

Lemma rowsOfUpdate_isRow (update : json) : forallb isRow (rowsOfUpdate update) = true.
Proof. apply flat_map_isRow. apply rowsOfMember_isRow. Qed.

(** One member: its rows, up to the first that fails. *)
Lemma storeMember_attempted (upstreamID : Z) (key : gjson.Key) (value : json) (s : State) :
  let fl := faults (world s) in
  let evs := attempted fl (rowsOfMember upstreamID (key, value)) in
  let failed := existsb isFailure evs in
  storeMember upstreamID key value None s =
    ((if failed then Some StorageFailure else None, negb failed),
     mkState (client s)
       (mkWorld (now (world s)) (drop (length evs) fl) (trace (world s) ++ evs))).
Proof.
  cbv zeta. destruct s as [c [t fl tr]]. cbn [client world now faults trace].
  unfold storeMember, rowsOfMember. cbn [fst snd].
  destruct (String.eqb _ _).
  - cbn. rewrite app_nil_r. reflexivity.
  - destruct (bool_decide _);
      unfold Tx.InsertMessage, Tx.InsertUpdate, storage, bind, ret;
      destruct fl as [|[] [|[] fl]]; cbn; rewrite <- ?app_assoc; reflexivity.
Qed.

(** The members of one update: the inner [ForEach]. *)
Lemma members_attempted (upstreamID : Z) (l : list (gjson.Key * json)) :
  forall s,
    let fl := faults (world s) in
    let evs := attempted fl (flat_map (rowsOfMember upstreamID) l) in
    let failed := existsb isFailure evs in
    iterate (storeMember upstreamID) l None s =
      (if failed then Some StorageFailure else None,
       mkState (client s)
         (mkWorld (now (world s)) (drop (length evs) fl) (trace (world s) ++ evs))).
Proof.
  induction l as [|[key value] rest IH]; intros s; cbv zeta.
  - destruct s as [c [t fl tr]]. cbn. rewrite app_nil_r. reflexivity.
  - cbn [iterate flat_map]. rewrite bind_run, storeMember_attempted. cbn [fst snd].
    rewrite attempted_app by apply rowsOfMember_isRow.
    destruct (existsb isFailure
                (attempted (faults (world s)) (rowsOfMember upstreamID (key, value))))
      eqn:Hfailed; cbn [negb].
    + rewrite Hfailed. reflexivity.
    + rewrite IH. cbn [client world now faults trace].
      rewrite existsb_app, Hfailed, length_app, drop_drop, <- app_assoc.
      cbn [orb]. reflexivity.
Qed.

(** One update: the outer iterator.  The offset is assigned before the
    rows are inserted. *)
Lemma storeUpdate_attempted (key : gjson.Key) (update : json) (offset : Z) (s : State) :
  let fl := faults (world s) in
  let evs := attempted fl (rowsOfUpdate update) in
  let failed := existsb isFailure evs in
  storeUpdate key update (offset, None) s =
    (((Z.max offset (wrap_u64 (upstreamIDOf update + 1)),
       if failed then Some StorageFailure else None),
      negb failed),
     mkState (client s)
       (mkWorld (now (world s)) (drop (length evs) fl) (trace (world s) ++ evs))).
Proof.
  cbv zeta. unfold storeUpdate, ForEach. cbn [fst snd].
  rewrite bind_run, members_attempted. unfold rowsOfUpdate, upstreamIDOf.
  cbn [fst snd ret].
  destruct (existsb isFailure _); reflexivity.
Qed.

(** The batch: the outer [ForEach]. *)
Lemma batch_attempted (l : list (gjson.Key * json)) :
  forall (offset : Z) (s : State),
    let fl := faults (world s) in
    let evs := attempted fl (flat_map rowsOfUpdate (map snd l)) in
    let failed := existsb isFailure evs in
    exists offset',
      iterate storeUpdate l (offset, None) s =
        ((offset', if failed then Some StorageFailure else None),
         mkState (client s)
           (mkWorld (now (world s)) (drop (length evs) fl) (trace (world s) ++ evs))).
Proof.
  induction l as [|[key update] rest IH]; intros offset s; cbv zeta.
  - exists offset. destruct s as [c [t fl tr]]. cbn. rewrite app_nil_r. reflexivity.
  - cbn [iterate flat_map map snd]. rewrite bind_run, storeUpdate_attempted. cbn [fst snd].
    rewrite attempted_app by apply rowsOfUpdate_isRow.
    destruct (existsb isFailure (attempted (faults (world s)) (rowsOfUpdate update)))
      eqn:Hfailed; cbn [negb].
    + eexists. rewrite Hfailed. reflexivity.
    + match goal with
      | |- context [iterate storeUpdate rest (?o, None) ?st] =>
          destruct (IH o st) as [offset' Hrest]
      end.
      exists offset'. rewrite Hrest. cbn [client world now faults trace].
      rewrite existsb_app, Hfailed, length_app, drop_drop, <- app_assoc.
      cbn [orb]. reflexivity.
Qed.

(** Lines 137-176 once the transaction is opened: the rows of the batch in
    upstream order up to the first that fails, then [Commit] and
    [NotifyUpdates] in every case; after a failure of an insert or of the
    commit, the log line and the backoff; otherwise the reset. *)
Lemma storeUpdates_attempted (offset : Z) (bodyJson : gjson.Result) (s : State) :
  outcome (faults (world s)) 0 = None ->
  let fl := tail (faults (world s)) in
  let ins := attempted fl (flat_map rowsOfUpdate (updatesOf bodyJson)) in
  let commitErr := outcome fl (length ins) in
  let failed := existsb isFailure ins || negb (is_nil commitErr) in
  let r := storeUpdates offset bodyJson s in
  (exists offset', fst r = Continue offset') /\
  trace (world (snd r)) =
    (trace (world s) ++ [BeginTx None] ++ ins ++ [Commit commitErr; NotifyUpdates] ++
       (if failed
        then [Log (LogFailedToStoreUpdates StorageFailure);
              Sleep (nextRetryInterval (client s))]
        else []))%list /\
  nextRetryInterval (client (snd r)) =
    (if failed then nextInterval (client s) else time.Second) /\
  faults (world (snd r)) = drop (S (length ins)) fl.
Proof.
  intros Hopen. cbv zeta. unfold storeUpdates, Database.BeginTx.
  rewrite bind_run, storage_run, Hopen. cbn [fst snd]. rewrite bind_run.
  unfold ForEach, updatesOf.
  match goal with
  | |- context [iterate storeUpdate ?l (offset, None) ?st] =>
      destruct (batch_attempted l offset st) as [offset' Hbatch]
  end.
  rewrite Hbatch. cbn [fst snd client world now faults trace].
  set (ins := attempted (tail (faults (world s))) _).
  unfold Tx.Commit, Database.NotifyUpdates.
  destruct (existsb isFailure ins) eqn:Hfailed; cbn [orb].
  - rewrite bind_run, storage_run. cbn [fst snd].
    rewrite bind_run, emit_run. cbn [fst snd].
    rewrite log_sleep_then_continue, backoff_run.
    cbn [fst snd withEvents client world trace nextRetryInterval now faults].
    rewrite outcome_drop, Nat.add_0_r.
    split; [eauto|]. split; [|split; [reflexivity|]].
    + rewrite <- !app_assoc. cbn [app]. reflexivity.
    + change (tail (drop (length ins) (tail (faults (world s)))))
        with (drop 1 (drop (length ins) (tail (faults (world s))))).
      rewrite drop_drop. f_equal. lia.
  - rewrite bind_run, storage_run. cbn [fst snd].
    rewrite bind_run, emit_run. cbn [fst snd withEvents client world trace now faults].
    rewrite outcome_drop, Nat.add_0_r.
    destruct (outcome (tail (faults (world s))) (length ins)) as [e|] eqn:Hcommit;
      cbn [is_nil negb].
    + assert (e = StorageFailure) as ->.
      { unfold outcome in Hcommit. destruct (nth _ _ false); congruence. }
      rewrite log_sleep_then_continue, backoff_run.
      cbn [fst snd withEvents client world trace nextRetryInterval now faults].
      split; [eauto|]. split; [|split; [reflexivity|]].
      * rewrite <- !app_assoc. cbn [app]. reflexivity.
      * change (tail (drop (length ins) (tail (faults (world s)))))
          with (drop 1 (drop (length ins) (tail (faults (world s))))).
        rewrite drop_drop. f_equal. lia.
    + rewrite bind_run, resetRetry_run.
      cbn [fst snd withEvents client world trace nextRetryInterval now faults ret].
      split; [eauto|]. split; [|split; [reflexivity|]].
      * rewrite <- !app_assoc. cbn [app]. reflexivity.
      * change (tail (drop (length ins) (tail (faults (world s)))))
          with (drop 1 (drop (length ins) (tail (faults (world s))))).
        rewrite drop_drop. f_equal. lia.
Qed.

(* ===================================================================== *)
(** ** [StartPolling]: one turn of the loop *)
(* ===================================================================== *)

Lemma poll_run (offset : Z) (reply : Reply) (s : State) :
  let url := getUpdatesURL (conf (client s)) offset in
  let req := Log (LogRequest "GET" url) in
  let sent := Do (now (world s)) "GET" url [("User-Agent", [UserAgent])] in
  poll offset reply s =
    match reply with
    | RequestNotBuilt => (Return errSendRequest, withEvents s [req])
    | NoResponse =>
        (Continue offset, backoff s [req; sent; Log LogUpstreamHTTPRequestError])
    | Response status body =>
        if (400 <=? status) && (status <? 500) then
          (Return (errHTTPStatus status),
           withEvents s [req; sent; Log (LogUpstreamServerReturnedError status)])
        else if negb ((200 <=? status) && (status <? 300)) then
          (Continue offset,
           backoff s [req; sent; Log (LogUpstreamServerReturnedError status)])
        else
          match body with
          | None => (Continue offset, backoff s [req; sent; Log LogHTTPReadError])
          | Some bodyJson =>
              if negb (gjson.is_True (gjson.Get ["ok"] bodyJson)) then
                (Continue offset,
                 backoff s
                   [req; sent;
                    Log (LogUpstreamError (gjson.Get ["error_code"] bodyJson)
                           (gjson.Get ["description"] bodyJson))])
              else storeUpdates offset bodyJson (withEvents s [req; sent])
          end
    end.
Proof.
  cbv zeta. destruct s as [c [t fl tr]]. destruct reply as [| |status body].
  - reflexivity.
  - unfold backoff, withEvents. cbn. rewrite <- !app_assoc. reflexivity.
  - unfold poll. rewrite !bind_run. cbn [getClient log_Println emit time_Now fst snd
      client world now faults trace].
    destruct (Z.leb_spec 400 status), (Z.ltb_spec status 500),
      (Z.leb_spec 200 status), (Z.ltb_spec status 300);
      cbn [andb negb]; try lia;
      rewrite ?bind_run;
      try (unfold backoff, withEvents; cbn; rewrite <- !app_assoc; reflexivity).
    destruct body as [bodyJson|].
    + cbn [ret fst snd]. destruct (negb _).
      * unfold logUpstreamError. unfold backoff, withEvents. cbn.
        rewrite <- !app_assoc. reflexivity.
      * unfold withEvents. cbn. rewrite <- !app_assoc. reflexivity.
    + unfold backoff, withEvents. cbn. rewrite <- !app_assoc. reflexivity.
Qed.

Lemma backsOff_backoff (s : State) (pre : list Event) (line : LogLine) (offset : Z) :
  forallb (fun e => negb (isStorageCall e)) pre = true ->
  backsOff s line offset (Continue offset, backoff s (pre ++ [Log line])).
Proof.
  intros Hpre. unfold backsOff. rewrite backoff_run. cbn [fst snd client world trace
    nextRetryInterval]. repeat split.
  exists pre. split; [|exact Hpre]. rewrite <- !app_assoc. reflexivity.
Qed.

Ltac status_cases status :=
  destruct (Z.leb_spec 400 status), (Z.ltb_spec status 500),
    (Z.leb_spec 200 status), (Z.ltb_spec status 300);
  cbn [andb negb]; try lia.

Lemma poll_stores_begin (offset : Z) (bodyJson : gjson.Result) (s : State) (pre : list Event) :
  exists rest,
    trace (world (snd (storeUpdates offset bodyJson (withEvents s pre)))) =
      (trace (world s) ++ pre ++ [BeginTx (outcome (faults (world s)) 0)] ++ rest)%list.
Proof.
  destruct (outcome (faults (world s)) 0) as [e|] eqn:Hopen.
  - rewrite storeUpdates_not_opened
      by (cbn [withEvents world faults]; rewrite Hopen; discriminate).
    rewrite backoff_run. cbn [snd withEvents world trace client faults].
    assert (e = StorageFailure) as ->.
    { unfold outcome in Hopen. destruct (nth 0 _ false); congruence. }
    eexists. rewrite <- !app_assoc. cbn [app]. reflexivity.
  - destruct (storeUpdates_opened offset bodyJson (withEvents s pre))
      as (ins & commitErr & post & offset' & _ & Ht & _); [exact Hopen|].
    rewrite Ht. cbn [withEvents world trace].
    eexists. rewrite <- !app_assoc. cbn [app]. reflexivity.
Qed.

(** C4.  One turn of the Ingestor classifies the outcome of [getUpdates]:
    a transport failure, a 5xx status (as any status outside 2xx and 4xx)
    or a body that cannot be read is logged, followed by
    [sleepUntilRetry], and the loop continues with the same offset; a 4xx
    status ends the loop with an error; a 2xx status whose body has [ok]
    other than [true] is logged, followed by [sleepUntilRetry]; only a 2xx
    with [ok == true] reaches the storage.  There the turn opens a
    transaction and, once it is opened, inserts the rows of the batch in
    upstream order ([InsertMessage] for the cached kinds, [InsertUpdate]
    for every member but [update_id]) up to the first insert that fails,
    commits and notifies; it resets the retry interval exactly when no
    insert and not the commit failed, and otherwise logs and backs off. *)
Theorem poll_classification (offset : Z) (s : State) :
  let url := getUpdatesURL (conf (client s)) offset in
  let req := Log (LogRequest "GET" url) in
  let sent := Do (now (world s)) "GET" url [("User-Agent", [UserAgent])] in
  let fl := faults (world s) in
  backsOff s LogUpstreamHTTPRequestError offset (poll offset NoResponse s) /\
  (forall status body,
     500 <= status < 600 ->
     backsOff s (LogUpstreamServerReturnedError status) offset
       (poll offset (Response status body) s)) /\
  (forall status body,
     ~ 200 <= status < 300 -> ~ 400 <= status < 500 ->
     backsOff s (LogUpstreamServerReturnedError status) offset
       (poll offset (Response status body) s)) /\
  (forall status,
     200 <= status < 300 ->
     backsOff s LogHTTPReadError offset (poll offset (Response status None) s)) /\
  (forall status body,
     400 <= status < 500 ->
     poll offset (Response status body) s =
       (Return (errHTTPStatus status),
        withEvents s [req; sent; Log (LogUpstreamServerReturnedError status)])) /\
  (forall status bodyJson,
     200 <= status < 300 ->
     gjson.Get ["ok"] bodyJson <> Some JTrue ->
     backsOff s
       (LogUpstreamError (gjson.Get ["error_code"] bodyJson)
          (gjson.Get ["description"] bodyJson))
       offset (poll offset (Response status (Some bodyJson)) s)) /\
  (forall status bodyJson,
     200 <= status < 300 ->
     gjson.Get ["ok"] bodyJson = Some JTrue ->
     let r := poll offset (Response status (Some bodyJson)) s in
     let rows := flat_map rowsOfUpdate (updatesOf bodyJson) in
     (exists rest,
        trace (world (snd r)) =
          (trace (world s) ++ [req; sent; BeginTx (outcome fl 0)] ++ rest)%list) /\
     (outcome fl 0 = None ->
        let ins := attempted (tail fl) rows in
        let commitErr := outcome (tail fl) (length ins) in
        let failed := existsb isFailure ins || negb (is_nil commitErr) in
        trace (world (snd r)) =
          (trace (world s) ++
             [req; sent; BeginTx None] ++ ins ++ [Commit commitErr; NotifyUpdates] ++
             (if failed
              then [Log (LogFailedToStoreUpdates StorageFailure);
                    Sleep (nextRetryInterval (client s))]
              else []))%list /\
        (exists offset', fst r = Continue offset') /\
        nextRetryInterval (client (snd r)) =
          (if failed then nextInterval (client s) else time.Second)) /\
     ((forall i, outcome fl i = None) ->
        trace (world (snd r)) =
          (trace (world s) ++
             [req; sent; BeginTx None] ++ rows ++ [Commit None; NotifyUpdates])%list /\
        fst r = Continue (offsetAfter offset (updatesOf bodyJson)) /\
        nextRetryInterval (client (snd r)) = time.Second)) /\
  (forall reply evs,
     trace (world (snd (poll offset reply s))) = (trace (world s) ++ evs)%list ->
     existsb isStorageCall evs = true ->
     exists status bodyJson,
       reply = Response status (Some bodyJson) /\
       200 <= status < 300 /\
       gjson.Get ["ok"] bodyJson = Some JTrue).
Proof.
  intros url req sent fl.
  assert (Hback : forall line,
            backsOff s line offset (Continue offset, backoff s [req; sent; Log line])).
  { intros line. apply (backsOff_backoff s [req; sent]). reflexivity. }
  split; [|split; [|split; [|split; [|split; [|split; [|split]]]]]].
  - rewrite poll_run. apply Hback.
  - intros status body Hstatus. rewrite poll_run. fold url req sent.
    status_cases status; apply Hback.
  - intros status body H2 H4. rewrite poll_run. fold url req sent.
    status_cases status; apply Hback.
  - intros status Hstatus. rewrite poll_run. fold url req sent.
    status_cases status; apply Hback.
  - intros status body Hstatus. rewrite poll_run. fold url req sent.
    status_cases status; reflexivity.
  - intros status bodyJson Hstatus Hok. rewrite poll_run. fold url req sent.
    status_cases status.
    destruct (gjson.is_True (gjson.Get ["ok"] bodyJson)) eqn:Htrue.
    { apply is_True_iff in Htrue. contradiction. }
    apply Hback.
  - intros status bodyJson Hstatus Hok r rows. subst r. rewrite poll_run.
    fold url req sent. status_cases status. rewrite Hok. cbn [gjson.is_True gjson.TypeOf negb].
    assert (Hturn : outcome fl 0 = None ->
              let ins := attempted (tail fl) rows in
              let commitErr := outcome (tail fl) (length ins) in
              let failed := existsb isFailure ins || negb (is_nil commitErr) in
              trace (world (snd (storeUpdates offset bodyJson (withEvents s [req; sent])))) =
                (trace (world s) ++
                   [req; sent; BeginTx None] ++ ins ++ [Commit commitErr; NotifyUpdates] ++
                   (if failed
                    then [Log (LogFailedToStoreUpdates StorageFailure);
                          Sleep (nextRetryInterval (client s))]
                    else []))%list /\
              (exists offset',
                 fst (storeUpdates offset bodyJson (withEvents s [req; sent]))
                 = Continue offset') /\
              nextRetryInterval
                (client (snd (storeUpdates offset bodyJson (withEvents s [req; sent])))) =
                (if failed then nextInterval (client s) else time.Second)).
    { intros Hopen.
      destruct (storeUpdates_attempted offset bodyJson (withEvents s [req; sent]) Hopen)
        as (Hflow & Htrace & Hnext & _).
      cbn [withEvents world faults client trace] in Htrace, Hnext.
      cbv zeta. split; [|split; [exact Hflow | exact Hnext]].
      rewrite Htrace, <- !app_assoc. reflexivity. }
    split; [|split].
    + destruct (poll_stores_begin offset bodyJson s [req; sent]) as [rest Hrest].
      exists rest. rewrite Hrest. reflexivity.
    + exact Hturn.
    + intros Hnone.
      destruct (Hturn (Hnone 0%nat)) as (Htrace & _ & Hnext).
      assert (Hcalm : attempted (tail fl) rows = rows).
      { apply attempted_calm. intros i. change (tail fl) with (drop 1 fl).
        rewrite outcome_drop. apply Hnone. }
      assert (Hcommit : outcome (tail fl) (length rows) = None).
      { change (tail fl) with (drop 1 fl). rewrite outcome_drop. apply Hnone. }
      assert (Hrows : existsb isFailure rows = false).
      { apply isRow_not_failure. apply flat_map_isRow. apply rowsOfUpdate_isRow. }
      rewrite Hcalm, Hcommit, Hrows in Htrace, Hnext. cbn [is_nil negb orb] in Htrace, Hnext.
      rewrite app_nil_r in Htrace.
      destruct (storeUpdates_inserts_ok offset bodyJson (withEvents s [req; sent]))
        as (ins & Hflow & _).
      { intros i _. apply Hnone. }
      split; [exact Htrace|]. split; [exact Hflow | exact Hnext].
  - intros reply evs Htrace Hstore. rewrite poll_run in Htrace. fold url req sent in Htrace.
    destruct reply as [| |status body].
    + cbn [snd withEvents world trace] in Htrace. apply app_inv_head in Htrace.
      subst evs. discriminate Hstore.
    + rewrite backoff_run in Htrace. cbn [snd world trace] in Htrace.
      apply app_inv_head in Htrace. subst evs. discriminate Hstore.
    + revert Htrace. status_cases status; intros Htrace;
        try (rewrite ?backoff_run in Htrace; cbn [snd withEvents world trace] in Htrace;
             apply app_inv_head in Htrace; subst evs; discriminate Hstore).
      destruct body as [bodyJson|].
      2:{ rewrite backoff_run in Htrace. cbn [snd world trace] in Htrace.
          apply app_inv_head in Htrace. subst evs. discriminate Hstore. }
      destruct (gjson.is_True (gjson.Get ["ok"] bodyJson)) eqn:Htrue; cbn [negb] in Htrace.
      * exists status, bodyJson. split; [reflexivity|]. split; [lia|].
        apply is_True_iff. exact Htrue.
      * rewrite backoff_run in Htrace. cbn [snd world trace] in Htrace.
        apply app_inv_head in Htrace. subst evs. discriminate Hstore.
Qed.

Lemma poll_classification_witness :
  fst (poll 42 (Response 502 None) (sampleState [])) = Continue 42 /\
  fst (poll 42 (Response 401 None) (sampleState [])) = Return (errHTTPStatus 401) /\
  (* every call succeeds: the three rows of the batch, then the reset *)
  (let r := poll 0 (Response 200 (Some (okBody (JArray [sampleUpdate40; sampleUpdate41]))))
              (sampleState []) in
   fst r = Continue 42 /\
   skipn 2 (trace (world (snd r))) =
     [BeginTx None;
      InsertMessage (Some sampleMessage) None;
      InsertUpdate 40 "message" (Some sampleMessage) None;
      InsertUpdate 41 "callback_query" (Some (JObject [("id", JString "q")])) None;
      Commit None; NotifyUpdates]) /\
  (* the second insert fails: update 41 is not attempted, the turn backs off *)
  (let r := poll 0 (Response 200 (Some (okBody (JArray [sampleUpdate40; sampleUpdate41]))))
              (sampleState [false; false; true]) in
   skipn 2 (trace (world (snd r))) =
     [BeginTx None;
      InsertMessage (Some sampleMessage) None;
      InsertUpdate 40 "message" (Some sampleMessage) (Some StorageFailure);
      Commit None; NotifyUpdates;
      Log (LogFailedToStoreUpdates StorageFailure);
      Sleep (1 * time.Second)] /\
   nextRetryInterval (client (snd r)) = 2 * time.Second).
Proof.
  split; [|split; [|split]].
  - pose proof (poll_classification 42 (sampleState [])) as H. cbn zeta in H.
    destruct H as (_ & H5 & _).
    destruct (H5 502 None ltac:(lia)) as (Hflow & _). exact Hflow.
  - pose proof (poll_classification 42 (sampleState [])) as H. cbn zeta in H.
    destruct H as (_ & _ & _ & _ & H4 & _).
    rewrite (H4 401 None ltac:(lia)). reflexivity.
  - pose proof (poll_classification 0 (sampleState [])) as H. cbn zeta in H.
    destruct H as (_ & _ & _ & _ & _ & _ & H2 & _).
    destruct (H2 200 (okBody (JArray [sampleUpdate40; sampleUpdate41]))
                ltac:(lia) eq_refl) as (_ & _ & Hok).
    destruct Hok as (Htrace & Hflow & _).
    + intros i. unfold outcome. cbn [sampleState world faults].
      destruct i; reflexivity.
    + cbv zeta. split; [exact Hflow|]. exact (f_equal (skipn 2) Htrace).
  - pose proof (poll_classification 0 (sampleState [false; false; true])) as H.
    cbn zeta in H. destruct H as (_ & _ & _ & _ & _ & _ & H2 & _).
    destruct (H2 200 (okBody (JArray [sampleUpdate40; sampleUpdate41]))
                ltac:(lia) eq_refl) as (_ & Hturn & _).
    destruct (Hturn eq_refl) as (Htrace & _ & Hnext).
    cbv zeta. split; [exact (f_equal (skipn 2) Htrace) | exact Hnext].
Defined.

(* ===================================================================== *)
(** ** The upstream offset *)
(* ===================================================================== *)

(** C1 as stated fails: the stored batch holds update 40, every insert
    succeeds and [Commit] fails; the next [getUpdates] request nevertheless
    carries [offset=41], whereas the request before the failed batch
    carried no offset. *)
Lemma StartPolling_offset_advances_despite_failed_commit :
  let s := sampleState [false; false; false; true] in
  let r := StartPolling [Response 200 (Some (okBody (JArray [sampleUpdate40])));
                         NoResponse] s in
  In (Commit (Some StorageFailure)) (trace (world (snd r))) /\
  requestsOf (trace (world (snd r))) =
    ["https://api.telegram.org/botTOKEN/getUpdates?timeout=60&allowed_updates=%5B%5D";
     "https://api.telegram.org/botTOKEN/getUpdates?offset=41&timeout=60&allowed_updates=%5B%5D"] /\
  fst r = inl 41.
Proof.
  vm_compute. split; [|split; reflexivity].
  do 5 right. left. reflexivity.
Qed.

(** C1, as the code has it.  For a [getUpdates] response that the Ingestor
    stores (2xx, [ok == true]): the offset becomes
    [max(offset, update_id + 1)] when an update is visited, before its rows
    are inserted and whatever the storage answers; if the transaction
    cannot be opened the offset is unchanged; if the transaction opens and
    every insert succeeds, the turn ends with the offset advanced over the
    whole batch whether [Commit] succeeds or fails, and the loop goes on
    with that offset. *)
Theorem poll_offset_advances_at_visit (offset status : Z) (bodyJson : gjson.Result)
    (s : State) :
  200 <= status < 300 ->
  gjson.Get ["ok"] bodyJson = Some JTrue ->
  let fl := faults (world s) in
  let updates := updatesOf bodyJson in
  let calls := callsOfBatch updates in
  let reply := Response status (Some bodyJson) in
  (forall key update vars s1,
     fst (fst (fst (storeUpdate key update vars s1))) =
       Z.max (fst vars) (wrap_u64 (upstreamIDOf update + 1))) /\
  (outcome fl 0 <> None -> fst (poll offset reply s) = Continue offset) /\
  ((forall i, (i < 1 + calls)%nat -> outcome fl i = None) ->
     fst (poll offset reply s) = Continue (offsetAfter offset updates) /\
     In (Commit (outcome fl (1 + calls))) (trace (world (snd (poll offset reply s)))) /\
     forall rest,
       polling offset (reply :: rest) s =
         polling (offsetAfter offset updates) rest (snd (poll offset reply s))).
Proof.
  intros Hstatus Hok fl updates calls reply.
  assert (Hpoll : poll offset reply s =
            storeUpdates offset bodyJson
              (withEvents s
                 [Log (LogRequest "GET" (getUpdatesURL (conf (client s)) offset));
                  Do (now (world s)) "GET" (getUpdatesURL (conf (client s)) offset)
                    [("User-Agent", [UserAgent])]])).
  { subst reply. rewrite poll_run. status_cases status. rewrite Hok. reflexivity. }
  split; [|split].
  - intros key update vars s1. apply storeUpdate_offset.
  - intros Hopen. rewrite Hpoll, storeUpdates_not_opened by exact Hopen. reflexivity.
  - intros Hins. rewrite Hpoll.
    match goal with
    | |- context [storeUpdates offset bodyJson ?st] =>
        destruct (storeUpdates_inserts_ok offset bodyJson st)
          as (ins & Hflow & _ & Htrace & _); [exact Hins|]
    end.
    cbn [withEvents world faults] in Htrace. fold fl updates calls in Htrace, Hflow.
    split; [exact Hflow|]. split.
    + rewrite Htrace. apply in_or_app. right. right. apply in_or_app. right.
      left. reflexivity.
    + intros rest. cbn [polling]. rewrite bind_run, Hpoll, Hflow. reflexivity.
Qed.

Lemma poll_offset_advances_at_visit_witness :
  let body := okBody (JArray [sampleUpdate40; sampleUpdate41]) in
  fst (poll 0 (Response 200 (Some body))
         (sampleState [false; false; false; false; true])) = Continue 42 /\
  fst (poll 0 (Response 200 (Some body))
         (sampleState [false; false; false; false; false])) = Continue 42.
Proof.
  assert (Hboth : forall commitFails : bool,
    fst (poll 0 (Response 200 (Some (okBody (JArray [sampleUpdate40; sampleUpdate41]))))
           (sampleState [false; false; false; false; commitFails])) = Continue 42).
  { intros commitFails.
    pose proof (poll_offset_advances_at_visit 0 200
                  (okBody (JArray [sampleUpdate40; sampleUpdate41]))
                  (sampleState [false; false; false; false; commitFails])
                  ltac:(lia) eq_refl) as H.
    cbn zeta in H. destruct H as (_ & _ & H).
    destruct H as (Hflow & _).
    - intros i Hi. unfold outcome. cbn [sampleState world faults].
      change (callsOfBatch _) with 3%nat in Hi.
      do 4 (destruct i as [|i]; [reflexivity|]). lia.
    - exact Hflow. }
  split; apply Hboth.
Defined.

(* ===================================================================== *)
(** ** The notification of the consumers *)
(* ===================================================================== *)

(** C7 as stated fails when the transaction cannot be opened: the turn is
    an attempt to store the batch (it is logged as "Failed to store
    updates:") and it ends without any call of [NotifyUpdates]. *)
Lemma poll_no_notify_when_transaction_not_opened :
  let s := sampleState [true] in
  let r := poll 0 (Response 200 (Some (okBody (JArray [sampleUpdate40])))) s in
  trace (world (snd r)) =
    [Log (LogRequest "GET"
            "https://api.telegram.org/botTOKEN/getUpdates?timeout=60&allowed_updates=%5B%5D");
     Do 1000 "GET"
       "https://api.telegram.org/botTOKEN/getUpdates?timeout=60&allowed_updates=%5B%5D"
       [("User-Agent", [UserAgent])];
     BeginTx (Some StorageFailure);
     Log (LogFailedToStoreUpdates StorageFailure);
     Sleep 1000000000] /\
  existsb isNotify (trace (world (snd r))) = false.
Proof. vm_compute. split; reflexivity. Qed.

(** C7, as the code has it.  In every turn of the Ingestor whose
    transaction is opened, [NotifyUpdates] is called exactly once, right
    after [Commit], whatever the inserts and the commit returned: the
    events of the turn are the request, [BeginTx], inserts only, [Commit],
    [NotifyUpdates], and then either nothing or the log line and the sleep
    of the backoff.  When the transaction cannot be opened the turn calls
    neither [Commit] nor [NotifyUpdates]. *)
Theorem poll_notifies_after_commit (offset status : Z) (bodyJson : gjson.Result)
    (s : State) :
  200 <= status < 300 ->
  gjson.Get ["ok"] bodyJson = Some JTrue ->
  let r := poll offset (Response status (Some bodyJson)) s in
  let url := getUpdatesURL (conf (client s)) offset in
  let req := Log (LogRequest "GET" url) in
  let sent := Do (now (world s)) "GET" url [("User-Agent", [UserAgent])] in
  (outcome (faults (world s)) 0 = None ->
     exists ins commitErr post,
       trace (world (snd r)) =
         (trace (world s) ++
            [req; sent; BeginTx None] ++ ins ++
            [Commit commitErr; NotifyUpdates] ++ post)%list /\
       forallb isInsert ins = true /\
       (post = [] \/
        post = [Log (LogFailedToStoreUpdates StorageFailure);
                Sleep (nextRetryInterval (client s))])) /\
  (outcome (faults (world s)) 0 <> None ->
     trace (world (snd r)) =
       (trace (world s) ++
          [req; sent; BeginTx (Some StorageFailure);
           Log (LogFailedToStoreUpdates StorageFailure);
           Sleep (nextRetryInterval (client s))])%list).
Proof.
  intros Hstatus Hok r url req sent.
  assert (Hpoll : r = storeUpdates offset bodyJson (withEvents s [req; sent])).
  { subst r. rewrite poll_run. status_cases status. rewrite Hok. reflexivity. }
  rewrite Hpoll. split.
  - intros Hopen.
    destruct (storeUpdates_opened offset bodyJson (withEvents s [req; sent]))
      as (ins & commitErr & post & offset' & _ & Ht & Hi & _ & _ & _ & Hend);
      [exact Hopen|].
    exists ins, commitErr, post. split; [|split].
    + rewrite Ht. cbn [withEvents world trace]. rewrite <- !app_assoc. reflexivity.
    + exact Hi.
    + destruct Hend as [(_ & _ & -> & _) | (-> & _)]; [left | right]; reflexivity.
  - intros Hfail. rewrite storeUpdates_not_opened by exact Hfail.
    rewrite backoff_run. cbn [snd withEvents world trace client].
    rewrite <- !app_assoc. reflexivity.
Qed.

Lemma poll_notifies_after_commit_witness :
  let body := okBody (JArray [sampleUpdate40; sampleUpdate41]) in
  (* the second insert fails *)
  let r := poll 0 (Response 200 (Some body)) (sampleState [false; false; true]) in
  exists ins commitErr post,
    skipn 2 (trace (world (snd r))) =
      (BeginTx None :: ins ++ [Commit commitErr; NotifyUpdates] ++ post)%list /\
    forallb isInsert ins = true.
Proof.
  pose proof (poll_notifies_after_commit 0 200
                (okBody (JArray [sampleUpdate40; sampleUpdate41]))
                (sampleState [false; false; true]) ltac:(lia) eq_refl) as H.
  cbn zeta in H. destruct H as [H _].
  destruct H as (ins & commitErr & post & Htrace & Hins & _); [reflexivity|].
  exists ins, commitErr, post. split; [|exact Hins].
  exact (f_equal (skipn 2) Htrace).
Defined.

(* ===================================================================== *)
(** ** Storage failures *)
(* ===================================================================== *)

Lemma failuresLogged_app (a b : list Event) :
  failuresLogged a = true -> failuresLogged b = true -> failuresLogged (a ++ b) = true.
Proof.
  intros Ha Hb. induction a as [|e rest IH]; [exact Hb|].
  cbn [failuresLogged app] in *. destruct (storageError e).
  - destruct rest as [|[[]| | | | | | | | | |] rest']; try discriminate Ha.
    cbn [app]. apply IH. exact Ha.
  - apply IH. exact Ha.
Qed.

Lemma failuresLogged_call (e : Event) (err : option error) :
  storageError e = err -> failuresLogged (e :: failureLine err) = true.
Proof.
  intros He. cbn [failuresLogged]. rewrite He. destruct err; reflexivity.
Qed.

(** C2 as stated fails for the echo processors, which do not give up the
    injection after a storage failure: here [InsertMessage] fails, and the
    processor goes on to insert the local update and to commit it. *)
Lemma processEchoMessage_goes_on_after_failure :
  let s := sampleState [false; true] in
  trace (world (snd (processEchoMessage (okBody sampleMessage) s))) =
    [BeginTx None;
     InsertMessage (Some sampleMessage) (Some StorageFailure);
     Log (LogFailedToStoreUpdates StorageFailure);
     InsertLocalUpdate "message" (Some sampleMessage) None;
     Commit None;
     NotifyUpdates].
Proof. vm_compute. reflexivity. Qed.

Lemma echo_transaction_logged (updateType : string) (message : gjson.Result)
    (fl : list bool) :
  let evs :=
    (BeginTx (outcome fl 0) :: failureLine (outcome fl 0) ++
     InsertMessage message (outcome fl 1) :: failureLine (outcome fl 1) ++
     InsertLocalUpdate updateType message (outcome fl 2) :: failureLine (outcome fl 2) ++
     Commit (outcome fl 3) :: failureLine (outcome fl 3) ++
     [NotifyUpdates])%list in
  failuresLogged evs = true /\ last evs = Some NotifyUpdates.
Proof.
  cbv zeta.
  destruct (outcome fl 0), (outcome fl 1), (outcome fl 2), (outcome fl 3);
    split; reflexivity.
Qed.

Lemma echoArrayItem_run (key : gjson.Key) (message : json) (s : State) :
  let fl := faults (world s) in
  let r := echoArrayItem key message tt s in
  fst r = (tt, true) /\
  trace (world (snd r)) =
    (trace (world s) ++
       InsertMessage (Some message) (outcome fl 0) :: failureLine (outcome fl 0) ++
       InsertLocalUpdate "message" (Some message) (outcome fl 1)
         :: failureLine (outcome fl 1))%list.
Proof.
  cbv zeta. unfold echoArrayItem. rewrite bind_run, updateRateLimit_run.
  cbn [fst snd]. destruct s as [c [t fl tr]]. cbn [client world now faults trace].
  unfold Tx.InsertMessage, Tx.InsertLocalUpdate, logIfFailed, log_Println, storage,
    emit, bind, ret.
  destruct fl as [|[] [|[] fl]]; cbn; rewrite <- ?app_assoc; split; reflexivity.
Qed.

Lemma echoItemsEvents_drop (fl : list bool) (k : nat) (messages : list json) :
  forall i, echoItemsEvents (drop k fl) i messages = echoItemsEvents fl (k + i) messages.
Proof.
  induction messages as [|m rest IH]; intros i; [reflexivity|].
  cbn [echoItemsEvents]. rewrite !outcome_drop, IH.
  replace (k + S i)%nat with (S (k + i)) by lia.
  replace (k + S (S i))%nat with (S (S (k + i))) by lia.
  reflexivity.
Qed.

Lemma echoArrayItem_world (key : gjson.Key) (message : json) (s : State) :
  let r := echoArrayItem key message tt s in
  faults (world (snd r)) = drop 2 (faults (world s)) /\
  now (world (snd r)) = now (world s) /\
  nextRetryInterval (client (snd r)) = nextRetryInterval (client s) /\
  conf (client (snd r)) = conf (client s).
Proof.
  cbv zeta. unfold echoArrayItem. rewrite bind_run, updateRateLimit_run.
  cbn [fst snd]. destruct s as [c [t fl tr]]. cbn [client world now faults trace].
  unfold Tx.InsertMessage, Tx.InsertLocalUpdate, logIfFailed, log_Println, storage,
    emit, bind, ret.
  destruct fl as [|[] [|[] fl]]; cbn; repeat split.
Qed.

Lemma echoArrayItems_run (l : list (gjson.Key * json)) :
  forall s,
    let r := iterate echoArrayItem l tt s in
    trace (world (snd r)) =
      (trace (world s) ++ echoItemsEvents (faults (world s)) 0 (map snd l))%list /\
    faults (world (snd r)) = drop (2 * length l) (faults (world s)) /\
    now (world (snd r)) = now (world s) /\
    nextRetryInterval (client (snd r)) = nextRetryInterval (client s) /\
    conf (client (snd r)) = conf (client s).
Proof.
  induction l as [|[key message] rest IH]; intros s; cbv zeta.
  - cbn. rewrite app_nil_r. repeat split.
  - cbn [iterate map snd echoItemsEvents]. rewrite bind_run.
    destruct (echoArrayItem_run key message s) as [Hr Ht].
    destruct (echoArrayItem_world key message s) as (Hfl & Hnow & Hnext & Hconf).
    rewrite Hr. cbn [fst snd].
    destruct (IH (snd (echoArrayItem key message tt s)))
      as (Ht' & Hfl' & Hnow' & Hnext' & Hconf').
    rewrite Ht', Hfl', Hnow', Hnext', Hconf', Ht, Hfl, Hnow, Hnext, Hconf.
    rewrite echoItemsEvents_drop, drop_drop.
    cbn [length]. split; [|split; [|repeat split]].
    + rewrite <- !app_assoc. cbn [app]. rewrite <- !app_assoc. reflexivity.
    + f_equal. lia.
Qed.

Lemma echoArrayItems_logged (l : list (gjson.Key * json)) :
  forall s, exists evs,
    trace (world (snd (iterate echoArrayItem l tt s))) = (trace (world s) ++ evs)%list /\
    failuresLogged evs = true.
Proof.
  induction l as [|[key message] rest IH]; intros s.
  - exists []. cbn. rewrite app_nil_r. auto.
  - cbn [iterate]. rewrite bind_run.
    destruct (echoArrayItem_run key message s) as [Hr Ht].
    rewrite Hr. cbn [fst snd].
    destruct (IH (snd (echoArrayItem key message tt s))) as (evs & Ht' & Hl).
    eexists. split.
    + rewrite Ht', Ht, <- app_assoc. reflexivity.
    + apply failuresLogged_app; [|exact Hl].
      change (?a :: ?x ++ ?b :: ?y)%list with ((a :: x) ++ (b :: y))%list.
      apply failuresLogged_app; apply failuresLogged_call; reflexivity.
Qed.

(** An echo processor logs every storage call that fails and, once a call
    has failed, still runs to its end. *)
Lemma runEcho_failures_logged (p : EchoProcessor) (body : Body) (s : State) :
  exists evs,
    trace (world (snd (runEcho p body s))) = (trace (world s) ++ evs)%list /\
    failuresLogged evs = true /\
    (existsb isFailure evs = true -> last evs = Some NotifyUpdates).
Proof.
  destruct p; cbn [runEcho].
  - unfold processEchoMessage. destruct (negb _).
    { eexists. split; [reflexivity|]. split; [reflexivity | discriminate]. }
    rewrite bind_run, updateRateLimit_run. cbn [fst snd].
    rewrite echo_transaction_run. cbn [snd world trace faults].
    destruct (echo_transaction_logged "message" (gjson.Get ["result"] body)
                (faults (world s))) as [Hl Hlast].
    eexists. split; [reflexivity|]. split; [exact Hl | intros _; exact Hlast].
  - unfold processEchoMessageEdit. destruct (negb _).
    { eexists. split; [reflexivity|]. split; [reflexivity | discriminate]. }
    destruct (gjson.is_True _).
    { exists []. cbn. rewrite app_nil_r. split; [reflexivity|].
      split; [reflexivity | discriminate]. }
    rewrite echo_transaction_run. cbn [snd world trace faults].
    destruct (echo_transaction_logged "edited_message" (gjson.Get ["result"] body)
                (faults (world s))) as [Hl Hlast].
    eexists. split; [reflexivity|]. split; [exact Hl | intros _; exact Hlast].
  - unfold processEchoMessageArray. destruct (negb _).
    { eexists. split; [reflexivity|]. split; [reflexivity | discriminate]. }
    unfold Database.BeginTx, Tx.Commit, Database.NotifyUpdates, ForEach.
    rewrite bind_run, storage_run. cbn [fst snd].
    rewrite bind_run, logIfFailed_run. cbn [fst snd client world now faults trace].
    rewrite bind_run.
    match goal with
    | |- context [iterate echoArrayItem ?l tt ?st] =>
        destruct (echoArrayItems_logged l st) as (items & Ht & Hl);
        set (s2 := snd (iterate echoArrayItem l tt st)) in *
    end.
    cbn [world trace] in Ht.
    rewrite bind_run, storage_run. cbn [fst snd].
    rewrite bind_run, logIfFailed_run. cbn [fst snd client world now faults trace].
    rewrite emit_run. cbn [snd withEvents world trace].
    rewrite Ht.
    exists ((BeginTx (outcome (faults (world s)) 0)
               :: failureLine (outcome (faults (world s)) 0)) ++
            items ++
            (Commit (outcome (faults (world s2)) 0)
               :: failureLine (outcome (faults (world s2)) 0)) ++
            [NotifyUpdates])%list.
    split; [|split].
    + rewrite <- !app_assoc. reflexivity.
    + repeat apply failuresLogged_app; try exact Hl; try reflexivity;
        apply failuresLogged_call; reflexivity.
    + intros _. rewrite !app_assoc. apply last_snoc.
Qed.

(** The Ingestor: a turn in which a storage call fails continues the loop
    after the log line and the backoff. *)
Lemma poll_failure_backs_off (offset : Z) (reply : Reply) (s : State) :
  exists evs,
    trace (world (snd (poll offset reply s))) = (trace (world s) ++ evs)%list /\
    (existsb isFailure evs = true ->
       (exists offset', fst (poll offset reply s) = Continue offset') /\
       (exists pre,
          evs = (pre ++ [Log (LogFailedToStoreUpdates StorageFailure);
                         Sleep (nextRetryInterval (client s))])%list) /\
       nextRetryInterval (client (snd (poll offset reply s))) = nextInterval (client s)).
Proof.
  rewrite poll_run.
  set (req := Log (LogRequest "GET" (getUpdatesURL (conf (client s)) offset))).
  set (sent := Do (now (world s)) "GET" (getUpdatesURL (conf (client s)) offset)
                 [("User-Agent", [UserAgent])]).
  assert (Hquiet : forall (flow : Flow) (line : LogLine) (s' : State),
            trace (world s') =
              (trace (world s) ++ [req; sent; Log line] ++
                 [Sleep (nextRetryInterval (client s))])%list \/
            trace (world s') = (trace (world s) ++ [req; sent; Log line])%list \/
            trace (world s') = (trace (world s) ++ [req])%list ->
            exists evs,
              trace (world (snd (flow, s'))) = (trace (world s) ++ evs)%list /\
              (existsb isFailure evs = true ->
                 (exists offset', fst (flow, s') = Continue offset') /\
                 (exists pre,
                    evs = (pre ++ [Log (LogFailedToStoreUpdates StorageFailure);
                                   Sleep (nextRetryInterval (client s))])%list) /\
                 nextRetryInterval (client (snd (flow, s'))) = nextInterval (client s))).
  { intros flow line s' [H | [H | H]]; eexists; (split; [exact H|]); discriminate. }
  destruct reply as [| |status body].
  - apply (Hquiet _ LogHTTPReadError). right. right. reflexivity.
  - apply (Hquiet _ LogUpstreamHTTPRequestError). left. rewrite backoff_run. reflexivity.
  - status_cases status;
      try (apply (Hquiet _ (LogUpstreamServerReturnedError status));
           first [ left; rewrite backoff_run; reflexivity | right; left; reflexivity ]).
    destruct body as [bodyJson|].
    2:{ apply (Hquiet _ LogHTTPReadError). left. rewrite backoff_run. reflexivity. }
    destruct (negb _).
    { eapply Hquiet. left. rewrite backoff_run. reflexivity. }
    destruct (outcome (faults (world s)) 0) as [e|] eqn:Hopen.
    + rewrite storeUpdates_not_opened
        by (cbn [withEvents world faults]; rewrite Hopen; discriminate).
      rewrite backoff_run. cbn [fst snd withEvents world trace client nextRetryInterval].
      eexists. split; [rewrite <- !app_assoc; reflexivity|].
      intros _. split; [eauto|]. split; [|reflexivity].
      exists [req; sent; BeginTx (Some StorageFailure)]. reflexivity.
    + destruct (storeUpdates_opened offset bodyJson (withEvents s [req; sent]))
        as (ins & commitErr & post & offset' & Hflow & Ht & Hi & _ & _ & _ & Hend);
        [exact Hopen|].
      cbn [withEvents world trace client] in Ht, Hend.
      exists ([req; sent; BeginTx None] ++ ins ++
              [Commit commitErr; NotifyUpdates] ++ post)%list.
      split; [rewrite Ht, <- !app_assoc; reflexivity|].
      intros Hfailed. destruct Hend as [(Hnone & -> & -> & _) | (-> & Hnext)].
      * rewrite !existsb_app, Hnone in Hfailed. discriminate Hfailed.
      * split; [eauto|]. split; [|exact Hnext].
        exists ([req; sent; BeginTx None] ++ ins ++ [Commit commitErr; NotifyUpdates])%list.
        rewrite <- !app_assoc. reflexivity.
Qed.

(** What [ForwardRequest] returns once the upstream request is sent does
    not depend on the storage. *)
Lemma respond_result (suffix : string) (isFile : bool) (x : Exchange) (s : State) :
  fst (respond suffix isFile x s) =
    match response x with
    | None => Some errUpstreamRequest
    | Some _ => None
    end.
Proof.
  unfold respond. destruct (response x) as [resp|]; [|reflexivity]. cbv zeta.
  destruct (if negb isFile then echoProcessor !! suffix else None) as [p|];
    [destruct ((StatusCode resp <? 200) || (300 <=? StatusCode resp))|];
    rewrite ?copyThrough_run, ?copyAndEcho_run; try reflexivity.
  destruct (copyFails x); reflexivity.
Qed.

Lemma ForwardRequest_result_storage (r : Request) (prefix suffix : string)
    (isFile : bool) (x : Exchange) (s : State) (fl : list bool) :
  fst (ForwardRequest r prefix suffix isFile x
         (mkState (client s) (mkWorld (now (world s)) fl (trace (world s)))))
  = fst (ForwardRequest r prefix suffix isFile x s).
Proof.
  rewrite !ForwardRequest_run. cbv zeta. destruct isFile.
  - rewrite !rateWait_file. cbn [fst snd].
    destruct (negb (requestBuilt x)); [reflexivity|]. rewrite !respond_result. reflexivity.
  - rewrite !rateWait_run. cbv zeta. cbn [withEvents client world now faults trace].
    destruct (_ || _); [|destruct (ctxDone x)]; cbn [fst snd]; try reflexivity;
      (destruct (negb (requestBuilt x)); [reflexivity|]);
      rewrite !respond_result; reflexivity.
Qed.

(** C2, as the code has it.  No storage failure ends the run.  An echo
    processor makes every one of its storage calls exactly once and in
    order, whatever the calls before returned: [BeginTx], [InsertMessage],
    [InsertLocalUpdate], [Commit] for [processEchoMessage] and
    [processEchoMessageEdit]; [BeginTx], both inserts of every element,
    [Commit] for [processEchoMessageArray]; each failed call (transaction
    open, message insert, update insert, commit) is followed by its
    "Failed to store updates:" line, and [NotifyUpdates] ends the
    processor: it neither retries nor abandons the injection.  In the
    Ingestor a turn in which a storage call failed ends with one "Failed
    to store updates:" line and the sleep of the backoff, stretches the
    retry interval, and continues the loop.  What [ForwardRequest] returns
    to the HTTP handler is the same whatever the storage calls return. *)
Theorem storage_failures_are_logged_and_not_fatal :
  (forall (body : Body) (s : State),
     gjson.Get ["ok"] body = Some JTrue ->
     let fl := faults (world s) in
     let message := gjson.Get ["result"] body in
     let messages := map snd (gjson.entries message) in
     let n := length messages in
     trace (world (snd (processEchoMessage body s))) =
       (trace (world s) ++ echoTransaction fl "message" message)%list /\
     (message <> Some JTrue ->
        trace (world (snd (processEchoMessageEdit body s))) =
          (trace (world s) ++ echoTransaction fl "edited_message" message)%list) /\
     trace (world (snd (processEchoMessageArray body s))) =
       (trace (world s) ++
          BeginTx (outcome fl 0) :: failureLine (outcome fl 0) ++
          echoItemsEvents fl 1 messages ++
          Commit (outcome fl (1 + 2 * n)) :: failureLine (outcome fl (1 + 2 * n)) ++
          [NotifyUpdates])%list) /\
  (forall (p : EchoProcessor) (body : Body) (s : State),
     exists evs,
       trace (world (snd (runEcho p body s))) = (trace (world s) ++ evs)%list /\
       failuresLogged evs = true /\
       (existsb isFailure evs = true -> last evs = Some NotifyUpdates)) /\
  (forall (offset : Z) (reply : Reply) (s : State),
     exists evs,
       trace (world (snd (poll offset reply s))) = (trace (world s) ++ evs)%list /\
       (existsb isFailure evs = true ->
          (exists offset', fst (poll offset reply s) = Continue offset') /\
          (exists pre,
             evs = (pre ++ [Log (LogFailedToStoreUpdates StorageFailure);
                            Sleep (nextRetryInterval (client s))])%list) /\
          nextRetryInterval (client (snd (poll offset reply s))) =
            nextInterval (client s))) /\
  (forall (r : Request) (prefix suffix : string) (isFile : bool) (x : Exchange)
          (s : State) (fl : list bool),
     fst (ForwardRequest r prefix suffix isFile x
            (mkState (client s) (mkWorld (now (world s)) fl (trace (world s)))))
     = fst (ForwardRequest r prefix suffix isFile x s)).
Proof.
  split; [|split; [|split]]; [| | |apply ForwardRequest_result_storage].
  - intros body s Hok fl message messages n. split; [|split].
    + unfold processEchoMessage. rewrite Hok. cbn [gjson.is_True gjson.TypeOf negb].
      rewrite bind_run, updateRateLimit_run. cbn [fst snd].
      rewrite echo_transaction_run. reflexivity.
    + intros Hne. unfold processEchoMessageEdit. rewrite Hok.
      cbn [gjson.is_True gjson.TypeOf negb]. fold message.
      destruct (gjson.is_True message) eqn:Htrue.
      { apply is_True_iff in Htrue. contradiction. }
      rewrite echo_transaction_run. reflexivity.
    + unfold processEchoMessageArray. rewrite Hok. cbn [gjson.is_True gjson.TypeOf negb].
      unfold Database.BeginTx, Tx.Commit, Database.NotifyUpdates, ForEach.
      rewrite bind_run, storage_run. cbn [fst snd].
      rewrite bind_run, logIfFailed_run. cbn [fst snd client world now faults trace].
      rewrite bind_run.
      match goal with
      | |- context [iterate echoArrayItem ?l tt ?st] =>
          destruct (echoArrayItems_run l st) as (Ht & Hfl & _);
          set (s2 := snd (iterate echoArrayItem l tt st)) in *
      end.
      cbn [client world now faults trace] in Ht, Hfl.
      fold fl in Ht, Hfl. change (tail fl) with (drop 1 fl) in *.
      rewrite echoItemsEvents_drop in Ht. rewrite drop_drop in Hfl.
      fold message messages in Ht.
      assert (Hn : length (gjson.entries message) = n).
      { unfold n, messages. rewrite length_map. reflexivity. }
      fold message in Hfl. rewrite Hn in Hfl.
      rewrite bind_run, storage_run. cbn [fst snd].
      rewrite bind_run, logIfFailed_run. cbn [fst snd client world now faults trace].
      rewrite emit_run. cbn [snd withEvents client world now faults trace].
      rewrite Ht, Hfl, outcome_drop.
      replace (1 + 2 * n + 0)%nat with (1 + 2 * n)%nat by lia.
      rewrite <- !app_assoc. reflexivity.
  - intros p body s. apply runEcho_failures_logged.
  - intros offset reply s. apply poll_failure_backs_off.
Qed.

Lemma storage_failures_are_logged_and_not_fatal_witness :
  let body := okBody (JArray [sampleUpdate40; sampleUpdate41]) in
  (* the Ingestor: the first insert fails *)
  let r := poll 0 (Response 200 (Some body)) (sampleState [false; true]) in
  ((exists offset', fst r = Continue offset') /\
   nextRetryInterval (client (snd r)) = 2 * time.Second) /\
  (* an echo processor: [BeginTx] and the first insert fail, and every
     other call is made all the same *)
  trace (world (snd (processEchoMessageArray
                       (okBody (JArray [sampleMessage; sampleGroupMessage]))
                       (sampleState [true; true])))) =
    [BeginTx (Some StorageFailure); Log (LogFailedToStoreUpdates StorageFailure);
     InsertMessage (Some sampleMessage) (Some StorageFailure);
     Log (LogFailedToStoreUpdates StorageFailure);
     InsertLocalUpdate "message" (Some sampleMessage) None;
     InsertMessage (Some sampleGroupMessage) None;
     InsertLocalUpdate "message" (Some sampleGroupMessage) None;
     Commit None;
     NotifyUpdates].
Proof.
  cbv zeta. split.
  - destruct storage_failures_are_logged_and_not_fatal as (_ & _ & H & _).
    destruct (H 0 (Response 200 (Some (okBody (JArray [sampleUpdate40; sampleUpdate41]))))
                (sampleState [false; true])) as (evs & Htrace & Hfailed).
    cbn [sampleState world trace app] in Htrace. subst evs.
    destruct Hfailed as (Hflow & _ & Hnext).
    + vm_compute. reflexivity.
    + split; [exact Hflow | exact Hnext].
  - destruct storage_failures_are_logged_and_not_fatal as (H & _).
    destruct (H (okBody (JArray [sampleMessage; sampleGroupMessage]))
                (sampleState [true; true]) eq_refl) as (_ & _ & Htrace).
    exact Htrace.
Defined.

(* ===================================================================== *)
(** ** The scenarios of the specification *)
(* ===================================================================== *)

(** Echo of [sendMessage]: the body goes to the client, then the message
    is cached and injected as a [message] update, and chat 100 is cooling
    down for one second. *)
Example scenario_echo_sendMessage :
  let r := ForwardRequest (sampleRequest "100") "https://api.telegram.org/botTOKEN"
             "sendMessage" false (sampleExchange (okBody sampleMessage) false)
             (sampleState []) in
  fst r = None /\
  skipn 2 (trace (world (snd r))) =
    [WriteHeader 200 []; Copy false;
     BeginTx None;
     InsertMessage (Some sampleMessage) None;
     InsertLocalUpdate "message" (Some sampleMessage) None;
     Commit None; NotifyUpdates] /\
  chatCooldown (client (snd r)) !! 100 = Some (1000 + 1 * time.Second).
Proof. vm_compute. repeat split; reflexivity. Qed.

(** Echo of [sendMediaGroup]: two [message] updates in one transaction,
    one notification. *)
Example scenario_echo_sendMediaGroup :
  trace (world (snd (processEchoMessageArray
                       (okBody (JArray [sampleMessage; sampleMessage]))
                       (sampleState [])))) =
    [BeginTx None;
     InsertMessage (Some sampleMessage) None;
     InsertLocalUpdate "message" (Some sampleMessage) None;
     InsertMessage (Some sampleMessage) None;
     InsertLocalUpdate "message" (Some sampleMessage) None;
     Commit None; NotifyUpdates].
Proof. vm_compute. reflexivity. Qed.

(** Mixed ingest: updates 40 ([message]) and 41 ([callback_query]) give
    offset 42, two update rows and one cached message. *)
Example scenario_mixed_ingest :
  let r := StartPolling
             [Response 200 (Some (okBody (JArray [sampleUpdate40; sampleUpdate41])))]
             (sampleState []) in
  fst r = inl 42 /\
  skipn 2 (trace (world (snd r))) =
    [BeginTx None;
     InsertMessage (Some sampleMessage) None;
     InsertUpdate 40 "message" (Some sampleMessage) None;
     InsertUpdate 41 "callback_query" (Some (JObject [("id", JString "q")])) None;
     Commit None; NotifyUpdates].
Proof. vm_compute. split; reflexivity. Qed.

(** Upstream 502, then 401: the offset does not move, the retry sleeps
    1 s, and the 401 ends the loop. *)
Example scenario_502_then_401 :
  let r := StartPolling [Response 502 None; Response 401 None] (sampleState []) in
  fst r = inr (errHTTPStatus 401) /\
  List.filter (fun e => match e with Sleep _ => true | _ => false end)
    (trace (world (snd r))) = [Sleep (1 * time.Second)] /\
  requestsOf (trace (world (snd r))) =
    ["https://api.telegram.org/botTOKEN/getUpdates?timeout=60&allowed_updates=%5B%5D";
     "https://api.telegram.org/botTOKEN/getUpdates?timeout=60&allowed_updates=%5B%5D"].
Proof. vm_compute. repeat split; reflexivity. Qed.

(* ===================================================================== *)
(** ** Further properties: the echo processors *)
(* ===================================================================== *)

Lemma is_True_false (r : gjson.Result) : r <> Some JTrue -> gjson.is_True r = false.
Proof.
  intros Hne. destruct (gjson.is_True r) eqn:Htrue; [|reflexivity].
  apply is_True_iff in Htrue. contradiction.
Qed.

(** X1.  A body whose [ok] is not [true] (an upstream error, or a body
    that is not a JSON object at all) makes every echo processor log one
    "Upstream error:" line and stop: no storage call, no notification, and
    the client is left as it was. *)
Theorem runEcho_not_ok (p : EchoProcessor) (body : Body) (s : State) :
  gjson.Get ["ok"] body <> Some JTrue ->
  runEcho p body s =
    (tt,
     withEvents s
       [Log (LogUpstreamError (gjson.Get ["error_code"] body)
               (gjson.Get ["description"] body))]).
Proof.
  intros Hok. apply is_True_false in Hok.
  destruct p; cbn [runEcho];
    unfold processEchoMessage, processEchoMessageEdit, processEchoMessageArray;
    rewrite Hok; reflexivity.
Qed.

Lemma runEcho_not_ok_witness :
  runEcho EchoMessage
    (Some (JObject [("ok", JFalse); ("error_code", JNumber 429);
                    ("description", JString "Too Many Requests")]))
    (sampleState [])
  = (tt,
     withEvents (sampleState [])
       [Log (LogUpstreamError (Some (JNumber 429))
               (Some (JString "Too Many Requests")))]).
Proof. apply runEcho_not_ok. discriminate. Defined.

(** X2.  [processEchoMessage] on a body whose [ok] is [true]: the rate
    governor observes [result] first (global cooldown [now + 33333334 ns];
    per-chat cooldown when [chat.id] reads as non-zero), then one
    transaction inserts the message and the local update of kind
    ["message"], commits and notifies; the four storage calls are made in
    that order whatever each of them returns. *)
Theorem processEchoMessage_effects (body : Body) (s : State) :
  gjson.Get ["ok"] body = Some JTrue ->
  let message := gjson.Get ["result"] body in
  let fl := faults (world s) in
  let t := now (world s) in
  let chatID := gjson.Int (gjson.Get ["chat"; "id"] message) in
  let s' := snd (processEchoMessage body s) in
  trace (world s') =
    (trace (world s) ++
       BeginTx (outcome fl 0) :: failureLine (outcome fl 0) ++
       InsertMessage message (outcome fl 1) :: failureLine (outcome fl 1) ++
       InsertLocalUpdate "message" message (outcome fl 2)
         :: failureLine (outcome fl 2) ++
       Commit (outcome fl 3) :: failureLine (outcome fl 3) ++
       [NotifyUpdates])%list /\
  globalCooldown (client s') = t + 33333334 /\
  chatCooldown (client s') =
    (if chatID =? 0 then chatCooldown (client s)
     else <[chatID := t + (if chatTypeIsPrivate message
                           then time.Second else 3 * time.Second)]>
            (chatCooldown (client s))) /\
  nextRetryInterval (client s') = nextRetryInterval (client s) /\
  now (world s') = t /\
  faults (world s') = drop 4 fl.
Proof.
  intros Hok message fl t chatID s'. subst s'. unfold processEchoMessage.
  rewrite Hok. cbn [gjson.is_True gjson.TypeOf negb]. fold message.
  rewrite bind_run, updateRateLimit_run. cbn [fst snd].
  rewrite echo_transaction_run.
  cbn [snd client world now faults trace globalCooldown chatCooldown nextRetryInterval].
  fold chatID. unfold time.Add. fold t.
  repeat split.
Qed.

Lemma processEchoMessage_effects_witness :
  let s' := snd (processEchoMessage (okBody sampleGroupMessage) (sampleState [])) in
  trace (world s') =
    [BeginTx None;
     InsertMessage (Some sampleGroupMessage) None;
     InsertLocalUpdate "message" (Some sampleGroupMessage) None;
     Commit None; NotifyUpdates] /\
  chatCooldown (client s') = {[ -200 := 1000 + 3 * time.Second ]}.
Proof.
  pose proof (processEchoMessage_effects (okBody sampleGroupMessage) (sampleState [])
                eq_refl) as H.
  cbn zeta in H. destruct H as (Htrace & _ & Hchat & _).
  split; [exact Htrace | exact Hchat].
Defined.

(** X3.  [processEchoMessageArray] on a body whose [ok] is [true] uses one
    transaction for the whole array: [BeginTx] once, then for every
    element of [result], in order, [InsertMessage] and
    [InsertLocalUpdate("message", ...)], then [Commit] once and
    [NotifyUpdates] once.  A call that fails is logged and the iteration
    goes on: every element gets both of its calls.  An empty or missing
    [result] still opens, commits and notifies. *)
Theorem processEchoMessageArray_effects (body : Body) (s : State) :
  gjson.Get ["ok"] body = Some JTrue ->
  let messages := map snd (gjson.entries (gjson.Get ["result"] body)) in
  let n := length messages in
  let fl := faults (world s) in
  let s' := snd (processEchoMessageArray body s) in
  trace (world s') =
    (trace (world s) ++
       BeginTx (outcome fl 0) :: failureLine (outcome fl 0) ++
       echoItemsEvents fl 1 messages ++
       Commit (outcome fl (1 + 2 * n)) :: failureLine (outcome fl (1 + 2 * n)) ++
       [NotifyUpdates])%list /\
  faults (world s') = drop (2 + 2 * n) fl /\
  now (world s') = now (world s) /\
  nextRetryInterval (client s') = nextRetryInterval (client s).
Proof.
  intros Hok messages n fl s'. subst s'. unfold processEchoMessageArray.
  rewrite Hok. cbn [gjson.is_True gjson.TypeOf negb].
  unfold Database.BeginTx, Tx.Commit, Database.NotifyUpdates, ForEach.
  rewrite bind_run, storage_run. cbn [fst snd].
  rewrite bind_run, logIfFailed_run. cbn [fst snd client world now faults trace].
  rewrite bind_run.
  match goal with
  | |- context [iterate echoArrayItem ?l tt ?st] =>
      destruct (echoArrayItems_run l st) as (Ht & Hfl & Hnow & Hnext & _);
      set (s2 := snd (iterate echoArrayItem l tt st)) in *
  end.
  cbn [client world now faults trace] in Ht, Hfl, Hnow, Hnext.
  fold fl in Ht, Hfl. change (tail fl) with (drop 1 fl) in *.
  rewrite echoItemsEvents_drop in Ht. rewrite drop_drop in Hfl.
  fold messages in Ht.
  assert (Hn : length (gjson.entries (gjson.Get ["result"] body)) = n).
  { unfold n, messages. rewrite length_map. reflexivity. }
  rewrite Hn in Hfl.
  rewrite bind_run, storage_run. cbn [fst snd].
  rewrite bind_run, logIfFailed_run. cbn [fst snd client world now faults trace].
  rewrite emit_run. cbn [snd withEvents client world now faults trace].
  rewrite Ht, Hfl, Hnow, Hnext, outcome_drop.
  replace (1 + 2 * n + 0)%nat with (1 + 2 * n)%nat by lia.
  repeat split.
  - rewrite <- !app_assoc. reflexivity.
  - change (tail (drop (1 + 2 * n) fl)) with (drop 1 (drop (1 + 2 * n) fl)).
    rewrite drop_drop. f_equal. lia.
Qed.

Lemma processEchoMessageArray_effects_witness :
  (* the insert of the second message fails; its update is inserted all the same *)
  trace (world (snd (processEchoMessageArray
                       (okBody (JArray [sampleMessage; sampleGroupMessage]))
                       (sampleState [false; false; false; true])))) =
    [BeginTx None;
     InsertMessage (Some sampleMessage) None;
     InsertLocalUpdate "message" (Some sampleMessage) None;
     InsertMessage (Some sampleGroupMessage) (Some StorageFailure);
     Log (LogFailedToStoreUpdates StorageFailure);
     InsertLocalUpdate "message" (Some sampleGroupMessage) None;
     Commit None; NotifyUpdates].
Proof.
  pose proof (processEchoMessageArray_effects
                (okBody (JArray [sampleMessage; sampleGroupMessage]))
                (sampleState [false; false; false; true]) eq_refl) as H.
  cbn zeta in H. destruct H as (Htrace & _). exact Htrace.
Defined.

(* ===================================================================== *)
(** ** Further properties: [ForwardRequest] *)
(* ===================================================================== *)

Lemma member_of_In (k : string) (l : list string) :
  member_of k l = true <-> In k l.
Proof.
  unfold member_of. rewrite existsb_exists. split.
  - intros (x & Hin & Heq). apply String.eqb_eq in Heq. subst x. exact Hin.
  - intros Hin. exists k. split; [exact Hin | apply String.eqb_refl].
Qed.

(** X4.  The headers of the upstream request: a header of the downstream
    request is forwarded exactly when its name is none of
    [Accept-Encoding], [Content-Encoding], [Connection], [Host],
    [Proxy-Connection], [User-Agent]; the only [User-Agent] sent upstream
    is the proxy's own, and it is always sent. *)
Theorem requestHeader_spec (h : Header) (k : string) (v : list string) :
  In (k, v) (requestHeader h) <->
  (In (k, v) h /\ ~ In k requestDenied) \/ (k = "User-Agent" /\ v = [UserAgent]).
Proof.
  unfold requestHeader. rewrite in_app_iff, filter_In. cbn [fst In].
  fold requestDenied. split.
  - intros [[Hin Hdenied] | [Heq | []]].
    + left. split; [exact Hin|]. intros Hk. apply member_of_In in Hk.
      rewrite Hk in Hdenied. discriminate.
    + right. injection Heq as <- <-. auto.
  - intros [[Hin Hdenied] | [-> ->]].
    + left. split; [exact Hin|].
      destruct (member_of k requestDenied) eqn:Hk; [|reflexivity].
      apply member_of_In in Hk. contradiction.
    + right. left. reflexivity.
Qed.

(** X5.  The headers of the downstream response: a header of the upstream
    response is passed on exactly when its name is none of
    [Accept-Encoding], [Content-Encoding], [Connection],
    [Proxy-Connection]; nothing is added to them. *)
Theorem responseHeader_spec (h : Header) (k : string) (v : list string) :
  In (k, v) (responseHeader h) <-> In (k, v) h /\ ~ In k responseDenied.
Proof.
  unfold responseHeader. fold responseDenied.
  rewrite filter_In. cbn [fst]. split.
  - intros [Hin Hdenied]. split; [exact Hin|]. intros Hk. apply member_of_In in Hk.
    rewrite Hk in Hdenied. discriminate.
  - intros [Hin Hdenied]. split; [exact Hin|].
    destruct (member_of k responseDenied) eqn:Hk; [|reflexivity].
    apply member_of_In in Hk. contradiction.
Qed.

(** X6.  Requests that are not echoed never reach the store or the rate
    governor's table: on the file route, for a method without echo
    processor, or when the upstream status is outside 2xx,
    [ForwardRequest] makes no storage call and no notification and leaves
    the client, cooldowns included, as it was, whatever the body. *)
Theorem ForwardRequest_passthrough (r : Request) (prefix suffix : string)
    (isFile : bool) (x : Exchange) (s : State) :
  isFile = true \/ echoProcessor !! suffix = None \/
  (forall resp, response x = Some resp -> ~ 200 <= StatusCode resp < 300) ->
  let out := ForwardRequest r prefix suffix isFile x s in
  client (snd out) = client s /\
  faults (world (snd out)) = faults (world s) /\
  exists evs,
    trace (world (snd out)) = (trace (world s) ++ evs)%list /\
    forallb quiet evs = true.
Proof.
  intros Hcase out. subst out. rewrite ForwardRequest_run. cbv zeta.
  set (logged := Log (LogRequest (Method r) (forwardURL r prefix suffix))).
  destruct (rateWait_state r isFile x (withEvents s [logged]))
    as (Hclient & Hfaults & w & Htrace & Hquiet).
  destruct (rateWait r isFile x (withEvents s [logged])) as [cancelled s1].
  cbn [fst snd withEvents client world faults trace] in *.
  assert (Hstop : forall e : option error,
            client (snd (e, s1)) = client s /\
            faults (world (snd (e, s1))) = faults (world s) /\
            exists evs,
              trace (world (snd (e, s1))) = (trace (world s) ++ evs)%list /\
              forallb quiet evs = true).
  { intros e. cbn [snd]. repeat split; try assumption.
    exists (logged :: w). rewrite Htrace, <- app_assoc. split; [reflexivity | exact Hquiet]. }
  destruct cancelled; [apply Hstop|].
  destruct (negb (requestBuilt x)); [apply Hstop|].
  unfold respond. destruct (response x) as [resp|] eqn:Hresp.
  2:{ cbn [snd withEvents client world faults trace]. repeat split; try assumption.
      eexists. rewrite Htrace, <- !app_assoc. split; [reflexivity|].
      cbn [app forallb]. rewrite forallb_app, Hquiet. reflexivity. }
  cbv zeta.
  assert (Hthrough :
            let out := copyThrough x
                         (withEvents
                            (withEvents s1
                               [Do (now (world s1)) (Method r)
                                  (forwardURL r prefix suffix)
                                  (requestHeader (RequestHeader r))])
                            [WriteHeader (StatusCode resp)
                               (responseHeader (ResponseHeader resp))]) in
            client (snd out) = client s /\
            faults (world (snd out)) = faults (world s) /\
            exists evs,
              trace (world (snd out)) = (trace (world s) ++ evs)%list /\
              forallb quiet evs = true).
  { cbv zeta. rewrite copyThrough_run, !withEvents_withEvents.
    cbn [snd withEvents client world faults trace]. repeat split; try assumption.
    eexists. rewrite Htrace, <- !app_assoc. split; [reflexivity|].
    cbn [app forallb]. rewrite forallb_app, Hquiet.
    destruct (copyFails x); reflexivity. }
  destruct Hcase as [-> | [Hnone | Hstatus]].
  - exact Hthrough.
  - rewrite Hnone. destruct (negb isFile); exact Hthrough.
  - destruct (if negb isFile then echoProcessor !! suffix else None) as [p|];
      [|exact Hthrough].
    specialize (Hstatus resp eq_refl).
    replace ((StatusCode resp <? 200) || (300 <=? StatusCode resp)) with true;
      [exact Hthrough|].
    symmetry. apply orb_true_iff.
    destruct (Z.ltb_spec (StatusCode resp) 200); [left; reflexivity|].
    right. apply Z.leb_le. lia.
Qed.

Lemma ForwardRequest_passthrough_witness :
  (* [sendMessage] on the file route: the body is a message, nothing is stored *)
  let out := ForwardRequest (sampleRequest "100") "https://api.telegram.org/file/botTOKEN"
               "sendMessage" true (sampleExchange (okBody sampleMessage) false)
               (sampleState []) in
  client (snd out) = client (sampleState []) /\
  faults (world (snd out)) = [].
Proof.
  pose proof (ForwardRequest_passthrough (sampleRequest "100")
                "https://api.telegram.org/file/botTOKEN" "sendMessage" true
                (sampleExchange (okBody sampleMessage) false) (sampleState [])
                (or_introl eq_refl)) as H.
  cbn zeta in H. destruct H as (Hclient & Hfaults & _).
  split; [exact Hclient | exact Hfaults].
Defined.

Ltac list_norm := repeat (progress (rewrite <- ?app_assoc; cbn [app])).

Lemma rateWait_events (r : Request) (isFile : bool) (x : Exchange) (s : State) :
  let s1 := snd (rateWait r isFile x s) in
  client s1 = client s /\
  faults (world s1) = faults (world s) /\
  exists w,
    trace (world s1) = (trace (world s) ++ w)%list /\
    (w = [] \/ exists d, w = [Sleep d]).
Proof.
  destruct isFile.
  - rewrite rateWait_file. cbn. repeat split. exists []. rewrite app_nil_r. auto.
  - rewrite rateWait_run. cbv zeta.
    destruct (_ || _); [|destruct (ctxDone x)]; cbn [snd client world faults trace].
    1,2: repeat split; exists []; rewrite app_nil_r; auto.
    repeat split. eexists. split; [reflexivity|]. right. eexists. reflexivity.
Qed.

(** X7.  [ForwardRequest] returns [nil] exactly when the upstream answered,
    and then the status line and the body copy have gone to the downstream
    writer: a copy that fails or a storage call that fails never becomes an
    error of the request.  The errors it can return are
    [context.Canceled], "failed to send HTTP request" and "upstream HTTP
    request error", and with each of them nothing was written
    downstream. *)
Theorem ForwardRequest_result (r : Request) (prefix suffix : string)
    (isFile : bool) (x : Exchange) (s : State) :
  let out := ForwardRequest r prefix suffix isFile x s in
  exists evs,
    trace (world (snd out)) = (trace (world s) ++ evs)%list /\
    (fst out = None <-> existsb isDownstream evs = true) /\
    (fst out = None ->
       exists resp,
         response x = Some resp /\
         In (WriteHeader (StatusCode resp) (responseHeader (ResponseHeader resp))) evs /\
         In (Copy (copyFails x)) evs) /\
    (forall e, fst out = Some e ->
       e = Canceled \/ e = errSendRequest \/ e = errUpstreamRequest).
Proof.
  intros out. subst out. rewrite ForwardRequest_run. cbv zeta.
  set (logged := Log (LogRequest (Method r) (forwardURL r prefix suffix))).
  destruct (rateWait_events r isFile x (withEvents s [logged]))
    as (_ & _ & w & Htrace & Hw).
  destruct (rateWait r isFile x (withEvents s [logged])) as [cancelled s1].
  cbn [fst snd withEvents client world faults trace] in *.
  assert (Hwq : existsb isDownstream w = false).
  { destruct Hw as [-> | [d ->]]; reflexivity. }
  assert (Hstop : forall e : error,
            e = Canceled \/ e = errSendRequest \/ e = errUpstreamRequest ->
            forall s', trace (world s') = (trace (world s) ++ logged :: w)%list \/
                       (exists sent, isDownstream sent = false /\
                          trace (world s') =
                            (trace (world s) ++ logged :: w ++ [sent])%list) ->
            exists evs,
              trace (world (snd (Some e, s'))) = (trace (world s) ++ evs)%list /\
              (fst (Some e, s') = None <-> existsb isDownstream evs = true) /\
              (fst (Some e, s') = None ->
                 exists resp,
                   response x = Some resp /\
                   In (WriteHeader (StatusCode resp)
                         (responseHeader (ResponseHeader resp))) evs /\
                   In (Copy (copyFails x)) evs) /\
              (forall e', fst (Some e, s') = Some e' ->
                 e' = Canceled \/ e' = errSendRequest \/ e' = errUpstreamRequest)).
  { intros e He s' [Hs' | (sent & Hsent & Hs')]; eexists; (split; [exact Hs'|]);
      cbn [fst existsb isDownstream]; rewrite ?existsb_app, Hwq; cbn [existsb orb];
      rewrite ?Hsent; (split; [split; discriminate|]); (split; [discriminate|]);
      intros e' [= <-]; exact He. }
  destruct cancelled.
  { apply Hstop; [auto|]. left. rewrite Htrace. list_norm. reflexivity. }
  destruct (negb (requestBuilt x)).
  { apply Hstop; [auto|]. left. rewrite Htrace. list_norm. reflexivity. }
  unfold respond. destruct (response x) as [resp|].
  2:{ apply Hstop; [auto|]. right. eexists. split; [|cbn [withEvents world trace];
        rewrite Htrace; list_norm; reflexivity]. reflexivity. }
  cbv zeta.
  set (sent := Do (now (world s1)) (Method r) (forwardURL r prefix suffix)
                 (requestHeader (RequestHeader r))).
  set (wrote := WriteHeader (StatusCode resp) (responseHeader (ResponseHeader resp))).
  assert (Hdone : forall s' post,
            trace (world s') =
              (trace (world s) ++
                 (logged :: w ++ [sent; wrote; Copy (copyFails x)]) ++ post)%list ->
            exists evs,
              trace (world (snd (@None error, s'))) = (trace (world s) ++ evs)%list /\
              (fst (@None error, s') = None <-> existsb isDownstream evs = true) /\
              (fst (@None error, s') = None ->
                 exists resp0,
                   Some resp = Some resp0 /\
                   In (WriteHeader (StatusCode resp0)
                         (responseHeader (ResponseHeader resp0))) evs /\
                   In (Copy (copyFails x)) evs) /\
              (forall e', fst (@None error, s') = Some e' ->
                 e' = Canceled \/ e' = errSendRequest \/ e' = errUpstreamRequest)).
  { intros s' post Hs'. eexists. split; [exact Hs'|]. cbn [fst].
    split; [|split; [|discriminate]].
    - split; [|reflexivity]. intros _.
      cbn [app existsb]. rewrite !existsb_app. cbn [existsb isDownstream].
      rewrite !orb_true_r. reflexivity.
    - intros _. exists resp. split; [reflexivity|].
      split; apply in_or_app; left; right; apply in_or_app; right.
      + right. left. reflexivity.
      + right. right. left. reflexivity. }
  assert (Hthrough : forall st,
            st = withEvents (withEvents s1 [sent]) [wrote] ->
            exists evs,
              trace (world (snd (copyThrough x st))) = (trace (world s) ++ evs)%list /\
              (fst (copyThrough x st) = None <-> existsb isDownstream evs = true) /\
              (fst (copyThrough x st) = None ->
                 exists resp0,
                   Some resp = Some resp0 /\
                   In (WriteHeader (StatusCode resp0)
                         (responseHeader (ResponseHeader resp0))) evs /\
                   In (Copy (copyFails x)) evs) /\
              (forall e', fst (copyThrough x st) = Some e' ->
                 e' = Canceled \/ e' = errSendRequest \/ e' = errUpstreamRequest)).
  { intros st ->. rewrite copyThrough_run, !withEvents_withEvents.
    apply (Hdone _ (if copyFails x then [Log LogHTTPError] else [])).
    cbn [withEvents world trace]. rewrite Htrace.
    destruct (copyFails x); list_norm; reflexivity. }
  destruct (if negb isFile then echoProcessor !! suffix else None) as [p|];
    [destruct ((StatusCode resp <? 200) || (300 <=? StatusCode resp))|];
    try (apply Hthrough; reflexivity).
  rewrite copyAndEcho_run. destruct (copyFails x) eqn:Hcopy.
  - rewrite !withEvents_withEvents. apply (Hdone _ [Log LogHTTPError]).
    cbn [withEvents world trace]. rewrite Htrace. list_norm. reflexivity.
  - match goal with
    | |- context [runEcho p ?b ?st] =>
        destruct (appends_runEcho p b st) as [post Hpost]
    end.
    apply (Hdone _ post). rewrite Hpost, !withEvents_withEvents.
    cbn [withEvents world trace]. rewrite Htrace. list_norm. reflexivity.
Qed.

(* ===================================================================== *)
(** ** Further properties: the rate governor at work *)
(* ===================================================================== *)

Lemma cooldownFor_ge_global (c : Client) (chatID : Z) :
  globalCooldown c <= cooldownFor c chatID.
Proof.
  unfold cooldownFor, time.After.
  destruct (chatCooldown c !! chatID) as [cd|]; [|lia].
  destruct (Z.ltb_spec (globalCooldown c) cd); lia.
Qed.

Lemma cooldownFor_after_send (message : gjson.Result) (s : State) :
  let chatID := gjson.Int (gjson.Get ["chat"; "id"] message) in
  chatID <> 0 ->
  cooldownFor (client (snd (updateRateLimit message s))) chatID =
    now (world s) +
      (if chatTypeIsPrivate message then time.Second else 3 * time.Second).
Proof.
  intros chatID Hne. rewrite updateRateLimit_run. cbn [snd client]. fold chatID.
  apply Z.eqb_neq in Hne. rewrite Hne.
  unfold cooldownFor. cbn [globalCooldown chatCooldown].
  rewrite lookup_insert_eq. unfold time.After, time.Add, time.Second.
  change (1000000000 / 30 + 1) with 33333334.
  destruct (chatTypeIsPrivate message);
    match goal with
    | |- (if ?b then _ else _) = _ =>
        replace b with true by (symmetry; apply Z.ltb_lt; lia)
    end; reflexivity.
Qed.

(** The instant at which a request of the API route for a chat is issued
    when it is neither cancelled nor refused. *)
Lemma ForwardRequest_issued_at (r : Request) (prefix suffix : string)
    (x : Exchange) (s : State) :
  let chatID := fst (strconv.ParseInt (FormValue_chat_id r)) in
  let t := now (world s) in
  let deadline := cooldownFor (client s) chatID in
  chatID <> 0 -> ctxDone x = false -> requestBuilt x = true ->
  exists rest,
    trace (world (snd (ForwardRequest r prefix suffix false x s))) =
      (trace (world s) ++
         Log (LogRequest (Method r) (forwardURL r prefix suffix))
         :: (if t <? deadline then [Sleep (deadline - t)] else []) ++
         Do (Z.max t deadline) (Method r) (forwardURL r prefix suffix)
           (requestHeader (RequestHeader r)) :: rest)%list.
Proof.
  intros chatID t deadline Hne Hdone Hbuilt. rewrite ForwardRequest_run. cbv zeta.
  rewrite rateWait_run. cbn [withEvents client world now faults trace].
  fold chatID t deadline. unfold time.Sub.
  apply Z.eqb_neq in Hne. rewrite Hne, Hdone, Hbuilt. cbn [orb negb].
  destruct (Z.ltb_spec t deadline) as [Hlt | Hge].
  - replace (0 <? deadline - t) with true by (symmetry; apply Z.ltb_lt; lia).
    cbn [negb fst snd].
    match goal with
    | |- context [respond suffix false x ?s2] =>
        destruct (respond_appends suffix false x s2) as [rest Hrest]
    end.
    exists rest. rewrite Hrest. cbn [withEvents world trace now].
    replace (t + Z.max (deadline - t) 0) with (Z.max t deadline) by lia.
    list_norm. reflexivity.
  - replace (0 <? deadline - t) with false by (symmetry; apply Z.ltb_ge; lia).
    cbn [negb fst snd].
    match goal with
    | |- context [respond suffix false x ?s2] =>
        destruct (respond_appends suffix false x s2) as [rest Hrest]
    end.
    exists rest. rewrite Hrest. cbn [withEvents world trace now].
    replace (Z.max t deadline) with t by lia.
    list_norm. reflexivity.
Qed.

(** X8.  After a message to chat [k] (non-zero) has been observed at
    instant [t], the next request for chat [k] is sent upstream no earlier
    than [t + 1 s] if the chat is private and [t + 3 s] otherwise: a
    request arriving at [t2] before that instant sleeps for the rest of
    the cooldown, one arriving later is sent at once. *)
Theorem request_after_send_waits_for_chat (message : gjson.Result) (r : Request)
    (prefix suffix : string) (x : Exchange) (s s2 : State) :
  let chatID := gjson.Int (gjson.Get ["chat"; "id"] message) in
  let t := now (world s) in
  let until := t + (if chatTypeIsPrivate message
                    then 1 * time.Second else 3 * time.Second) in
  let t2 := now (world s2) in
  chatID <> 0 ->
  fst (strconv.ParseInt (FormValue_chat_id r)) = chatID ->
  client s2 = client (snd (updateRateLimit message s)) ->
  ctxDone x = false -> requestBuilt x = true ->
  exists rest,
    trace (world (snd (ForwardRequest r prefix suffix false x s2))) =
      (trace (world s2) ++
         Log (LogRequest (Method r) (forwardURL r prefix suffix))
         :: (if t2 <? until then [Sleep (until - t2)] else []) ++
         Do (Z.max t2 until) (Method r) (forwardURL r prefix suffix)
           (requestHeader (RequestHeader r)) :: rest)%list.
Proof.
  cbv zeta. intros Hne Hparse Hclient Hdone Hbuilt.
  destruct (ForwardRequest_issued_at r prefix suffix x s2) as [rest Hrest];
    try assumption.
  { rewrite Hparse. exact Hne. }
  exists rest. rewrite Hrest, Hparse, Hclient.
  rewrite (cooldownFor_after_send message s Hne). reflexivity.
Qed.

Lemma request_after_send_waits_for_chat_witness :
  (* a private message to chat 100 observed at 1000; the next request for
     chat 100 arrives at 1000 as well and is sent one second later *)
  let s2 := snd (updateRateLimit (Some sampleMessage) (sampleState [])) in
  exists rest,
    trace (world (snd (ForwardRequest (sampleRequest "100")
                         "https://api.telegram.org/botTOKEN" "getChat" false
                         (sampleExchange None false) s2))) =
      Log (LogRequest "POST" "https://api.telegram.org/botTOKEN/getChat")
      :: Sleep 1000000000
      :: Do 1000001000 "POST" "https://api.telegram.org/botTOKEN/getChat"
           [("Content-Type", ["application/json"]); ("User-Agent", [UserAgent])]
      :: rest.
Proof.
  destruct (request_after_send_waits_for_chat (Some sampleMessage) (sampleRequest "100")
              "https://api.telegram.org/botTOKEN" "getChat"
              (sampleExchange None false) (sampleState [])
              (snd (updateRateLimit (Some sampleMessage) (sampleState []))))
    as [rest Hrest]; try reflexivity.
  - vm_compute. discriminate.
  - exists rest. exact Hrest.
Defined.

(** X9.  The global budget: after any message has been observed at
    instant [t], a request of the API route for any chat (non-zero
    [chat_id]) is sent upstream no earlier than [t + 33333334 ns], and no
    earlier than it arrived. *)
Theorem request_after_send_waits_for_global (message : gjson.Result) (r : Request)
    (prefix suffix : string) (x : Exchange) (s s2 : State) :
  let t := now (world s) in
  fst (strconv.ParseInt (FormValue_chat_id r)) <> 0 ->
  client s2 = client (snd (updateRateLimit message s)) ->
  ctxDone x = false -> requestBuilt x = true ->
  exists issued pre rest,
    trace (world (snd (ForwardRequest r prefix suffix false x s2))) =
      (trace (world s2) ++ pre ++
         Do issued (Method r) (forwardURL r prefix suffix)
           (requestHeader (RequestHeader r)) :: rest)%list /\
    forallb (fun e => match e with Do _ _ _ _ => false | _ => true end) pre = true /\
    t + 33333334 <= issued /\
    now (world s2) <= issued.
Proof.
  intros t Hne Hclient Hdone Hbuilt.
  destruct (ForwardRequest_issued_at r prefix suffix x s2 Hne Hdone Hbuilt)
    as [rest Hrest].
  pose proof (cooldownFor_ge_global (client s2)
                (fst (strconv.ParseInt (FormValue_chat_id r)))) as Hge.
  rewrite Hclient in Hge at 1. rewrite updateRateLimit_run in Hge.
  cbn [snd client globalCooldown] in Hge. unfold time.Add, time.Second in Hge.
  change (1000000000 / 30 + 1) with 33333334 in Hge. fold t in Hge.
  eexists _, (_ :: _)%list, rest. split; [|split; [|split]].
  - rewrite Hrest. cbn [app]. f_equal.
  - cbn [forallb]. destruct (_ <? _); reflexivity.
  - lia.
  - lia.
Qed.

Lemma request_after_send_waits_for_global_witness :
  (* a message to chat 100 observed at 1000; a request for chat 7 *)
  let s2 := snd (updateRateLimit (Some sampleMessage) (sampleState [])) in
  exists issued pre rest,
    trace (world (snd (ForwardRequest (sampleRequest "7")
                         "https://api.telegram.org/botTOKEN" "getChat" false
                         (sampleExchange None false) s2))) =
      (pre ++ Do issued "POST" "https://api.telegram.org/botTOKEN/getChat"
                [("Content-Type", ["application/json"]); ("User-Agent", [UserAgent])]
              :: rest)%list /\
    1000 + 33333334 <= issued.
Proof.
  destruct (request_after_send_waits_for_global (Some sampleMessage) (sampleRequest "7")
              "https://api.telegram.org/botTOKEN" "getChat"
              (sampleExchange None false) (sampleState [])
              (snd (updateRateLimit (Some sampleMessage) (sampleState []))))
    as (issued & pre & rest & Htrace & _ & Hge & _); try reflexivity.
  - vm_compute. discriminate.
  - exists issued, pre, rest. split; [exact Htrace | exact Hge].
Defined.

(* ===================================================================== *)
(** ** Further properties: the retry controller and the separation of
       the two controllers *)
(* ===================================================================== *)

(** X10.  From any retry interval between 1 s and the cap,
    [sleepUntilRetry] sleeps exactly that interval (the clock advances by
    it) and leaves an interval that is again between 1 s and the cap, is
    never shorter than the one before, and is either its double or the
    cap. *)
Theorem sleepUntilRetry_keeps_interval_in_range (s : State) :
  let maxRetry := ConfigUpstream.MaxRetryInterval (Config.Upstream (conf (client s))) in
  let next := nextRetryInterval (client s) in
  let s' := snd (sleepUntilRetry s) in
  1 <= maxRetry <= 4611686018 ->
  time.Second <= next <= maxRetry * time.Second ->
  trace (world s') = (trace (world s) ++ [Sleep next])%list /\
  now (world s') = now (world s) + next /\
  time.Second <= nextRetryInterval (client s') <= maxRetry * time.Second /\
  next <= nextRetryInterval (client s') /\
  (nextRetryInterval (client s') = 2 * next \/
   nextRetryInterval (client s') = maxRetry * time.Second).
Proof.
  intros maxRetry next s' Hrange Hnext. subst s'. rewrite sleepUntilRetry_run.
  cbn [snd client world trace now nextRetryInterval]. fold next.
  unfold nextInterval. fold maxRetry next.
  unfold time.mul, time.Duration_of_uint64, time.Second in *.
  rewrite (wrap_i64_id maxRetry) by lia.
  rewrite (wrap_i64_id (maxRetry * 1000000000)) by lia.
  rewrite (wrap_i64_id (next * 2)) by lia.
  repeat split; lia.
Qed.

Lemma sleepUntilRetry_keeps_interval_in_range_witness :
  let s := mkState (mkClient sampleConfig (512 * time.Second) 0 ∅) (mkWorld 1000 [] []) in
  let s' := snd (sleepUntilRetry s) in
  now (world s') = 1000 + 512 * time.Second /\
  nextRetryInterval (client s') = 600 * time.Second.
Proof.
  pose proof (sleepUntilRetry_keeps_interval_in_range
                (mkState (mkClient sampleConfig (512 * time.Second) 0 ∅)
                   (mkWorld 1000 [] []))) as H.
  cbn zeta in H. destruct H as (_ & Hnow & _ & _ & Hnext).
  - cbn. lia.
  - cbn. unfold time.Second. lia.
  - split; [exact Hnow|]. reflexivity.
Defined.

(** X11.  The Ingestor never touches the rate governor: whatever the
    reply and whatever the storage does, one turn of [StartPolling] leaves
    the global cooldown, the per-chat cooldowns and the configuration as
    they were. *)
Theorem poll_keeps_cooldowns (offset : Z) (reply : Reply) (s : State) :
  let s' := snd (poll offset reply s) in
  globalCooldown (client s') = globalCooldown (client s) /\
  chatCooldown (client s') = chatCooldown (client s) /\
  conf (client s') = conf (client s).
Proof.
  cbv zeta. rewrite poll_run. cbv zeta.
  destruct reply as [| |status body]; rewrite ?backoff_run; try (repeat split; fail).
  status_cases status; rewrite ?backoff_run; try (repeat split; fail).
  destruct body as [bodyJson|]; rewrite ?backoff_run; try (repeat split; fail).
  destruct (negb _); rewrite ?backoff_run; try (repeat split; fail).
  match goal with
  | |- context [storeUpdates offset bodyJson ?st] => set (s0 := st)
  end.
  destruct (outcome (faults (world s0)) 0) as [e|] eqn:Hopen.
  - rewrite storeUpdates_not_opened by (rewrite Hopen; discriminate).
    rewrite backoff_run. repeat split.
  - destruct (storeUpdates_opened offset bodyJson s0 Hopen)
      as (ins & commitErr & post & offset' & _ & _ & _ & Hconf & Hglobal & Hchat & _).
    repeat split; assumption.
Qed.

Lemma runEcho_keeps_retry (p : EchoProcessor) (body : Body) (s : State) :
  nextRetryInterval (client (snd (runEcho p body s))) = nextRetryInterval (client s) /\
  conf (client (snd (runEcho p body s))) = conf (client s).
Proof.
  destruct p; cbn [runEcho].
  - unfold processEchoMessage. destruct (negb _); [split; reflexivity|].
    rewrite bind_run, updateRateLimit_run. cbn [fst snd].
    rewrite echo_transaction_run. split; reflexivity.
  - unfold processEchoMessageEdit. destruct (negb _); [split; reflexivity|].
    destruct (gjson.is_True _); [split; reflexivity|].
    rewrite echo_transaction_run. split; reflexivity.
  - unfold processEchoMessageArray. destruct (negb _); [split; reflexivity|].
    unfold Database.BeginTx, Tx.Commit, Database.NotifyUpdates, ForEach.
    rewrite bind_run, storage_run. cbn [fst snd].
    rewrite bind_run, logIfFailed_run. cbn [fst snd client world now faults trace].
    rewrite bind_run.
    match goal with
    | |- context [iterate echoArrayItem ?l tt ?st] =>
        destruct (echoArrayItems_run l st) as (_ & _ & _ & Hnext & Hconf);
        set (s2 := snd (iterate echoArrayItem l tt st)) in *
    end.
    cbn [client] in Hnext, Hconf.
    rewrite bind_run, storage_run. cbn [fst snd].
    rewrite bind_run, logIfFailed_run. cbn [fst snd client world now faults trace].
    rewrite emit_run. cbn [snd withEvents client].
    split; assumption.
Qed.

(** X12.  The Forwarder and the echo processors never touch the retry
    controller: whatever happens to a forwarded request, the retry
    interval of the Ingestor and the configuration are as before. *)
Theorem ForwardRequest_keeps_retry (r : Request) (prefix suffix : string)
    (isFile : bool) (x : Exchange) (s : State) :
  let s' := snd (ForwardRequest r prefix suffix isFile x s) in
  nextRetryInterval (client s') = nextRetryInterval (client s) /\
  conf (client s') = conf (client s).
Proof.
  cbv zeta. rewrite ForwardRequest_run. cbv zeta.
  destruct (rateWait_events r isFile x
              (withEvents s [Log (LogRequest (Method r) (forwardURL r prefix suffix))]))
    as (Hclient & _).
  destruct (rateWait r isFile x _) as [cancelled s1].
  cbn [fst snd withEvents client] in *.
  destruct cancelled; [cbn [snd]; rewrite Hclient; split; reflexivity|].
  destruct (negb (requestBuilt x)); [cbn [snd]; rewrite Hclient; split; reflexivity|].
  unfold respond. destruct (response x) as [resp|];
    [|cbn [snd withEvents client]; rewrite Hclient; split; reflexivity].
  cbv zeta.
  destruct (if negb isFile then echoProcessor !! suffix else None) as [p|];
    [destruct ((StatusCode resp <? 200) || (300 <=? StatusCode resp))|];
    rewrite ?copyThrough_run, ?copyAndEcho_run;
    try (cbn [snd withEvents client]; rewrite Hclient; split; reflexivity).
  destruct (copyFails x).
  - cbn [snd withEvents client]. rewrite Hclient. split; reflexivity.
  - cbn [snd].
    match goal with
    | |- context [runEcho p ?b ?st] =>
        destruct (runEcho_keeps_retry p b st) as [Hnext Hconf]
    end.
    rewrite Hnext, Hconf. cbn [withEvents client]. rewrite Hclient. split; reflexivity.
Qed.

(* ===================================================================== *)
(** ** Further properties: the loop of [StartPolling] *)
(* ===================================================================== *)

Lemma wrap_u64_bounds (z : Z) : 0 <= wrap_u64 z < 2 ^ 64.
Proof. unfold wrap_u64. apply Z.mod_pos_bound. lia. Qed.

(** Where a turn that reaches the storage leaves the offset. *)
Lemma storeUpdates_flow (offset : Z) (bodyJson : gjson.Result) (s : State) :
  let s1 := mkState (client s)
              (mkWorld (now (world s)) (tail (faults (world s)))
                 (trace (world s) ++ [BeginTx (outcome (faults (world s)) 0)])) in
  fst (storeUpdates offset bodyJson s) =
    Continue
      (match outcome (faults (world s)) 0 with
       | Some _ => offset
       | None =>
           fst (fst (ForEach (gjson.Get ["result"] bodyJson) storeUpdate
                       (offset, None) s1))
       end).
Proof.
  cbv zeta. unfold storeUpdates, Database.BeginTx.
  rewrite bind_run, storage_run. cbn [fst snd].
  destruct (outcome (faults (world s)) 0) as [e|].
  - rewrite log_sleep_then_continue. reflexivity.
  - rewrite bind_run.
    destruct (ForEach _ storeUpdate (offset, None) _) as [[offset' err] s2].
    cbn [fst snd]. unfold Tx.Commit, Database.NotifyUpdates. destruct err as [e|].
    + rewrite bind_run, storage_run. cbn [fst snd].
      rewrite bind_run, emit_run. cbn [fst snd].
      rewrite log_sleep_then_continue. reflexivity.
    + rewrite bind_run, storage_run. cbn [fst snd].
      rewrite bind_run, emit_run. cbn [fst snd].
      destruct (outcome _ 0).
      * rewrite log_sleep_then_continue. reflexivity.
      * rewrite bind_run, resetRetry_run. reflexivity.
Qed.

Lemma iterate_offset_bounds (l : list (gjson.Key * json)) :
  forall vars s,
    let r := iterate storeUpdate l vars s in
    fst vars <= fst (fst r) /\
    (0 <= fst vars < 2 ^ 64 -> 0 <= fst (fst r) < 2 ^ 64).
Proof.
  induction l as [|[key update] rest IH]; intros vars s; cbv zeta.
  - cbn. split; [lia | auto].
  - cbn [iterate]. rewrite bind_run.
    pose proof (storeUpdate_offset key update vars s) as Hoff.
    pose proof (wrap_u64_bounds (upstreamIDOf update + 1)) as Hwrap.
    destruct (storeUpdate key update vars s) as [[vars' continue] s1].
    cbn [fst snd] in *. destruct continue.
    + destruct (IH vars' s1) as [Hle Hrange]. split; [lia|].
      intros Hin. apply Hrange. lia.
    + cbn [ret fst]. split; [lia|]. intros Hin. lia.
Qed.

Lemma poll_flow (offset : Z) (reply : Reply) (s : State) :
  (isFatal reply = true -> fst (poll offset reply s) = Return (fatalError reply)) /\
  (isFatal reply = false ->
     exists offset',
       fst (poll offset reply s) = Continue offset' /\
       offset <= offset' /\
       (0 <= offset < 2 ^ 64 -> 0 <= offset' < 2 ^ 64)).
Proof.
  rewrite poll_run. cbv zeta.
  assert (Hsame : exists offset',
            Continue offset = Continue offset' /\ offset <= offset' /\
            (0 <= offset < 2 ^ 64 -> 0 <= offset' < 2 ^ 64)).
  { exists offset. split; [reflexivity|]. split; [lia | auto]. }
  destruct reply as [| |status body]; cbn [isFatal fatalError fst].
  - split; [reflexivity | discriminate].
  - split; [discriminate | intros _; exact Hsame].
  - destruct ((400 <=? status) && (status <? 500)) eqn:Hfatal; cbn [fst].
    { split; [reflexivity | discriminate]. }
    split; [discriminate | intros _].
    destruct (negb _); [exact Hsame|].
    destruct body as [bodyJson|]; [|exact Hsame].
    destruct (negb _); [exact Hsame|].
    rewrite storeUpdates_flow. cbv zeta.
    destruct (outcome _ 0); [exact Hsame|].
    unfold ForEach.
    match goal with
    | |- context [iterate storeUpdate ?l (offset, None) ?st] =>
        destruct (iterate_offset_bounds l (offset, None) st) as [Hle Hrange]
    end.
    eexists. split; [reflexivity|]. split; assumption.
Qed.

(** X13.  The upstream offset never moves backwards and stays a [uint64]:
    through any sequence of replies and storage outcomes, the offset the
    loop holds after them is at least the one it started from, and
    [StartPolling], which starts from 0, always holds an offset in
    [0, 2^64). *)
Theorem polling_offset_monotone (replies : list Reply) :
  forall (offset : Z) (s : State) (offset' : Z),
    fst (polling offset replies s) = inl offset' ->
    offset <= offset' /\
    (0 <= offset < 2 ^ 64 -> 0 <= offset' < 2 ^ 64) /\
    (offset = 0 -> 0 <= offset' < 2 ^ 64).
Proof.
  assert (Hmain : forall (offset : Z) (s : State) (offset' : Z),
            fst (polling offset replies s) = inl offset' ->
            offset <= offset' /\ (0 <= offset < 2 ^ 64 -> 0 <= offset' < 2 ^ 64)).
  { induction replies as [|reply rest IH]; intros offset s offset' Hend.
    - cbn in Hend. injection Hend as <-. split; [lia | auto].
    - cbn [polling] in Hend. rewrite bind_run in Hend.
      destruct (poll_flow offset reply s) as [Hfatal Hgoes].
      destruct (isFatal reply).
      + rewrite (Hfatal eq_refl) in Hend. discriminate Hend.
      + destruct (Hgoes eq_refl) as (o & Hflow & Hle & Hrange).
        rewrite Hflow in Hend. apply IH in Hend as [Hle' Hrange'].
        split; [lia|]. intros Hin. apply Hrange', Hrange, Hin. }
  intros offset s offset' Hend. destruct (Hmain offset s offset' Hend) as [Hle Hrange].
  split; [exact Hle|]. split; [exact Hrange|].
  intros ->. apply Hrange. lia.
Qed.

Lemma polling_offset_monotone_witness :
  (* update 41 arrives before update 40: the offset stays at 42 *)
  fst (polling 0 [Response 200 (Some (okBody (JArray [sampleUpdate41])));
                  Response 200 (Some (okBody (JArray [sampleUpdate40])))]
         (sampleState [])) = inl 42 /\
  0 <= 42 < 2 ^ 64.
Proof.
  assert (Hend : fst (polling 0
                        [Response 200 (Some (okBody (JArray [sampleUpdate41])));
                         Response 200 (Some (okBody (JArray [sampleUpdate40])))]
                        (sampleState [])) = inl 42) by reflexivity.
  split; [exact Hend|].
  destruct (polling_offset_monotone _ _ _ _ Hend) as (_ & _ & Hrange).
  apply Hrange. reflexivity.
Defined.

(** X14.  [StartPolling] returns only on a fatal reply, with the error of
    the first one: a request that cannot be built or a 4xx status.
    Through any sequence of other replies (transport failures, 5xx,
    unreadable or refused bodies, storage failures of any kind) it keeps
    polling. *)
Theorem StartPolling_returns_only_when_fatal (replies : list Reply) (s : State) :
  (forall e,
     fst (StartPolling replies s) = inr e ->
     exists before reply after,
       replies = (before ++ reply :: after)%list /\
       forallb (fun r => negb (isFatal r)) before = true /\
       isFatal reply = true /\ e = fatalError reply) /\
  (forallb (fun r => negb (isFatal r)) replies = true ->
     exists offset, fst (StartPolling replies s) = inl offset).
Proof.
  unfold StartPolling. generalize 0 as offset. revert s.
  induction replies as [|reply rest IH]; intros s offset.
  - split; [discriminate|]. intros _. exists offset. reflexivity.
  - cbn [polling]. rewrite bind_run.
    destruct (poll_flow offset reply s) as [Hfatal Hgoes].
    destruct (isFatal reply) eqn:Hreply.
    + rewrite (Hfatal eq_refl). cbn [fst]. split.
      * intros e [= <-]. exists [], reply, rest. auto.
      * cbn [forallb]. rewrite Hreply. discriminate.
    + destruct (Hgoes eq_refl) as (o & Hflow & _). rewrite Hflow.
      destruct (IH (snd (poll offset reply s)) o) as [Hret Hkeep]. split.
      * intros e He. destruct (Hret e He) as (before & r & after & -> & Hb & Hr & Hee).
        exists (reply :: before), r, after. cbn [forallb app]. rewrite Hreply, Hb. auto.
      * cbn [forallb]. rewrite Hreply. exact Hkeep.
Qed.

Lemma StartPolling_returns_only_when_fatal_witness :
  (* nothing can be stored, the upstream fails twice: the loop is still polling *)
  exists offset,
    fst (StartPolling
           [Response 200 (Some (okBody (JArray [sampleUpdate40])));
            NoResponse; Response 502 None; Response 200 None]
           (sampleState [true; true])) = inl offset.
Proof.
  destruct (StartPolling_returns_only_when_fatal
              [Response 200 (Some (okBody (JArray [sampleUpdate40])));
               NoResponse; Response 502 None; Response 200 None]
              (sampleState [true; true])) as [_ Hkeep].
  apply Hkeep. reflexivity.
Defined.

(* ===================================================================== *)
(** ** Further properties: what one turn stores *)
(* ===================================================================== *)

Lemma stopsAtFailure_iterate {V : Type} (errOf : V -> option error)
    (iterator : gjson.Key -> json -> V -> M (V * bool))
    (l : list (gjson.Key * json)) :
  (forall key value vars, errOf vars = None ->
     stopsAtFailure (fun r => errOf (fst r)) (iterator key value vars)) ->
  (forall key value vars s, errOf vars = None ->
     snd (fst (iterator key value vars s)) = true ->
     errOf (fst (fst (iterator key value vars s))) = None) ->
  forall vars, errOf vars = None -> stopsAtFailure errOf (iterate iterator l vars).
Proof.
  intros Hit Hcont. induction l as [|[key value] rest IH]; intros vars Hnil s.
  - exists []. cbn. rewrite app_nil_r. split; [reflexivity|]. left. auto.
  - cbn [iterate]. rewrite bind_run.
    destruct (Hit key value vars Hnil s) as (e1 & Ht1 & Hcase1).
    specialize (Hcont key value vars s Hnil).
    destruct (iterator key value vars s) as [[vars' continue] s1].
    cbn [fst snd] in *. destruct continue.
    + specialize (Hcont eq_refl).
      destruct Hcase1 as [[_ Hquiet1] | [Hne _]]; [|contradiction].
      destruct (IH vars' Hcont s1) as (e2 & Ht2 & Hcase2).
      exists (e1 ++ e2)%list. split; [rewrite Ht2, Ht1, app_assoc; reflexivity|].
      destruct Hcase2 as [[Hend Hquiet2] | (Hend & good & bad & -> & Hgood & Hbad)].
      * left. split; [exact Hend|]. rewrite existsb_app, Hquiet1, Hquiet2. reflexivity.
      * right. split; [exact Hend|]. exists (e1 ++ good)%list, bad.
        rewrite app_assoc, existsb_app, Hquiet1, Hgood. auto.
    + exists e1. cbn [ret fst snd]. split; [exact Ht1 | exact Hcase1].
Qed.

Lemma stopsAtFailure_storeMember (upstreamID : Z) (updateType : gjson.Key)
    (updateValue : json) :
  stopsAtFailure (fun r => fst r) (storeMember upstreamID updateType updateValue None).
Proof.
  intros s. unfold storeMember.
  destruct (String.eqb _ _).
  { exists []. cbn. rewrite app_nil_r. split; [reflexivity|]. left. auto. }
  destruct s as [c [t fl tr]].
  unfold Tx.InsertMessage, Tx.InsertUpdate, storage, bind, ret.
  destruct (bool_decide _); destruct fl as [|[] [|[] fl]]; cbn;
    eexists; (split; [list_norm; reflexivity|]);
    first
      [ left; split; reflexivity
      | right; split; [discriminate|];
        first [ exists []; eexists; repeat split; reflexivity
              | eexists (_ :: nil); eexists; repeat split; reflexivity ] ].
Qed.

Lemma stopsAtFailure_storeUpdate (key : gjson.Key) (update : json)
    (vars : Z * option error) :
  snd vars = None ->
  stopsAtFailure (fun r => snd (fst r)) (storeUpdate key update vars).
Proof.
  intros Hnil s. unfold storeUpdate, ForEach. rewrite bind_run, Hnil.
  destruct (stopsAtFailure_iterate (fun err => err)
              (storeMember (gjson.Uint (gjson.Get ["update_id"] (Some update))))
              (gjson.entries (Some update))
              (fun key value vars Hv =>
                 eq_ind_r (fun v => stopsAtFailure _ (storeMember _ key value v))
                   (stopsAtFailure_storeMember _ key value) Hv)
              (fun key value vars s Hv =>
                 eq_ind_r (fun v =>
                   snd (fst (storeMember _ key value v s)) = true ->
                   fst (fst (storeMember _ key value v s)) = None)
                   (storeMember_continue _ key value s) Hv)
              None eq_refl s) as (evs & H).
  exists evs. exact H.
Qed.

Lemma stopsAtFailure_batch (result : gjson.Result) (offset : Z) :
  stopsAtFailure snd (ForEach result storeUpdate (offset, None)).
Proof.
  unfold ForEach. apply stopsAtFailure_iterate.
  - intros key value vars Hnil. apply stopsAtFailure_storeUpdate. exact Hnil.
  - intros key value vars s _. apply storeUpdate_continue.
  - reflexivity.
Qed.

(** X15.  The storing loop stops at the first storage call that fails: in
    a turn whose transaction is opened, every insert before the last one
    succeeded; if the last one failed, no further row of the batch is
    attempted, the rows inserted so far are committed all the same, the
    consumers are notified, and the turn is logged and backs off. *)
Theorem poll_stops_at_first_failed_insert (offset status : Z)
    (bodyJson : gjson.Result) (s : State) :
  200 <= status < 300 ->
  gjson.Get ["ok"] bodyJson = Some JTrue ->
  outcome (faults (world s)) 0 = None ->
  let url := getUpdatesURL (conf (client s)) offset in
  let req := Log (LogRequest "GET" url) in
  let sent := Do (now (world s)) "GET" url [("User-Agent", [UserAgent])] in
  let s' := snd (poll offset (Response status (Some bodyJson)) s) in
  exists ins after,
    trace (world s') = (trace (world s) ++ [req; sent; BeginTx None] ++ ins ++ after)%list /\
    forallb isInsert ins = true /\
    ((existsb isFailure ins = false /\
      exists commitErr post, after = (Commit commitErr :: NotifyUpdates :: post)%list)
     \/
     (exists good bad commitErr,
        ins = (good ++ [bad])%list /\
        existsb isFailure good = false /\ isFailure bad = true /\
        after = [Commit commitErr; NotifyUpdates;
                 Log (LogFailedToStoreUpdates StorageFailure);
                 Sleep (nextRetryInterval (client s))])).
Proof.
  intros Hstatus Hok Hopen url req sent s'. subst s'. rewrite poll_run.
  fold url req sent. status_cases status. rewrite Hok. cbn [gjson.is_True gjson.TypeOf negb].
  unfold storeUpdates, Database.BeginTx.
  rewrite bind_run, storage_run. cbn [withEvents world faults client now trace].
  rewrite Hopen. cbn [fst snd]. rewrite bind_run.
  match goal with
  | |- context [ForEach ?res storeUpdate (offset, None) ?st] =>
      destruct (inserts_batch res offset st) as (ins & Hc & _ & Ht & Hi & _ & Hs);
      destruct (stopsAtFailure_batch res offset st) as (evs & Ht' & Hcase);
      destruct (ForEach res storeUpdate (offset, None) st) as [[offset' err] s2]
  end.
  cbn [fst snd client world trace] in *.
  assert (evs = ins) as -> by (rewrite Ht in Ht'; apply app_inv_head in Ht'; congruence).
  exists ins. unfold Tx.Commit, Database.NotifyUpdates.
  destruct Hcase as [[-> Hquiet] | (Hne & good & bad & -> & Hgood & Hbad)].
  - rewrite bind_run, storage_run. cbn [fst snd].
    rewrite bind_run, emit_run. cbn [fst snd].
    destruct (outcome (faults (world s2)) 0) as [e|].
    + rewrite log_sleep_then_continue, backoff_run.
      cbn [snd withEvents world trace]. rewrite Ht.
      eexists. split; [list_norm; reflexivity|]. split; [exact Hi|].
      left. split; [exact Hquiet|]. eexists; eexists; reflexivity.
    + rewrite bind_run, resetRetry_run.
      cbn [fst snd ret withEvents world trace]. rewrite Ht.
      eexists. split; [list_norm; reflexivity|]. split; [exact Hi|].
      left. split; [exact Hquiet|]. exists None, []. reflexivity.
  - destruct err as [e|]; [|contradiction].
    assert (e = StorageFailure) as -> by (specialize (Hs ltac:(discriminate)); congruence).
    rewrite bind_run, storage_run. cbn [fst snd].
    rewrite bind_run, emit_run. cbn [fst snd].
    rewrite log_sleep_then_continue, backoff_run.
    cbn [snd withEvents world trace client nextRetryInterval]. rewrite Ht, Hc.
    eexists. split; [list_norm; reflexivity|]. split; [exact Hi|].
    right. exists good, bad. eexists. repeat split; assumption.
Qed.

Lemma poll_stops_at_first_failed_insert_witness :
  (* the insert of the message of update 40 fails: update 41 is not attempted *)
  skipn 3 (trace (world (snd (poll 0
     (Response 200 (Some (okBody (JArray [sampleUpdate40; sampleUpdate41]))))
     (sampleState [false; true]))))) =
    [InsertMessage (Some sampleMessage) (Some StorageFailure);
     Commit None; NotifyUpdates;
     Log (LogFailedToStoreUpdates StorageFailure);
     Sleep 1000000000].
Proof.
  destruct (poll_stops_at_first_failed_insert 0 200
              (okBody (JArray [sampleUpdate40; sampleUpdate41]))
              (sampleState [false; true]) ltac:(lia) eq_refl eq_refl)
    as (ins & after & Htrace & _).
  reflexivity.
Defined.

Lemma calm_tail (fl : list bool) :
  (forall i, outcome fl i = None) -> forall i, outcome (tail fl) i = None.
Proof.
  intros Hcalm i. change (tail fl) with (drop 1 fl). rewrite outcome_drop. apply Hcalm.
Qed.

Lemma storeMember_rows (upstreamID : Z) (kv : gjson.Key * json) (s : State) :
  (forall i, outcome (faults (world s)) i = None) ->
  let r := storeMember upstreamID (fst kv) (snd kv) None s in
  fst r = (None, true) /\
  trace (world (snd r)) = (trace (world s) ++ rowsOfMember upstreamID kv)%list /\
  (forall i, outcome (faults (world (snd r))) i = None).
Proof.
  intros Hcalm. cbv zeta. unfold storeMember, rowsOfMember.
  destruct (String.eqb _ _).
  { cbn. rewrite app_nil_r. auto. }
  unfold Tx.InsertMessage, Tx.InsertUpdate.
  destruct (bool_decide _).
  - rewrite bind_run, storage_run, (Hcalm 0%nat). cbn [fst snd negb is_nil].
    rewrite bind_run, storage_run.
    cbn [fst snd world faults trace].
    rewrite (calm_tail _ Hcalm 0%nat). cbn [ret fst snd is_nil world trace faults].
    split; [reflexivity|]. split; [list_norm; reflexivity|].
    apply calm_tail, calm_tail, Hcalm.
  - rewrite bind_run, storage_run, (Hcalm 0%nat).
    cbn [ret fst snd is_nil world trace faults].
    split; [reflexivity|]. split; [reflexivity|]. apply calm_tail, Hcalm.
Qed.

Lemma members_rows (upstreamID : Z) (l : list (gjson.Key * json)) :
  forall s,
    (forall i, outcome (faults (world s)) i = None) ->
    let r := iterate (storeMember upstreamID) l None s in
    fst r = None /\
    trace (world (snd r)) =
      (trace (world s) ++ flat_map (rowsOfMember upstreamID) l)%list /\
    (forall i, outcome (faults (world (snd r))) i = None).
Proof.
  induction l as [|[key value] rest IH]; intros s Hcalm; cbv zeta.
  - cbn. rewrite app_nil_r. auto.
  - cbn [iterate flat_map]. rewrite bind_run.
    destruct (storeMember_rows upstreamID (key, value) s Hcalm) as (Hr & Ht & Hcalm1).
    cbn [fst snd] in Hr, Ht, Hcalm1. rewrite Hr. cbn [fst snd].
    destruct (IH _ Hcalm1) as (Hr' & Ht' & Hcalm2).
    split; [exact Hr'|]. split; [|exact Hcalm2].
    rewrite Ht', Ht, app_assoc. reflexivity.
Qed.

Lemma storeUpdate_rows (key : gjson.Key) (update : json) (offset : Z) (s : State) :
  (forall i, outcome (faults (world s)) i = None) ->
  let r := storeUpdate key update (offset, None) s in
  fst r = ((Z.max offset (wrap_u64 (upstreamIDOf update + 1)), None), true) /\
  trace (world (snd r)) = (trace (world s) ++ rowsOfUpdate update)%list /\
  (forall i, outcome (faults (world (snd r))) i = None).
Proof.
  intros Hcalm. cbv zeta. unfold storeUpdate, ForEach. rewrite bind_run.
  destruct (members_rows (gjson.Uint (gjson.Get ["update_id"] (Some update)))
              (gjson.entries (Some update)) s Hcalm) as (Hr & Ht & Hcalm1).
  cbn [fst snd] in *. rewrite Hr. split; [reflexivity|]. split; assumption.
Qed.

Lemma batch_rows (l : list (gjson.Key * json)) :
  forall offset s,
    (forall i, outcome (faults (world s)) i = None) ->
    let r := iterate storeUpdate l (offset, None) s in
    fst r = (offsetAfter offset (map snd l), None) /\
    trace (world (snd r)) =
      (trace (world s) ++ flat_map rowsOfUpdate (map snd l))%list /\
    (forall i, outcome (faults (world (snd r))) i = None).
Proof.
  induction l as [|[key update] rest IH]; intros offset s Hcalm; cbv zeta.
  - cbn. rewrite app_nil_r. auto.
  - cbn [iterate map snd flat_map]. rewrite bind_run.
    destruct (storeUpdate_rows key update offset s Hcalm) as (Hr & Ht & Hcalm1).
    cbn [fst snd] in Hr, Ht, Hcalm1. rewrite Hr. cbn [fst snd].
    match goal with
    | |- context [iterate storeUpdate rest (?o, None) ?st] =>
        destruct (IH o st Hcalm1) as (Hr' & Ht' & Hcalm2)
    end.
    split; [rewrite Hr'; reflexivity|]. split; [|exact Hcalm2].
    rewrite Ht', Ht, app_assoc. reflexivity.
Qed.

(** X16.  When no storage call fails, one turn stores the batch in
    upstream order inside one transaction: [BeginTx], then for each update
    of [result] in order, and for each of its members other than
    [update_id] in order, [InsertMessage] (only for the six cacheable
    kinds) followed by [InsertUpdate] with the update's id, the member
    name and its value, then [Commit] and [NotifyUpdates]; the retry
    interval is reset.  An empty [result], or an update that has only its
    [update_id], stores no row but is committed and notified all the
    same. *)
Theorem poll_stores_in_upstream_order (offset status : Z) (bodyJson : gjson.Result)
    (s : State) :
  200 <= status < 300 ->
  gjson.Get ["ok"] bodyJson = Some JTrue ->
  (forall i, outcome (faults (world s)) i = None) ->
  let url := getUpdatesURL (conf (client s)) offset in
  let r := poll offset (Response status (Some bodyJson)) s in
  trace (world (snd r)) =
    (trace (world s) ++
       [Log (LogRequest "GET" url);
        Do (now (world s)) "GET" url [("User-Agent", [UserAgent])];
        BeginTx None] ++
       flat_map rowsOfUpdate (updatesOf bodyJson) ++
       [Commit None; NotifyUpdates])%list /\
  fst r = Continue (offsetAfter offset (updatesOf bodyJson)) /\
  nextRetryInterval (client (snd r)) = time.Second.
Proof.
  intros Hstatus Hok Hcalm url r. subst r. rewrite poll_run.
  fold url. status_cases status. rewrite Hok. cbn [gjson.is_True gjson.TypeOf negb].
  unfold storeUpdates, Database.BeginTx.
  rewrite bind_run, storage_run. cbn [withEvents world faults client now trace].
  rewrite (Hcalm 0%nat). cbn [fst snd]. rewrite bind_run. unfold ForEach.
  match goal with
  | |- context [iterate storeUpdate ?l (offset, None) ?st] =>
      destruct (batch_rows l offset st) as (Hr & Ht & Hcalm')
  end.
  { cbn [world faults]. apply calm_tail, Hcalm. }
  fold (updatesOf bodyJson) in Hr, Ht. cbn [world trace] in Ht.
  rewrite Hr. cbn [fst snd]. unfold Tx.Commit, Database.NotifyUpdates.
  rewrite bind_run, storage_run, (Hcalm' 0%nat). cbn [fst snd].
  rewrite bind_run, emit_run. cbn [fst snd].
  rewrite bind_run, resetRetry_run.
  cbn [fst snd ret withEvents client world trace nextRetryInterval]. rewrite Ht.
  repeat split. list_norm. reflexivity.
Qed.

Lemma poll_stores_in_upstream_order_witness :
  skipn 2 (trace (world (snd (poll 0
     (Response 200 (Some (okBody (JArray [sampleUpdate41; sampleUpdate40]))))
     (sampleState []))))) =
    [BeginTx None;
     InsertUpdate 41 "callback_query" (Some (JObject [("id", JString "q")])) None;
     InsertMessage (Some sampleMessage) None;
     InsertUpdate 40 "message" (Some sampleMessage) None;
     Commit None; NotifyUpdates].
Proof.
  destruct (poll_stores_in_upstream_order 0 200
              (okBody (JArray [sampleUpdate41; sampleUpdate40])) (sampleState []))
    as (Htrace & _).
  - lia.
  - reflexivity.
  - intros i. unfold outcome. cbn [sampleState world faults]. destruct i; reflexivity.
  - exact (f_equal (skipn 2) Htrace).
Defined.

(* ===================================================================== *)
(** ** Further properties: [Load] *)
(* ===================================================================== *)

Lemma is_empty_false (s : string) : is_empty s = false -> s <> "".
Proof. destruct s; [discriminate | intros _; discriminate]. Qed.

Lemma checkConfig_None (conf : Config.t) :
  checkConfig conf = None ->
  let u := Config.Upstream conf in
  let d := Config.Downstream conf in
  Config.DB conf <> "" /\
  ConfigUpstream.ApiUrl u <> "" /\
  ConfigUpstream.FileUrl u <> "" /\
  ConfigUpstream.AuthToken u <> "" /\
  10 <= ConfigUpstream.PollingTimeout u /\
  60 <= ConfigUpstream.MaxRetryInterval u /\
  ConfigDownstream.ListenAddr d <> "" /\
  ConfigDownstream.ApiPath d <> "" /\
  ConfigDownstream.FilePath d <> "" /\
  ConfigDownstream.AuthToken d <> "".
Proof.
  unfold checkConfig.
  repeat match goal with
         | |- context [if ?b then Some _ else _] =>
             let E := fresh "E" in destruct b eqn:E; [discriminate|]
         end.
  intros _. cbv zeta.
  repeat match goal with
         | H : is_empty _ = false |- _ => apply is_empty_false in H
         | H : (_ <? _) = false |- _ => apply Z.ltb_ge in H
         end.
  repeat split; assumption.
Qed.

(** X17.  A configuration that [Load] returns is a valid one: its eight
    string settings are not empty, its polling timeout is at least 10 and
    its maximal retry interval at least 60; and its derived fields are
    computed from the validated ones: the two upstream prefixes are the
    URL followed by the path-escaped token, the update filter is the
    query-escaped JSON of the list, the downstream prefixes are the
    unescaped segments of the parsed paths. *)
Theorem Load_returns_valid_config `{Codec} (file : ConfigFile) (conf : Config.t) :
  Load file = inr conf ->
  let u := Config.Upstream conf in
  let d := Config.Downstream conf in
  (Config.DB conf <> "" /\
   ConfigUpstream.ApiUrl u <> "" /\
   ConfigUpstream.FileUrl u <> "" /\
   ConfigUpstream.AuthToken u <> "" /\
   10 <= ConfigUpstream.PollingTimeout u /\
   60 <= ConfigUpstream.MaxRetryInterval u /\
   ConfigDownstream.ListenAddr d <> "" /\
   ConfigDownstream.ApiPath d <> "" /\
   ConfigDownstream.FilePath d <> "" /\
   ConfigDownstream.AuthToken d <> "") /\
  ConfigUpstream.ApiPrefix u =
    ConfigUpstream.ApiUrl u ++ PathEscape (ConfigUpstream.AuthToken u) /\
  ConfigUpstream.FilePrefix u =
    ConfigUpstream.FileUrl u ++ PathEscape (ConfigUpstream.AuthToken u) /\
  (exists buf,
     Marshal (ConfigUpstream.FilterUpdateTypes u) = Some buf /\
     ConfigUpstream.FilterUpdateTypesStr u = QueryEscape buf) /\
  (exists escaped,
     ParseRequestURI (ConfigDownstream.ApiPath d) = Some escaped /\
     unescapeAll (Split escaped) = Some (ConfigDownstream.ApiPrefix d)) /\
  (exists escaped,
     ParseRequestURI (ConfigDownstream.FilePath d) = Some escaped /\
     unescapeAll (Split escaped) = Some (ConfigDownstream.FilePrefix d)).
Proof.
  destruct file as [| |doc]; [discriminate | discriminate|].
  cbn [Load]. destruct (checkConfig _) eqn:Hcheck; [discriminate|].
  apply checkConfig_None in Hcheck. cbv zeta in Hcheck.
  unfold derive, splitPrefix.
  destruct (Marshal _) as [buf|] eqn:Hbuf; [|discriminate].
  destruct (ParseRequestURI (ConfigDownstream.ApiPath _)) as [api|] eqn:Hapi;
    [|discriminate].
  destruct (unescapeAll (Split api)) as [apiSegments|] eqn:Hapis; [|discriminate].
  destruct (ParseRequestURI (ConfigDownstream.FilePath _)) as [fp|] eqn:Hfp;
    [|discriminate].
  destruct (unescapeAll (Split fp)) as [fileSegments|] eqn:Hfps; [|discriminate].
  intros [= <-]. cbn. split; [exact Hcheck|].
  split; [reflexivity|]. split; [reflexivity|].
  split; [exists buf; auto|]. split; [exists api; auto | exists fp; auto].
Qed.

Lemma Load_returns_valid_config_witness :
  exists conf,
    Load (Document minimalDoc) = inr conf /\
    ConfigUpstream.ApiPrefix (Config.Upstream conf) = "https://api.telegram.org/botTOKEN" /\
    ConfigDownstream.FilePrefix (Config.Downstream conf) = [""; "file"; "bot"] /\
    60 <= ConfigUpstream.MaxRetryInterval (Config.Upstream conf).
Proof.
  eexists. split; [reflexivity|].
  match goal with
  | |- context [Config.Upstream ?c] =>
      pose proof (Load_returns_valid_config (Document minimalDoc) c eq_refl) as H
  end.
  cbn zeta in H. destruct H as (Hvalid & _).
  split; [reflexivity|]. split; [reflexivity|].
  destruct Hvalid as (_ & _ & _ & _ & _ & Hmax & _). exact Hmax.
Defined.

(** X18.  The checks come first: [Load] reports a field as "is invalid"
    only for a file that decoded and passed every emptiness and duration
    check, and only for [upstream.filter_update_types],
    [downstream.api_path] or [downstream.file_path], in that order of
    precedence; a file that cannot be opened or decoded is reported as
    "failed to load config file", never as a field error. *)
Theorem Load_invalid_only_after_checks `{Codec} (file : ConfigFile) (field : string) :
  (Load file = inl (errConfigFieldIsInvalid field) ->
   exists doc,
     file = Document doc /\
     checkConfig (Decode doc defaultConfig) = None /\
     let u := Config.Upstream (Decode doc defaultConfig) in
     let d := Config.Downstream (Decode doc defaultConfig) in
     ((field = "upstream.filter_update_types" /\
       Marshal (ConfigUpstream.FilterUpdateTypes u) = None) \/
      (field = "downstream.api_path" /\
       Marshal (ConfigUpstream.FilterUpdateTypes u) <> None /\
       splitPrefix "downstream.api_path" (ConfigDownstream.ApiPath d)
         = inl (errConfigFieldIsInvalid field)) \/
      (field = "downstream.file_path" /\
       Marshal (ConfigUpstream.FilterUpdateTypes u) <> None /\
       (exists segments,
          splitPrefix "downstream.api_path" (ConfigDownstream.ApiPath d)
            = inr segments) /\
       splitPrefix "downstream.file_path" (ConfigDownstream.FilePath d)
         = inl (errConfigFieldIsInvalid field)))) /\
  (forall e, Load file = inl e ->
     (e = errLoadConfigFile <-> file = Unreadable \/ file = Malformed)).
Proof.
  split.
  - destruct file as [| |doc]; [discriminate | discriminate|].
    cbn [Load]. destruct (checkConfig _) as [e|] eqn:Hcheck.
    { rewrite checkConfig_firstFailing in Hcheck.
      destruct (firstFailing _) as [g|]; [|discriminate].
      injection Hcheck as <-. unfold validationError.
      destruct (isDuration g); discriminate. }
    intros Hderive. exists doc. split; [reflexivity|]. split; [exact Hcheck|].
    cbv zeta. unfold derive in Hderive.
    destruct (Marshal _) as [buf|].
    2:{ left. injection Hderive as <-. auto. }
    destruct (splitPrefix "downstream.api_path" _) as [e1|api] eqn:Hapi.
    { right. left. injection Hderive as ->.
      pose proof (splitPrefix_error _ _ _ Hapi) as Hf. injection Hf as ->.
      split; [reflexivity|]. split; [discriminate | reflexivity]. }
    destruct (splitPrefix "downstream.file_path" _) as [e2|fp] eqn:Hfile;
      [|discriminate].
    right. right. injection Hderive as ->.
    pose proof (splitPrefix_error _ _ _ Hfile) as Hf. injection Hf as ->.
    split; [reflexivity|]. split; [discriminate|]. split; [eauto | reflexivity].
  - intros e HL. split.
    + intros ->. destruct file as [| |doc]; [auto | auto|]. exfalso.
      destruct (Load_error doc _ HL) as [[f Hf] | (g & Hg & _)]; [discriminate|].
      unfold validationError in Hg. destruct (isDuration g); discriminate.
    + intros [-> | ->]; cbn in HL; congruence.
Qed.

Lemma Load_invalid_only_after_checks_witness :
  (* an [api_path] that does not start with a slash *)
  Load (Document (mkTomlDoc None None None (Some "TOKEN") None None None
                    (Some ":8080") (Some "bot") None (Some "SECRET")))
  = inl (errConfigFieldIsInvalid "downstream.api_path") /\
  checkConfig (Decode (mkTomlDoc None None None (Some "TOKEN") None None None
                         (Some ":8080") (Some "bot") None (Some "SECRET"))
                 defaultConfig) = None.
Proof.
  assert (HL : Load (Document (mkTomlDoc None None None (Some "TOKEN") None None None
                                 (Some ":8080") (Some "bot") None (Some "SECRET")))
               = inl (errConfigFieldIsInvalid "downstream.api_path")) by reflexivity.
  split; [exact HL|].
  destruct (Load_invalid_only_after_checks
              (Document (mkTomlDoc None None None (Some "TOKEN") None None None
                           (Some ":8080") (Some "bot") None (Some "SECRET")))
              "downstream.api_path") as [Hinvalid _].
  destruct (Hinvalid HL) as (doc & Hdoc & Hcheck & _).
  injection Hdoc as <-. exact Hcheck.
Defined.

(* ===================================================================== *)
(** ** Further properties: from [NewClient] to the first cooldown *)
(* ===================================================================== *)

(** X19.  A client that has just been built delays nothing: until a
    message has been observed, a request of either route, for any
    [chat_id], is never cancelled by the rate governor and, when it can be
    built, is sent upstream at the instant it arrives. *)
Theorem fresh_client_does_not_wait (c : Config.t) (t0 : time.Time) (r : Request)
    (prefix suffix : string) (isFile : bool) (x : Exchange) (s : State) :
  client s = NewClient c t0 ->
  t0 <= now (world s) ->
  let out := ForwardRequest r prefix suffix isFile x s in
  fst out <> Some Canceled /\
  (requestBuilt x = true ->
   exists rest,
     trace (world (snd out)) =
       (trace (world s) ++
          [Log (LogRequest (Method r) (forwardURL r prefix suffix));
           Do (now (world s)) (Method r) (forwardURL r prefix suffix)
             (requestHeader (RequestHeader r))] ++ rest)%list).
Proof.
  intros Hclient Hnow out. subst out. rewrite ForwardRequest_run. cbv zeta.
  assert (Hwait : forall s0, client s0 = client s -> now (world s0) = now (world s) ->
                             rateWait r isFile x s0 = (false, s0)).
  { intros s0 Hc Hn. destruct isFile; [apply rateWait_file|].
    rewrite rateWait_run. cbv zeta. rewrite Hc, Hclient, Hn.
    unfold cooldownFor, NewClient. cbn [globalCooldown chatCooldown].
    rewrite lookup_empty. unfold time.Sub.
    replace (0 <? t0 - now (world s)) with false by (symmetry; apply Z.ltb_ge; lia).
    rewrite orb_true_r. reflexivity. }
  rewrite Hwait by reflexivity. cbn [fst snd]. split.
  - destruct (negb (requestBuilt x)); [discriminate|].
    unfold respond. destruct (response x) as [resp|]; [|discriminate]. cbv zeta.
    destruct (if negb isFile then echoProcessor !! suffix else None) as [p|];
      [destruct ((StatusCode resp <? 200) || (300 <=? StatusCode resp))|];
      rewrite ?copyThrough_run, ?copyAndEcho_run; try discriminate.
    destruct (copyFails x); discriminate.
  - intros Hbuilt. rewrite Hbuilt. cbn [negb].
    match goal with
    | |- context [respond suffix isFile x ?s2] =>
        destruct (respond_appends suffix isFile x s2) as [rest Hrest]
    end.
    exists rest. rewrite Hrest. cbn [withEvents world trace now].
    list_norm. reflexivity.
Qed.

Lemma fresh_client_does_not_wait_witness :
  fst (ForwardRequest (sampleRequest "100") "https://api.telegram.org/botTOKEN"
         "getChat" false (mkExchange true true None false) (sampleState []))
  <> Some Canceled.
Proof.
  destruct (fresh_client_does_not_wait sampleConfig 1000 (sampleRequest "100")
              "https://api.telegram.org/botTOKEN" "getChat" false
              (mkExchange true true None false) (sampleState []))
    as [Hnot _].
  - reflexivity.
  - cbn. lia.
  - exact Hnot.
Defined.

Lemma processEchoMessage_state (body : Body) (s : State) :
  gjson.Get ["ok"] body = Some JTrue ->
  client (snd (processEchoMessage body s)) =
    client (snd (updateRateLimit (gjson.Get ["result"] body) s)) /\
  now (world (snd (processEchoMessage body s))) = now (world s).
Proof.
  intros Hok. unfold processEchoMessage. rewrite Hok.
  cbn [gjson.is_True gjson.TypeOf negb].
  rewrite bind_run. cbn [fst snd].
  rewrite echo_transaction_run. cbn [snd client world now].
  rewrite updateRateLimit_run. split; reflexivity.
Qed.

(** X20.  A successful send starts the cooldowns: when a single-message
    send method is forwarded, the upstream answers 2xx with [ok == true]
    and the body reaches the client, then at the end of [ForwardRequest]
    the global cooldown runs until [33333334 ns] after the current
    instant, and the cooldown of the chat of the message sent (non-zero
    [chat.id]) until 1 s after it for a private chat, 3 s otherwise. *)
Theorem ForwardRequest_send_starts_cooldown (r : Request) (prefix suffix : string)
    (x : Exchange) (s : State) (resp : UpstreamResponse) :
  echoProcessor !! suffix = Some EchoMessage ->
  response x = Some resp ->
  200 <= StatusCode resp < 300 ->
  gjson.Get ["ok"] (ResponseBody resp) = Some JTrue ->
  copyFails x = false ->
  let message := gjson.Get ["result"] (ResponseBody resp) in
  let chatID := gjson.Int (gjson.Get ["chat"; "id"] message) in
  chatID <> 0 ->
  let out := ForwardRequest r prefix suffix false x s in
  fst out = None ->
  let t := now (world (snd out)) in
  globalCooldown (client (snd out)) = t + 33333334 /\
  chatCooldown (client (snd out)) !! chatID =
    Some (t + (if chatTypeIsPrivate message
               then 1 * time.Second else 3 * time.Second)).
Proof.
  intros Hecho Hresp Hstatus Hok Hcopy message chatID Hne out. subst out.
  rewrite ForwardRequest_run. cbv zeta.
  destruct (rateWait r false x _) as [cancelled s1]. cbn [fst snd].
  destruct cancelled; [discriminate|].
  destruct (negb (requestBuilt x)); [discriminate|].
  unfold respond. rewrite Hresp. cbn [negb]. rewrite Hecho.
  replace ((StatusCode resp <? 200) || (300 <=? StatusCode resp)) with false
    by (symmetry; apply orb_false_iff; split; [apply Z.ltb_ge | apply Z.leb_gt]; lia).
  rewrite copyAndEcho_run, Hcopy. cbn [fst snd runEcho]. intros _.
  match goal with
  | |- context [processEchoMessage ?b ?st] =>
      destruct (processEchoMessage_state b st Hok) as [Hclient Hnow]
  end.
  rewrite Hclient, Hnow, updateRateLimit_run.
  cbn [snd client globalCooldown chatCooldown]. fold message. fold chatID.
  apply Z.eqb_neq in Hne. rewrite Hne, lookup_insert_eq.
  unfold time.Add, time.Second. change (1000000000 / 30 + 1) with 33333334.
  split; [reflexivity|]. destruct (chatTypeIsPrivate message); reflexivity.
Qed.

Lemma ForwardRequest_send_starts_cooldown_witness :
  let out := ForwardRequest (sampleRequest "100") "https://api.telegram.org/botTOKEN"
               "sendMessage" false (sampleExchange (okBody sampleMessage) false)
               coolingState in
  (* the request waits for the global cooldown (5000), then the send is observed *)
  now (world (snd out)) = 5000 /\
  globalCooldown (client (snd out)) = 5000 + 33333334 /\
  chatCooldown (client (snd out)) !! 100 = Some (5000 + 1 * time.Second).
Proof.
  pose proof (ForwardRequest_send_starts_cooldown (sampleRequest "100")
                "https://api.telegram.org/botTOKEN" "sendMessage"
                (sampleExchange (okBody sampleMessage) false) coolingState
                (mkUpstreamResponse 200 [] (okBody sampleMessage))
                eq_refl eq_refl ltac:(cbn; lia) eq_refl eq_refl) as H.
  cbn zeta in H. destruct H as [Hglobal Hchat].
  - vm_compute. discriminate.
  - reflexivity.
  - split; [reflexivity|]. split; [exact Hglobal | exact Hchat].
Defined.
